(** * Fork synchronisation: the sync controller, the conflict resolver and
      the configuration check, embedded from the JavaScript sources.

    Sources embedded here:
    - the sync controller, [src/unnamed/part_000]:
      [startSync], [syncRepository], [initializeRepository],
      [checkForUpstreamChanges], [mergeUpstreamChanges];
    - the conflict resolver, first module of [src/unnamed/part_004]:
      [resolveConflicts];
    - the set-up of the text-generation client, [src/src/utils/llm-client.js]:
      [initializeLLMClient];
    - the check of the repository entries in [validateConfig] of
      [src/unnamed/part_003], and the pattern for repository names of the
      other copy, [src/src/config.js];
    - a later copy of the controller, which follows the test suite inside
      [src/src/controller.test.js]: its [initializeRepository],
      [checkForUpstreamChanges] and [mergeUpstreamChanges] are embedded under
      the names [revised_...], for comparison with the controller above;
    - the modules around the controller, each in a module of its own:
      the text-generation client ([src/src/utils/llm-client.js]), the GitHub
      API client ([src/src/utils/github-api.js]), the test runner
      ([src/src/modules/tester.js]), the Git client
      ([src/src/modules/git.js]), the mailer (second module of
      [src/unnamed/part_004]), the configuration module
      ([src/src/config.js] and [src/unnamed/part_003]), the scheduler
      ([src/unnamed/part_002]) and the helpers
      ([src/src/utils/helpers.js]).

    Modelling decisions:
    - strings are sequences of 8-bit characters;
    - every call that leaves the modules under study (the Git client and its
      constructor, the file system, the text-generation client, the test
      runner, the mailer, [configureLogger]) is answered by an oracle that
      sees the whole history of the run and may answer with a throw, so a
      theorem quantified over oracles holds for every behaviour of the
      collaborators;
    - the logging functions record and return: a log line is an event of the
      trace, [createSessionLogger] leaves no event, and of the second
      argument of a log call only an error or an error text is kept;
    - [process.cwd], [path.resolve] and [path.join] are parameters;
    - the modules around the controller run against a world of their own
      ([Sys.World]), which answers the calls to the libraries ([fs],
      [simple-git], [openai], [nodemailer], [node-cron], [child_process]);
      the variables that a module declares with [let] are the state of its
      computations, and the numbers of JSON values are integers. *)

From Stdlib Require Import String Ascii List Bool Arith Lia ZArith QArith DecimalString.
Import ListNotations.
Close Scope Q_scope.
Open Scope list_scope.
Open Scope string_scope.

(** ** JavaScript string and array primitives used by the sources *)

Module JS.

(** [s.startsWith(p)] *)
Fixpoint startsWith (s p : string) : bool :=
  match p, s with
  | EmptyString, _ => true
  | String _ _, EmptyString => false
  | String a p', String b s' => Ascii.eqb a b && startsWith s' p'
  end.

(** [s.includes(needle)] *)
Fixpoint includes (s needle : string) : bool :=
  startsWith s needle
  || match s with
     | EmptyString => false
     | String _ s' => includes s' needle
     end.

(** White space and line terminators below code 256. *)
Definition isWhiteSpace (c : ascii) : bool :=
  let n := nat_of_ascii c in
  existsb (Nat.eqb n) [9; 10; 11; 12; 13; 32; 160].

(** [s.trimEnd()] *)
Fixpoint trimEnd (s : string) : string :=
  match s with
  | EmptyString => EmptyString
  | String c s' =>
      match trimEnd s' with
      | EmptyString => if isWhiteSpace c then EmptyString else String c EmptyString
      | t => String c t
      end
  end.

(** [s.trimStart()] and [s.trim()] *)
Fixpoint trimStart (s : string) : string :=
  match s with
  | EmptyString => EmptyString
  | String c s' => if isWhiteSpace c then trimStart s' else s
  end.

Definition trim (s : string) : string := trimEnd (trimStart s).

(** [s.split(sep)] for a one-character separator: the result is never
    empty, and an empty input gives one empty piece. *)
Fixpoint split (sep : ascii) (s : string) : list string :=
  match s with
  | EmptyString => [EmptyString]
  | String c s' =>
      if Ascii.eqb c sep then EmptyString :: split sep s'
      else match split sep s' with
           | [] => [String c EmptyString]
           | p :: ps => String c p :: ps
           end
  end.

(** [arr.join(sep)] *)
Definition join (sep : string) (l : list string) : string := String.concat sep l.

(** [String(n)] for a non-negative integer *)
Definition ofNat (n : nat) : string := NilEmpty.string_of_uint (Nat.to_uint n).

(** ASCII part of [s.toLowerCase()] *)
Definition lowerChar (c : ascii) : ascii :=
  let n := nat_of_ascii c in
  if Nat.leb 65 n && Nat.leb n 90 then ascii_of_nat (n + 32) else c.

Fixpoint toLowerCase (s : string) : string :=
  match s with
  | EmptyString => EmptyString
  | String c s' => String (lowerChar c) (toLowerCase s')
  end.

(** Truthiness of a string value, and of a possibly missing one. *)
Definition truthy (s : string) : bool := negb (String.eqb s "").

Definition truthyOpt (s : option string) : bool :=
  match s with Some v => truthy v | None => false end.

(** A possibly missing string inside a template literal. *)
Definition show (s : option string) : string :=
  match s with Some v => v | None => "undefined" end.

(** Number of occurrences of a character. *)
Fixpoint count (c : ascii) (s : string) : nat :=
  match s with
  | EmptyString => 0
  | String d s' => (if Ascii.eqb c d then 1 else 0) + count c s'
  end.

End JS.


(** ** Data model *)

(** A thrown JavaScript [Error]; only its [message] is ever read. *)
Record Error : Type := mkError { message : string }.

(** Outcome of an awaited call: a value, or a thrown error. *)
Inductive result (T : Type) : Type :=
| Ok (t : T)
| Threw (e : Error).
Arguments Ok {T} t.
Arguments Threw {T} e.

(** An entry of [git.getRemotes()]. *)
Record Remote : Type := mkRemote { remote_name : string; remote_url : string }.

(** The part of [git.status()] that is read: [status.conflicted]. *)
Record StatusResult : Type := mkStatus { conflicted : list string }.

(** [config.llm] *)
Record LlmConfig : Type := mkLlm {
  llm_provider : option string;
  llm_apiKey : option string;
  llm_model : option string;
  llm_url : option string }.

(** An entry of [config.accounts], after validation has filled in the
    default branches. *)
Record Account : Type := mkAccount {
  account_name : string;
  token : string;
  repos : list string;
  devBranch : string;
  upstreamBranch : string }.

(** The fields of the application configuration that the controller reads;
    [logOptions] and [email] are only tested for presence. *)
Record Config : Type := mkConfig {
  logOptions : bool;
  accounts : list Account;
  reposBaseDir : string;
  runTestsAfterMerge : bool;
  llm : option LlmConfig;
  email : bool;
  sendMailOnFailure : bool }.

(** The [options] argument of [startSync]. *)
Record Options : Type := mkOptions {
  accountFilter : option string;
  repoFilter : option string }.

Inductive Status : Type := synced | skipped | error.

Inductive TestsStatus : Type := passed | failed | tests_error.

(** What [resolveConflicts] returns: [{ success, error? }]. *)
Record ResolveResult : Type := mkResolve {
  resolve_success : bool;
  resolve_error : option string }.

(** What [mergeUpstreamChanges] returns; [testsStatus] is added afterwards
    by [syncRepository]. *)
Record MergeResult : Type := mkMerge {
  merge_success : bool;
  merge_hadConflicts : bool;
  merge_usedLLM : bool;
  merge_message : option string;
  merge_error : option string;
  merge_testsStatus : option TestsStatus }.

(** The per-repository outcome object.  A field that the object literal does
    not mention is [None]. *)
Record Outcome : Type := mkOutcome {
  repository : string;
  account : string;
  success : bool;
  status : Status;
  hadConflicts : option bool;
  usedLLM : option bool;
  testsStatus : option TestsStatus;
  outcome_message : option string;
  outcome_error : option string }.

(** The [results] object of [startSync]. *)
Record Results : Type := mkResults {
  results_success : bool;
  syncedRepos : nat;
  failedRepos : nat;
  skippedRepos : nat;
  details : list Outcome }.

(** What [startSync] returns: the early [{ success: false, message }] object
    or the [results] object. *)
Inductive SyncReturn : Type :=
| Refused (msg : string)
| Summary (r : Results).

(** ** Calls to the collaborators *)

(** One constructor per call, indexed by the type of the value the call
    resolves to.  [git_updateRemoteUrl] and [git_branch] are used by the
    later copy of the controller only.  [configureLogger] creates the
    directory of the log file and opens the file
    ([src/src/modules/logger.js], lines 55-93), so it can throw like the
    other calls; its argument, [config.logOptions], is not kept. *)
Inductive op : Type -> Type :=
| GitClient_new (repoDir tok : string) : op unit
| git_checkIsRepo : op bool
| git_clone (url : string) : op unit
| git_getRemotes : op (list Remote)
| git_addRemote (name url : string) : op unit
| git_updateRemoteUrl (name url : string) : op unit
| git_fetch (options : list string) : op unit
| git_checkout (branch : string) : op unit
| git_branch (options : list string) : op unit
| git_merge (options : list string) : op unit
| git_status : op StatusResult
| git_add (files : list string) : op unit
| git_commit (msg : string) : op unit
| git_push (options : list string) : op unit
| git_revList (options : list string) : op string
| git_revParse (options : list string) : op string
| git_reset (options : list string) : op unit
| git_getFileContent (rev filePath : string) : op string
| fs_existsSync (path : string) : op bool
| fs_mkdirSync (path : string) : op unit
| fs_readFile (path : string) : op string
| fs_writeFile (path content : string) : op unit
| OpenAI_new (apiKey : string) (baseurl : option string) : op unit
| generateText (prompt : string) (max_tokens : nat) : op string
| runTests (repoDir : string) : op bool
| sendSyncReport (results : Results) : op unit
| configureLogger : op unit.

Inductive level : Type := info | warn | err | debug.

(** What a run leaves behind, oldest first: the calls with their results,
    the log lines (message and, where the second argument is an error or an
    error text, that text), and the return of [resolveConflicts].  The
    logging functions ([logger.info] and the like) record and return; they
    do not throw. *)
Inductive event : Type :=
| Called {T : Type} (c : op T) (r : result T)
| Logged (lvl : level) (msg : string) (detail : option string)
| Resolved (files : list string) (r : ResolveResult).

Definition trace : Type := list event.

(** The collaborators: the answer to a call may depend on everything that
    happened before it. *)
Definition oracle : Type := forall T : Type, trace -> op T -> result T.

(** ** The monad of the embedding

    A computation reads the oracle, has the local variables [S] of the
    enclosing function, and extends the trace.  Local variables survive a
    throw, as they do in JavaScript, so a [catch] block reads what the [try]
    block assigned before it threw. *)
Definition M (L A : Type) : Type := oracle -> L -> trace -> result A * L * trace.

Definition ret {L A} (a : A) : M L A := fun _ s tr => (Ok a, s, tr).

Definition throw {L A} (e : Error) : M L A := fun _ s tr => (Threw e, s, tr).

Definition bind {L A B} (m : M L A) (k : A -> M L B) : M L B :=
  fun o s tr =>
    match m o s tr with
    | (Ok a, s', tr') => k a o s' tr'
    | (Threw e, s', tr') => (Threw e, s', tr')
    end.

Definition try_catch {L A} (body : M L A) (handler : Error -> M L A) : M L A :=
  fun o s tr =>
    match body o s tr with
    | (Ok a, s', tr') => (Ok a, s', tr')
    | (Threw e, s', tr') => handler e o s' tr'
    end.

Definition get {L} : M L L := fun _ s tr => (Ok s, s, tr).

Definition modify {L} (f : L -> L) : M L unit := fun _ s tr => (Ok tt, f s, tr).

Definition emit {L} (e : event) : M L unit := fun _ s tr => (Ok tt, s, (tr ++ [e])%list).

(** An awaited call to a collaborator. *)
Definition call {L T} (c : op T) : M L T :=
  fun o s tr =>
    match o T tr c with
    | Ok v => (Ok v, s, (tr ++ [Called c (Ok v)])%list)
    | Threw e => (Threw e, s, (tr ++ [Called c (Threw e)])%list)
    end.

(** A logger call; [detail] is the text of the error passed along, if any. *)
Definition log {L} (lvl : level) (msg : string) (detail : option string) : M L unit :=
  emit (Logged lvl msg detail).

(** A call of a function of the program: it runs in a frame of its own. *)
Definition invoke {L L' A} (locals : L') (body : M L' A) : M L A :=
  fun o s tr => let '(r, _, tr') := body o locals tr in (r, s, tr').

(** A run from an empty history. *)
Definition run {A} (m : M unit A) (o : oracle) : result A * trace :=
  let '(r, _, tr) := m o tt [] in (r, tr).

Notation "x <- c ;; k" := (bind c (fun x => k))
  (at level 61, c at next level, right associativity).
Notation "c ;; k" := (bind c (fun _ => k))
  (at level 61, right associativity).

(** The double-quote and line-feed characters, as one-character strings. *)
Definition dq : string := String (ascii_of_nat 34) EmptyString.
Definition nl : string := String (ascii_of_nat 10) EmptyString.

(** ** Reading a trace *)

Definition succeeded {T} (r : result T) : bool :=
  match r with Ok _ => true | Threw _ => false end.

(** The repository-changing Git calls of a run, in order, each with whether
    it returned ([true]) or threw ([false]).  [git.merge(['--abort'])] is
    the abort of a merge; every other [git.merge] is a merge. *)
Inductive mark : Type :=
| Merge (options : list string) (ok : bool)
| AbortMerge (ok : bool)
| Commit (msg : string) (ok : bool)
| Push (options : list string) (ok : bool)
| Reset (options : list string) (ok : bool).

Definition isAbort (options : list string) : bool :=
  match options with
  | [o] => String.eqb o "--abort"
  | _ => false
  end.

Definition markOf (e : event) : list mark :=
  match e with
  | Called c r =>
      match c with
      | git_merge options =>
          if isAbort options then [AbortMerge (succeeded r)]
          else [Merge options (succeeded r)]
      | git_commit msg => [Commit msg (succeeded r)]
      | git_push options => [Push options (succeeded r)]
      | git_reset options => [Reset options (succeeded r)]
      | _ => []
      end
  | _ => []
  end.

Definition marks (tr : trace) : list mark := flat_map markOf tr.

(** The rollback calls of a run: aborts of the merge and resets. *)
Definition isRollback (m : mark) : bool :=
  match m with
  | AbortMerge _ | Reset _ _ => true
  | _ => false
  end.

Definition rollback (tr : trace) : list mark := filter isRollback (marks tr).

(** The revisions that [git.revParse] resolved to. *)
Definition revParseOutput (e : event) : list string :=
  match e with
  | Called c r =>
      match c in op T return result T -> list string with
      | git_revParse _ => fun r => match r with Ok rev => [rev] | Threw _ => [] end
      | _ => fun _ => []
      end r
  | _ => []
  end.

Definition revParseOutputs (tr : trace) : list string := flat_map revParseOutput tr.

(** The texts that [git.revList] resolved to. *)
Definition revListOutput (e : event) : list string :=
  match e with
  | Called c r =>
      match c in op T return result T -> list string with
      | git_revList _ => fun r => match r with Ok txt => [txt] | Threw _ => [] end
      | _ => fun _ => []
      end r
  | _ => []
  end.

Definition revListOutputs (tr : trace) : list string := flat_map revListOutput tr.

(** The conflicted-file lists that [git.status] resolved to. *)
Definition statusOutput (e : event) : list (list string) :=
  match e with
  | Called c r =>
      match c in op T return result T -> list (list string) with
      | git_status => fun r => match r with Ok st => [conflicted st] | Threw _ => [] end
      | _ => fun _ => []
      end r
  | _ => []
  end.

Definition statusOutputs (tr : trace) : list (list string) := flat_map statusOutput tr.

(** Requests sent to the text-generation client. *)
Definition isGenerateText (e : event) : bool :=
  match e with
  | Called c _ => match c with generateText _ _ => true | _ => false end
  | _ => false
  end.

(** An event that only the conflict resolver produces: its return, or one of
    the calls that the controller itself never makes. *)
Definition isResolverEvent (e : event) : bool :=
  match e with
  | Resolved _ _ => true
  | Called c _ =>
      match c with
      | OpenAI_new _ _ | generateText _ _ | fs_readFile _ | fs_writeFile _ _
      | git_add _ | git_getFileContent _ _ => true
      | _ => false
      end
  | _ => false
  end.

(** A log line, or a call that the resolver makes while it works on the
    files; the commit that ends a successful resolution is not one of them. *)
Definition resolverStep (e : event) : bool :=
  match e with
  | Logged _ _ _ => true
  | Called c _ =>
      match c with
      | OpenAI_new _ _ | generateText _ _ | fs_readFile _ | fs_writeFile _ _
      | git_add _ | git_getFileContent _ _ => true
      | _ => false
      end
  | _ => false
  end.

(** Calls that change the configured remotes of the working copy. *)
Inductive remoteChange : Type :=
| Cloned (url : string)
| RemoteAdded (name url : string)
| RemoteUrlSet (name url : string).

Definition remoteChangeOf (e : event) : list remoteChange :=
  match e with
  | Called c _ =>
      match c with
      | git_clone url => [Cloned url]
      | git_addRemote name url => [RemoteAdded name url]
      | git_updateRemoteUrl name url => [RemoteUrlSet name url]
      | _ => []
      end
  | _ => []
  end.

Definition remoteChanges (tr : trace) : list remoteChange := flat_map remoteChangeOf tr.

(** The lines logged at error level. *)
Definition errorLog (e : event) : list string :=
  match e with
  | Logged err msg _ => [msg]
  | _ => []
  end.

Definition errorLogs (tr : trace) : list string := flat_map errorLog tr.


(** The returns of [resolveConflicts]: the files it was given and its result. *)
Definition resolution (e : event) : list (list string * ResolveResult) :=
  match e with
  | Resolved files r => [(files, r)]
  | _ => []
  end.

Definition resolutions (tr : trace) : list (list string * ResolveResult) :=
  flat_map resolution tr.

(** An event that none of the readings above reports and that the resolver
    does not produce. *)
Definition quiet (e : event) : bool :=
  match markOf e, revListOutput e, statusOutput e, resolution e with
  | [], [], [], [] => negb (isResolverEvent e)
  | _, _, _, _ => false
  end.

(** ** Regular expressions, as far as [validateConfig] needs them

    [RegExp.prototype.test] with a pattern anchored by [^] and [$] and no
    flags decides membership of the whole string in the language of the
    pattern; it is computed here with derivatives. *)
Inductive regex : Type :=
| Empty
| Eps
| Chr (c : ascii)
| NotChr (c : ascii)
| Seq (r1 r2 : regex)
| Alt (r1 r2 : regex)
| Star (r : regex).

(** [r+] *)
Definition Plus (r : regex) : regex := Seq r (Star r).

Fixpoint nullable (r : regex) : bool :=
  match r with
  | Empty => false
  | Eps => true
  | Chr _ => false
  | NotChr _ => false
  | Seq r1 r2 => nullable r1 && nullable r2
  | Alt r1 r2 => nullable r1 || nullable r2
  | Star _ => true
  end.

Fixpoint deriv (a : ascii) (r : regex) : regex :=
  match r with
  | Empty => Empty
  | Eps => Empty
  | Chr c => if Ascii.eqb a c then Eps else Empty
  | NotChr c => if Ascii.eqb a c then Empty else Eps
  | Seq r1 r2 =>
      if nullable r1 then Alt (Seq (deriv a r1) r2) (deriv a r2)
      else Seq (deriv a r1) r2
  | Alt r1 r2 => Alt (deriv a r1) (deriv a r2)
  | Star r1 => Seq (deriv a r1) (Star r1)
  end.

Fixpoint regexTest (r : regex) (s : string) : bool :=
  match s with
  | EmptyString => nullable r
  | String a s' => regexTest (deriv a r) s'
  end.

(** ** The repository entries of the configuration ([src/unnamed/part_003]) *)

(** [/^[^/]+\/[^/]+:[^:]+$/] *)
Definition repoBranchRegex : regex :=
  Seq (Plus (NotChr "/"))
    (Seq (Chr "/")
       (Seq (Plus (NotChr "/"))
          (Seq (Chr ":") (Plus (NotChr ":"))))).

(** The pattern of the other copy of [validateConfig]
    ([src/src/config.js]): [/^[^/]+\/[^/]+$/], for repositories written
    [owner/repo] without a branch. *)
Definition repoRegex : regex :=
  Seq (Plus (NotChr "/")) (Seq (Chr "/") (Plus (NotChr "/"))).

(** An element of [account.repos]; a field that is missing or is not a
    string is [None]. *)
Record RepoEntry : Type := mkEntry {
  upstream : option string;
  fork : option string }.

Section Validation.

(** [JSON.stringify], used in two error messages only. *)
Variable JSON_stringify : RepoEntry -> string.

(** The body of the loop over [account.repos] in [validateConfig]. *)
Definition validateRepoEntry (repoEntry : RepoEntry) : result unit :=
  if negb (JS.truthyOpt (upstream repoEntry)) then
    Threw (mkError ("Missing or invalid " ++ dq ++ "upstream" ++ dq
                    ++ " field in repository entry: " ++ JSON_stringify repoEntry
                    ++ ". Must be a string."))
  else if negb (JS.truthyOpt (fork repoEntry)) then
    Threw (mkError ("Missing or invalid " ++ dq ++ "fork" ++ dq
                    ++ " field in repository entry: " ++ JSON_stringify repoEntry
                    ++ ". Must be a string."))
  else if negb (regexTest repoBranchRegex (JS.show (upstream repoEntry))) then
    Threw (mkError ("Invalid " ++ dq ++ "upstream" ++ dq ++ " format: "
                    ++ JS.show (upstream repoEntry) ++ ". Must be "
                    ++ dq ++ "owner/repo:branch" ++ dq))
  else if negb (regexTest repoBranchRegex (JS.show (fork repoEntry))) then
    Threw (mkError ("Invalid " ++ dq ++ "fork" ++ dq ++ " format: "
                    ++ JS.show (fork repoEntry) ++ ". Must be "
                    ++ dq ++ "owner/repo:branch" ++ dq))
  else Ok tt.

(** The loop over [account.repos]. *)
Fixpoint validateRepos (repos : list RepoEntry) : result unit :=
  match repos with
  | [] => Ok tt
  | repoEntry :: rest =>
      match validateRepoEntry repoEntry with
      | Ok _ => validateRepos rest
      | Threw e => Threw e
      end
  end.

End Validation.

(** How [syncRepository] of the later controller copy splits an identifier:
    [const [repoFullName, branch] = repoBranchStr.split(':')]. *)
Definition parseRepoBranchString (repoBranchStr : string) : option string * option string :=
  let parts := JS.split ":" repoBranchStr in
  (nth_error parts 0, nth_error parts 1).

(** ** Sample collaborators for the worked examples

    A script fixes how the collaborators answer, whatever happened before;
    calls that the script does not mention return normally. *)
Record Script : Type := mkScript {
  sc_isRepo : bool;
  sc_remotes : list Remote;
  sc_revList : string;
  sc_merge : result unit;
  sc_status : list string;
  sc_generated : result string;
  sc_push : result unit;
  sc_abort : result unit;
  sc_reset : result unit }.

Definition scripted (sc : Script) : oracle :=
  fun T _ c =>
    match c in op T return result T with
    | GitClient_new _ _ => Ok tt
    | git_checkIsRepo => Ok (sc_isRepo sc)
    | git_clone _ => Ok tt
    | git_getRemotes => Ok (sc_remotes sc)
    | git_addRemote _ _ => Ok tt
    | git_updateRemoteUrl _ _ => Ok tt
    | git_fetch _ => Ok tt
    | git_checkout _ => Ok tt
    | git_branch _ => Ok tt
    | git_merge options => if isAbort options then sc_abort sc else sc_merge sc
    | git_status => Ok (mkStatus (sc_status sc))
    | git_add _ => Ok tt
    | git_commit _ => Ok tt
    | git_push _ => sc_push sc
    | git_revList _ => Ok (sc_revList sc)
    | git_revParse _ => Ok "4f2a9c1"
    | git_reset _ => sc_reset sc
    | git_getFileContent _ _ => Ok "let limit = 10;"
    | fs_existsSync _ => Ok true
    | fs_mkdirSync _ => Ok tt
    | fs_readFile _ => Ok "let limit = 10;"
    | fs_writeFile _ _ => Ok tt
    | OpenAI_new _ _ => Ok tt
    | generateText _ _ => sc_generated sc
    | runTests _ => Ok true
    | sendSyncReport _ => Ok tt
    | configureLogger => Ok tt
    end.

(** The same collaborators with a log directory that cannot be created. *)
Definition brokenLogger (sc : Script) : oracle :=
  fun T tr c =>
    match c in op T return result T -> result T with
    | configureLogger =>
        fun _ => Threw (mkError "EACCES: permission denied, mkdir '/var/log/sync'")
    | _ => fun r => r
    end (scripted sc T tr c).

Definition joinPath (a b : string) : string := a ++ "/" ++ b.

Definition sampleLlm : LlmConfig :=
  mkLlm (Some "openai") (Some "sk-test") (Some "gpt-4") None.

Definition sampleAccount : Account :=
  mkAccount "acme" "tok" ["user/fork"; "user/tools"] "dev" "main".

Definition sampleConfig : Config :=
  mkConfig false [sampleAccount] "repositories" false (Some sampleLlm) false false.

(** The same configuration with [logOptions] set. *)
Definition loggingConfig : Config :=
  mkConfig true [sampleAccount] "repositories" false (Some sampleLlm) false false.

(** A working copy that exists, with both remotes configured and the
    [upstream] remote pointing at an outdated URL. *)
Definition sampleRemotes : list Remote :=
  [mkRemote "origin" "https://old@github.com/user/fork.git";
   mkRemote "upstream" "https://github.com/elsewhere/fork.git"].

Definition conflictError : Error :=
  mkError "CONFLICTS: Merge conflict in src/app.js".

(** Upstream is ahead and everything succeeds; the variants below change
    one answer each. *)
Definition cleanRun : Script :=
  mkScript true sampleRemotes ("9d1e3b7" ++ nl) (Ok tt) [] (Ok "let limit = 20;")
    (Ok tt) (Ok tt) (Ok tt).

Definition upToDate : Script :=
  mkScript true sampleRemotes "" (Ok tt) [] (Ok "let limit = 20;") (Ok tt) (Ok tt) (Ok tt).

Definition pushRejected : Script :=
  mkScript true sampleRemotes ("9d1e3b7" ++ nl) (Ok tt) [] (Ok "let limit = 20;")
    (Threw (mkError "remote rejected")) (Ok tt) (Ok tt).

Definition conflictResolved : Script :=
  mkScript true sampleRemotes ("9d1e3b7" ++ nl) (Threw conflictError) ["src/app.js"]
    (Ok "let limit = 20;") (Ok tt) (Ok tt) (Ok tt).

Definition conflictResolvedPushRejected : Script :=
  mkScript true sampleRemotes ("9d1e3b7" ++ nl) (Threw conflictError) ["src/app.js"]
    (Ok "let limit = 20;") (Threw (mkError "remote rejected")) (Ok tt) (Ok tt).

Definition conflictUnresolved : Script :=
  mkScript true sampleRemotes ("9d1e3b7" ++ nl) (Threw conflictError) ["src/app.js"]
    (Threw (mkError "rate limited")) (Ok tt) (Ok tt) (Ok tt).

Definition conflictUnresolvedNoRollback : Script :=
  mkScript true sampleRemotes ("9d1e3b7" ++ nl) (Threw conflictError) ["src/app.js"]
    (Threw (mkError "rate limited")) (Ok tt)
    (Threw (mkError "not something we can merge")) (Threw (mkError "index.lock exists")).

Definition conflictWithoutFiles : Script :=
  mkScript true sampleRemotes ("9d1e3b7" ++ nl) (Threw conflictError) []
    (Ok "let limit = 20;") (Ok tt) (Ok tt) (Ok tt).

(** * The modules around the controller *)

(** ** JSON values

    What [JSON.parse] returns.  A number is an integer that JavaScript holds
    exactly, of magnitude below 2^53; [String] prints such a number in full,
    and it prints the larger ones, from 10^21 on, with an exponent, which
    [Json.toString] does not follow.  The fields of an object are listed in
    the order of [Object.entries]; a missing field, and a field of anything
    that is not an object, reads as [undefined], which is [None] here. *)
Set Warnings "-register-all".
Inductive json : Type :=
| JNull
| JBool (b : bool)
| JNum (n : Z)
| JStr (s : string)
| JArr (items : list json)
| JObj (fields : list (string * json)).

Module Json.

(** The characters of a string. *)
Definition chars (s : string) : list ascii := list_ascii_of_string s.

(** [String(n)] for an integer of magnitude below 10^21 *)
Definition ofZ (n : Z) : string :=
  if (n <? 0)%Z then "-" ++ JS.ofNat (Z.to_nat (- n)) else JS.ofNat (Z.to_nat n).

(** Truthiness of a value that may be [undefined]. *)
Definition truthy (v : option json) : bool :=
  match v with
  | None | Some JNull => false
  | Some (JBool b) => b
  | Some (JNum n) => negb (n =? 0)%Z
  | Some (JStr s) => JS.truthy s
  | Some (JArr _) | Some (JObj _) => true
  end.

Fixpoint assoc (key : string) (fields : list (string * json)) : option json :=
  match fields with
  | [] => None
  | (k, v) :: rest => if String.eqb k key then Some v else assoc key rest
  end.

(** [value.key] for a value that is neither [null] nor [undefined], and a
    key that no prototype defines. *)
Definition field (key : string) (value : json) : option json :=
  match value with
  | JObj fields => assoc key fields
  | _ => None
  end.

(** [value.key] behind a test that [value] is set. *)
Definition prop (key : string) (value : option json) : option json :=
  match value with
  | Some v => field key v
  | None => None
  end.

(** [object.key = v] *)
Fixpoint assign (key : string) (v : json) (fields : list (string * json))
  : list (string * json) :=
  match fields with
  | [] => [(key, v)]
  | (k, old) :: rest =>
      if String.eqb k key then (k, v) :: rest else (k, old) :: assign key v rest
  end.

(** [object.key = v] for an object *)
Definition set (key : string) (v : json) (value : json) : json :=
  match value with
  | JObj fields => JObj (assign key v fields)
  | other => other
  end.

Definition isArray (v : option json) : bool :=
  match v with
  | Some (JArr _) => true
  | _ => false
  end.

(** [String(value)], as a template literal and [RegExp.prototype.test]
    apply it; in [Array.prototype.join], [null] gives the empty string. *)
Fixpoint toString (value : json) : string :=
  match value with
  | JNull => "null"
  | JBool true => "true"
  | JBool false => "false"
  | JNum n => ofZ n
  | JStr s => s
  | JArr items =>
      JS.join "," (map (fun item => match item with
                                    | JNull => ""
                                    | _ => toString item
                                    end) items)
  | JObj _ => "[object Object]"
  end.

Definition show (v : option json) : string :=
  match v with
  | Some value => toString value
  | None => "undefined"
  end.

(** [items.join(sep)] *)
Definition join (sep : string) (items : list json) : string :=
  JS.join sep (map (fun item => match item with
                                | JNull => ""
                                | _ => toString item
                                end) items).

End Json.

(** ** Calls that leave the repository

    A [request] may throw; a [query] cannot.  The world answers both, and
    may take into account everything that happened before.  The queries are
    the calls that report a failure in their result or have none to report:
    [fs.existsSync], [setTimeout], the callback of [child_process.exec],
    [cron.validate] and [task.stop]. *)
Module Sys.

(** [openai.chat.completions.create]: the parameters, and the part of the
    answer that [generateText] reads. *)
Record ChatParams : Type := mkParams {
  chat_model : option string;
  chat_content : string;
  chat_max_tokens : nat;
  chat_temperature : Q }.

Record Message : Type := mkMessage { content : option string }.
Record Choice : Type := mkChoice { choice_message : option Message }.
Record Completion : Type := mkCompletion { choices : list Choice }.

(** [transporter.sendMail] *)
Record Attachment : Type := mkAttachment { filename : string; attachment_path : string }.

Record MailOptions : Type := mkMail {
  mail_from : option json;
  mail_to : string;
  mail_subject : string;
  mail_text : string;
  mail_html : string;
  mail_attachments : list Attachment }.

(** [nodemailer.createTransport] *)
Record TransportOptions : Type := mkTransport {
  transport_host : option json;
  transport_port : option json;
  transport_secure : bool;
  transport_user : option json;
  transport_pass : option json }.

(** What the callback of [child_process.exec] receives. *)
Record ExecResult : Type := mkExec {
  exec_error : option Error;
  exec_stdout : string;
  exec_stderr : string }.

(** The two jobs that [setupScheduler] hands to [cron.schedule], and the
    task objects that [cron.schedule] returns. *)
Inductive Job : Type := syncJob | reportJob.
Record Task : Type := mkTask { task_id : nat }.

(** The commands of [simple-git] whose value the Git client does not read
    ([clone], [addRemote], [fetch], [checkout], [merge], [add], [commit],
    [push], [reset]) resolve to some value, a [json] here. *)
Inductive request : Type -> Type :=
| readFileSync (path : string) : request string
| mkdirSync (path : string) : request unit
| JSON_parse (text : string) : request json
| yaml_parse (text : string) : request json
| OpenAI_new (baseurl : option string) (apiKey : string) : request unit
| chat_completions_create (params : ChatParams) : request Completion
| Octokit_new (auth : string) : request unit
| octokit_request (route owner repo : string) : request (option json)
| createTransport (options : TransportOptions) : request unit
| sendMail (mailOptions : MailOptions) : request (option string)
| getTodayLogs : request (list string)
| cron_schedule (expression : string) (job : Job) : request Task
| simpleGit (baseDir : option string) : request unit
| sg_checkIsRepo : request bool
| sg_clone (url dir : string) : request json
| sg_getRemotes : request (list Remote)
| sg_addRemote (name url : string) : request json
| sg_fetch (options : list string) : request json
| sg_checkout (what : list string) : request json
| sg_merge (options : list string) : request json
| sg_status : request StatusResult
| sg_add (files : list string) : request json
| sg_commit (msg : string) : request json
| sg_push (options : list string) : request json
| sg_raw (args : list string) : request string
| sg_revparse (options : list string) : request string
| sg_reset (options : list string) : request json
| sg_diff (options : list string) : request string
| sg_show (args : list string) : request string.

Inductive query : Type -> Type :=
| existsSync (path : string) : query bool
| setTimeout (ms : Z) : query unit
| exec (command cwd : string) : query ExecResult
| cron_validate (expression : string) : query bool
| task_stop (task : Task) : query unit.

Inductive event : Type :=
| Called {T : Type} (c : request T) (r : result T)
| Asked {T : Type} (q : query T) (a : T)
| Logged (lvl : level) (msg : string) (detail : option string).

Definition trace : Type := list event.

Record World : Type := mkWorld {
  answer : forall T : Type, trace -> request T -> result T;
  reply : forall T : Type, trace -> query T -> T }.

(** A computation reads the world, reads and writes the variables [St] of
    its module, and extends the trace.  The variables keep what was assigned
    before a throw. *)
Definition Prog (St A : Type) : Type := World -> St -> trace -> result A * St * trace.

Definition ret {St A} (a : A) : Prog St A := fun _ s tr => (Ok a, s, tr).

Definition throw {St A} (e : Error) : Prog St A := fun _ s tr => (Threw e, s, tr).

Definition bind {St A B} (m : Prog St A) (k : A -> Prog St B) : Prog St B :=
  fun w s tr =>
    match m w s tr with
    | (Ok a, s', tr') => k a w s' tr'
    | (Threw e, s', tr') => (Threw e, s', tr')
    end.

Definition try_catch {St A} (body : Prog St A) (handler : Error -> Prog St A) : Prog St A :=
  fun w s tr =>
    match body w s tr with
    | (Ok a, s', tr') => (Ok a, s', tr')
    | (Threw e, s', tr') => handler e w s' tr'
    end.

Definition get {St} : Prog St St := fun _ s tr => (Ok s, s, tr).

Definition put {St} (s : St) : Prog St unit := fun _ _ tr => (Ok tt, s, tr).

Definition call {St T} (c : request T) : Prog St T :=
  fun w s tr =>
    match answer w T tr c with
    | Ok v => (Ok v, s, (tr ++ [Called c (Ok v)])%list)
    | Threw e => (Threw e, s, (tr ++ [Called c (Threw e)])%list)
    end.

Definition ask {St T} (q : query T) : Prog St T :=
  fun w s tr => (Ok (reply w T tr q), s, (tr ++ [Asked q (reply w T tr q)])%list).

Definition log {St} (lvl : level) (msg : string) (detail : option string) : Prog St unit :=
  fun _ s tr => (Ok tt, s, (tr ++ [Logged lvl msg detail])%list).

(** A run from an empty history. *)
Definition run {St A} (m : Prog St A) (w : World) (s : St) : result A * St * trace :=
  m w s [].

Declare Scope sys_scope.
Delimit Scope sys_scope with sys.
Notation "x <- c ;; k" := (bind c (fun x => k))
  (at level 61, c at next level, right associativity) : sys_scope.
Notation "c ;; k" := (bind c (fun _ => k))
  (at level 61, right associativity) : sys_scope.

(** The requests of a trace, and the ones that the world answered without
    a throw. *)
Definition isCalled (e : event) : bool :=
  match e with Called _ _ => true | _ => false end.

Definition isAsked (e : event) : bool :=
  match e with Asked _ _ => true | _ => false end.

(** A value or a throw computed without the world. *)
Definition lift {St A} (r : result A) : Prog St A :=
  match r with
  | Ok a => ret a
  | Threw e => throw e
  end.

End Sys.

(** ** Helper utilities ([src/src/utils/helpers.js]) *)

(** The character class [[a-zA-Z0-9_-]]. *)
Definition isFileNameChar (c : ascii) : bool :=
  let n := nat_of_ascii c in
  (Nat.leb 97 n && Nat.leb n 122) || (Nat.leb 65 n && Nat.leb n 90)
  || (Nat.leb 48 n && Nat.leb n 57) || Nat.eqb n 95 || Nat.eqb n 45.

(** [s.replace(/[^a-zA-Z0-9_-]/g, '_')] *)
Fixpoint replaceUnsafe (s : string) : string :=
  match s with
  | EmptyString => EmptyString
  | String c s' => String (if isFileNameChar c then c else "_"%char) (replaceUnsafe s')
  end.

Definition sanitizeForFileSystem (inputString : string) : string :=
  if negb (JS.truthy inputString) then "" else replaceUnsafe inputString.

(** [typeof str === 'string' && str.trim().length > 0] *)
Definition isNonEmptyString (str : json) : bool :=
  match str with
  | JStr s => Nat.ltb 0 (String.length (JS.trim s))
  | _ => false
  end.


(** ** The text-generation client with its module variables
      ([src/src/utils/llm-client.js]) *)
Module LlmClient.
Import Sys.
#[local] Open Scope sys_scope.

(** The argument of [initializeLLMClient]: [config.llm], whose [maxRetries]
    the controller never reads. *)
Record ClientConfig : Type := mkClientConfig {
  fields : LlmConfig;
  maxRetries : option Z }.

(** [{ maxRetries: 3, ...config }] *)
Record Settings : Type := mkSettings {
  settings_model : option string;
  settings_maxRetries : Z }.

(** The client object that [new OpenAI] returned. *)
Record Client : Type := mkClient {
  client_baseurl : option string;
  client_apiKey : string }.

(** [let openai; let llmConfig;] *)
Record Module : Type := mkModule {
  openai : option Client;
  llmConfig : option Settings }.

Definition fresh : Module := mkModule None None.

(** The [options] argument of [generateText]. *)
Record Options : Type := mkOptions {
  max_tokens : option nat;
  temperature : option Q }.

Definition missing : Error :=
  mkError "LLM client configuration is missing or incomplete. apiKey, provider, and model are required.".

Definition initializeLLMClient (config : option ClientConfig) : Prog Module unit :=
  match config with
  | Some c =>
      if JS.truthyOpt (llm_apiKey (fields c)) && JS.truthyOpt (llm_provider (fields c))
         && JS.truthyOpt (llm_model (fields c))
      then
        st <- get ;;
        put (mkModule (openai st)
               (Some (mkSettings (llm_model (fields c))
                        (match maxRetries c with Some n => n | None => 3%Z end)))) ;;
        if String.eqb (JS.toLowerCase (JS.show (llm_provider (fields c)))) "openai" then
          call (OpenAI_new (llm_url (fields c)) (JS.show (llm_apiKey (fields c)))) ;;
          st <- get ;;
          put (mkModule (Some (mkClient (llm_url (fields c)) (JS.show (llm_apiKey (fields c)))))
                 (llmConfig st)) ;;
          log info ("OpenAI client initialized with model: " ++ JS.show (llm_model (fields c))) None
        else
          log err ("Unsupported LLM provider: " ++ JS.show (llm_provider (fields c))) None ;;
          throw (mkError ("Unsupported LLM provider: " ++ JS.show (llm_provider (fields c))
                          ++ ". Currently, only 'openai' is supported."))
      else
        log err "LLM client configuration is missing or incomplete." None ;; throw missing
  | None =>
      log err "LLM client configuration is missing or incomplete." None ;; throw missing
  end.

(** [llmConfig.maxRetries || 3] *)
Definition limit (cfg : Settings) : Z :=
  if (settings_maxRetries cfg =? 0)%Z then 3%Z else settings_maxRetries cfg.

(** [completion.choices[0]?.message?.content?.trim()] *)
Definition textResponse (completion : Completion) : option string :=
  match choices completion with
  | [] => None
  | choice :: _ =>
      match choice_message choice with
      | None => None
      | Some m =>
          match content m with
          | None => None
          | Some s => Some (JS.trim s)
          end
      end
  end.

(** The [while (retries <= limit)] loop.  [remaining] is the number of
    values of [retries] that still satisfy the loop condition,
    [limit + 1 - retries] or zero, so the loop ends, and the function
    returns [undefined], where [remaining] is zero. *)
Fixpoint attempts (cfg : Settings) (params : ChatParams) (remaining : nat) (retries : Z)
  : Prog Module (option string) :=
  match remaining with
  | O => ret None
  | S remaining' =>
      try_catch
        (completion <- call (chat_completions_create params) ;;
         if negb (JS.truthyOpt (textResponse completion)) then
           log warn "LLM returned an empty response." None ;;
           throw (mkError "LLM returned an empty or invalid response.")
         else
           log info "LLM generated text successfully." None ;;
           log debug "LLM Response:" None ;;
           ret (textResponse completion))
        (fun error =>
           log err ("LLM API call failed (attempt " ++ Json.ofZ (retries + 1) ++ "/"
                    ++ Json.ofZ (limit cfg + 1) ++ "):") (Some (message error)) ;;
           let retries := (retries + 1)%Z in
           if (limit cfg <? retries)%Z then
             throw (mkError ("Failed to generate text after " ++ Json.ofZ (limit cfg)
                             ++ " retries: " ++ message error))
           else
             ask (setTimeout (1000 * retries)) ;;
             attempts cfg params remaining' retries)
  end.

Section LlmClientHost.

(** The [TypeError] of the engine for reading a property of [undefined]. *)
Variable typeError : string -> Error.

Definition generateText (prompt : string) (options : Options) : Prog Module (option string) :=
  st <- get ;;
  match openai st with
  | None =>
      log err "LLM client not initialized. Call initializeLLMClient first." None ;;
      throw (mkError "LLM client not initialized.")
  | Some _ =>
      match llmConfig st with
      | None => throw (typeError "llmConfig.model")
      | Some cfg =>
          let params :=
            mkParams (settings_model cfg) prompt
              (match max_tokens options with Some n => n | None => 2048 end)
              (match temperature options with Some t => t | None => 7 # 10 end) in
          log debug "Sending request to LLM with params:" None ;;
          attempts cfg params (Z.to_nat (limit cfg + 1)) 0
      end
  end.

End LlmClientHost.

(** Whether [generateText] can use an answer, and the message of the error
    that its [catch] block sees for one that it cannot use. *)
Definition usable (r : result Completion) : bool :=
  match r with
  | Ok completion => JS.truthyOpt (textResponse completion)
  | Threw _ => false
  end.

Definition failureText (r : result Completion) : string :=
  match r with
  | Ok _ => "LLM returned an empty or invalid response."
  | Threw e => message e
  end.

(** [count] pauses of [1000 * first], [1000 * (first + 1)], ... milliseconds. *)
Fixpoint backoff (first : Z) (count : nat) : list Z :=
  match count with
  | O => []
  | S count' => (1000 * first)%Z :: backoff (first + 1) count'
  end.

(** The chat requests of a trace with their answers, and the pauses. *)
Definition chatRequest (e : event) : list (result Completion) :=
  match e with
  | @Called T c r =>
      match c in request T return result T -> list (result Completion) with
      | chat_completions_create _ => fun r => [r]
      | _ => fun _ => []
      end r
  | _ => []
  end.

Definition chatRequests (tr : trace) : list (result Completion) := flat_map chatRequest tr.

Definition pause (e : event) : list Z :=
  match e with
  | @Asked T q _ =>
      match q with
      | setTimeout ms => [ms]
      | _ => []
      end
  | _ => []
  end.

Definition pauses (tr : trace) : list Z := flat_map pause tr.

End LlmClient.

(** ** The GitHub API client ([src/src/utils/github-api.js]) *)
Module GitHubApi.
Import Sys.
#[local] Open Scope sys_scope.

(** The client object that [new Octokit] returned. *)
Record Octokit : Type := mkOctokit { auth : string }.

(** [let octokitInstance;] *)
Definition Module : Type := option Octokit.

Definition initializeGitHubClient (authToken : option string) : Prog Module unit :=
  if negb (JS.truthyOpt authToken) then
    log warn "GitHub auth token not provided. GitHub API client will not be initialized." None ;;
    put None
  else
    call (Octokit_new (JS.show authToken)) ;;
    put (Some (mkOctokit (JS.show authToken))) ;;
    log info "Octokit client initialized for GitHub API interactions." None.

Definition getOctokit : Prog Module Octokit :=
  octokitInstance <- get ;;
  match octokitInstance with
  | None =>
      throw (mkError "Octokit client has not been initialized. Call initializeGitHubClient(token) first.")
  | Some octokit => ret octokit
  end.

(** The result is [response.data], or [None] for [null]. *)
Definition getRepoDetails (owner repo : string) : Prog Module (option json) :=
  octokitInstance <- get ;;
  match octokitInstance with
  | None =>
      log err "Cannot get repo details: Octokit client not initialized." None ;;
      ret None
  | Some _ =>
      try_catch
        (log info ("Workspaceing details for repository: " ++ owner ++ "/" ++ repo) None ;;
         data <- call (octokit_request "GET /repos/{owner}/{repo}" owner repo) ;;
         ret data)
        (fun error =>
           log err ("Error fetching repository details for " ++ owner ++ "/" ++ repo ++ ":")
             (Some (message error)) ;;
           ret None)
  end.

End GitHubApi.

(** ** The test runner ([src/src/modules/tester.js]) *)
Module Tester.
Import Sys.
#[local] Open Scope sys_scope.

Section TesterHost.

Variable path_join : string -> string -> string.

(** The [TypeError] of the engine for reading a property of [null]. *)
Variable typeError : string -> Error.

(** [resolve(b)] followed by [return] gives [Ok b]; a throw in the executor
    of the promise rejects it. *)
Definition runTests (repoDir : string) : Prog unit bool :=
  log info ("Attempting to run tests in " ++ repoDir) None ;;
  let packageJsonPath := path_join repoDir "package.json" in
  present <- ask (existsSync packageJsonPath) ;;
  if negb present then
    log info ("No package.json found in " ++ repoDir ++ ". Skipping tests.") None ;;
    ret true
  else
    parsed <- try_catch
                (text <- call (readFileSync packageJsonPath) ;;
                 packageJson <- call (JSON_parse text) ;;
                 ret (Some packageJson))
                (fun error =>
                   log err ("Failed to parse package.json in " ++ repoDir ++ ":")
                     (Some (message error)) ;;
                   ret None) ;;
    match parsed with
    | None => ret false
    | Some JNull => throw (typeError "packageJson.scripts")
    | Some packageJson =>
        if negb (Json.truthy (Json.field "scripts" packageJson))
           || negb (Json.truthy (match Json.field "scripts" packageJson with
                               | Some scripts => Json.field "test" scripts
                               | None => None
                               end))
        then
          log info ("No 'test' script found in package.json in " ++ repoDir
                    ++ ". Skipping tests.") None ;;
          ret true
        else
          log info ("Executing 'npm test' in " ++ repoDir) None ;;
          outcome <- ask (exec "npm install && npm test" repoDir) ;;
          match exec_error outcome with
          | Some failure =>
              log err ("Tests failed in " ++ repoDir ++ ":") (Some (message failure)) ;;
              ret false
          | None =>
              log info ("Tests passed successfully in " ++ repoDir ++ ".") None ;;
              log debug "Test Output:" None ;;
              ret true
          end
    end.

End TesterHost.

(** What [npm] reported, for each time a run started it. *)
Definition execResult (e : event) : list ExecResult :=
  match e with
  | @Asked T q a =>
      match q in query T return T -> list ExecResult with
      | exec _ _ => fun a => [a]
      | _ => fun _ => []
      end a
  | _ => []
  end.

Definition execResults (tr : trace) : list ExecResult := flat_map execResult tr.

(** The test script that a parsed [package.json] names. *)
Definition testScript (packageJson : json) : option json :=
  match Json.field "scripts" packageJson with
  | Some scripts => if Json.truthy (Some scripts) then Json.field "test" scripts else None
  | None => None
  end.

End Tester.

(** ** The Git client ([src/src/modules/git.js]) *)
Module GitClient.
Import Sys.
#[local] Open Scope sys_scope.

Section GitClientHost.

Variable path_dirname : string -> string.

(** [this.repoDir] *)
Variable repoDir : string.

(** The constructor. *)
Definition new : Prog unit unit := call (simpleGit (Some repoDir)).

Definition checkIsRepo : Prog unit bool :=
  try_catch
    (present <- ask (existsSync repoDir) ;;
     if negb present then ret false else call sg_checkIsRepo)
    (fun error =>
       log err "Error checking if directory is a Git repository:" (Some (message error)) ;;
       ret false).

Definition clone (url : string) : Prog unit unit :=
  try_catch
    (let parentDir := path_dirname repoDir in
     present <- ask (existsSync parentDir) ;;
     (if negb present then call (mkdirSync parentDir) else ret tt) ;;
     log info ("Cloning repository to " ++ repoDir) None ;;
     call (simpleGit None) ;;
     call (sg_clone url repoDir) ;;
     call (simpleGit (Some repoDir)) ;;
     log info "Repository cloned successfully" None)
    (fun error =>
       log err "Error cloning repository:" (Some (message error)) ;;
       throw error).

Definition getRemotes : Prog unit (list Remote) :=
  try_catch (call sg_getRemotes)
    (fun error => log err "Error getting remotes:" (Some (message error)) ;; throw error).

Definition addRemote (name url : string) : Prog unit unit :=
  try_catch
    (call (sg_addRemote name url) ;;
     log info ("Added remote " ++ name ++ " -> " ++ url) None)
    (fun error => log err ("Error adding remote " ++ name ++ ":") (Some (message error)) ;;
                  throw error).

Definition fetch (options : list string) : Prog unit unit :=
  try_catch
    (call (sg_fetch options) ;; log info "Fetch completed" None)
    (fun error => log err "Error fetching from remote:" (Some (message error)) ;; throw error).

Definition checkout (branch : string) : Prog unit unit :=
  try_catch
    (call (sg_checkout [branch]) ;;
     log info ("Checked out branch: " ++ branch) None)
    (fun error =>
       if JS.includes (message error) "did not match any file(s) known to git" then
         log info ("Branch " ++ branch ++ " does not exist, creating it") None ;;
         try_catch
           (call (sg_checkout ["-b"; branch]) ;;
            log info ("Created and checked out branch: " ++ branch) None)
           (fun createError =>
              log err ("Error creating branch " ++ branch ++ ":") (Some (message createError)) ;;
              throw createError)
       else
         log err ("Error checking out branch " ++ branch ++ ":") (Some (message error)) ;;
         throw error).

Definition merge (options : list string) : Prog unit unit :=
  try_catch
    (call (sg_merge options) ;;
     log info ("Merge completed: " ++ JS.join " " options) None)
    (fun error => log err "Error merging:" (Some (message error)) ;; throw error).

Definition status : Prog unit StatusResult :=
  try_catch (call sg_status)
    (fun error => log err "Error getting status:" (Some (message error)) ;; throw error).

Definition add (files : list string) : Prog unit unit :=
  try_catch
    (call (sg_add files) ;;
     log info ("Added files: " ++ JS.join ", " files) None)
    (fun error => log err "Error adding files:" (Some (message error)) ;; throw error).

Definition commit (msg : string) : Prog unit unit :=
  try_catch
    (call (sg_commit msg) ;;
     log info ("Committed changes: " ++ msg) None)
    (fun error => log err "Error committing changes:" (Some (message error)) ;; throw error).

Definition push (options : list string) : Prog unit unit :=
  try_catch
    (call (sg_push options) ;;
     log info ("Pushed changes: " ++ JS.join " " options) None)
    (fun error => log err "Error pushing changes:" (Some (message error)) ;; throw error).

Definition revList (options : list string) : Prog unit string :=
  try_catch (call (sg_raw ("rev-list" :: options)))
    (fun error => log err "Error getting rev-list:" (Some (message error)) ;; throw error).

Definition revParse (options : list string) : Prog unit string :=
  try_catch (call (sg_revparse options))
    (fun error => log err "Error parsing revision:" (Some (message error)) ;; throw error).

Definition reset (options : list string) : Prog unit unit :=
  try_catch
    (call (sg_reset options) ;;
     log info ("Reset completed: " ++ JS.join " " options) None)
    (fun error => log err "Error resetting:" (Some (message error)) ;; throw error).

Definition diff (options : list string) : Prog unit string :=
  try_catch (call (sg_diff options))
    (fun error => log err "Error getting diff:" (Some (message error)) ;; throw error).

Definition getFileContent (rev filePath : string) : Prog unit string :=
  try_catch (call (sg_show [rev ++ ":" ++ filePath]))
    (fun error =>
       log err ("Error getting file content at " ++ rev ++ ":" ++ filePath ++ ":")
         (Some (message error)) ;;
       throw error).

(** The methods that hand one command to [simple-git], each with that
    command and with what it returns for the value of the command: the value
    itself, or [undefined] whatever the value. *)
Inductive Wraps : forall T U : Type, Prog unit U -> request T -> (T -> U) -> Prop :=
| wraps_getRemotes : Wraps _ _ getRemotes sg_getRemotes (fun remotes => remotes)
| wraps_addRemote name url :
    Wraps _ _ (addRemote name url) (sg_addRemote name url) (fun _ => tt)
| wraps_fetch options : Wraps _ _ (fetch options) (sg_fetch options) (fun _ => tt)
| wraps_merge options : Wraps _ _ (merge options) (sg_merge options) (fun _ => tt)
| wraps_status : Wraps _ _ status sg_status (fun result => result)
| wraps_add files : Wraps _ _ (add files) (sg_add files) (fun _ => tt)
| wraps_commit msg : Wraps _ _ (commit msg) (sg_commit msg) (fun _ => tt)
| wraps_push options : Wraps _ _ (push options) (sg_push options) (fun _ => tt)
| wraps_revList options :
    Wraps _ _ (revList options) (sg_raw ("rev-list" :: options)) (fun output => output)
| wraps_revParse options :
    Wraps _ _ (revParse options) (sg_revparse options) (fun output => output)
| wraps_reset options : Wraps _ _ (reset options) (sg_reset options) (fun _ => tt)
| wraps_diff options : Wraps _ _ (diff options) (sg_diff options) (fun output => output)
| wraps_getFileContent rev filePath :
    Wraps _ _ (getFileContent rev filePath) (sg_show [rev ++ ":" ++ filePath])
      (fun output => output).

End GitClientHost.

(** The commands of a trace, oldest first. *)
Definition commands (tr : trace) : list event := filter isCalled tr.

(** The error lines of a trace: for each one, the text of the error that it
    reports. *)
Definition failure (e : event) : list (option string) :=
  match e with
  | Logged err _ detail => [detail]
  | _ => []
  end.

Definition failures (tr : trace) : list (option string) := flat_map failure tr.

End GitClient.

(** ** The mailer ([src/unnamed/part_004], second module) *)
Module Mailer.
Import Sys.
#[local] Open Scope sys_scope.

(** [let mailConfig; let transporter;]: the transporter is known by the
    options it was created with. *)
Record Module : Type := mkModule {
  mailConfig : option json;
  transporter : option TransportOptions }.

(** The fields of the application configuration that the mailer reads:
    [email], the truth values of [sendMailOnFailure] and [sendDailyReport],
    and [logOptions.outputFile] where [logOptions] is set. *)
Record AppConfig : Type := mkApp {
  app_email : option json;
  app_sendMailOnFailure : bool;
  app_sendDailyReport : bool;
  app_outputFile : option string }.

(** [port === 465] *)
Definition is465 (port : option json) : bool :=
  match port with
  | Some (JNum n) => (n =? 465)%Z
  | _ => false
  end.

(** [config] has the four fields that [initializeMailer] asks for. *)
Definition complete (config : option json) : bool :=
  Json.truthy config && Json.truthy (Json.prop "smtpHost" config)
  && Json.truthy (Json.prop "smtpPort" config) && Json.truthy (Json.prop "from" config)
  && Json.truthy (Json.prop "to" config).

Definition initializeMailer (config : option json) : Prog Module unit :=
  if negb (Json.truthy config) || negb (Json.truthy (Json.prop "smtpHost" config))
     || negb (Json.truthy (Json.prop "smtpPort" config)) || negb (Json.truthy (Json.prop "from" config))
     || negb (Json.truthy (Json.prop "to" config))
  then
    log warn "Email configuration is missing or incomplete. Email notifications will be disabled." None ;;
    put (mkModule None None)
  else
    st <- get ;;
    put (mkModule config (transporter st)) ;;
    try_catch
      (let options :=
         mkTransport (Json.prop "smtpHost" config) (Json.prop "smtpPort" config)
           (is465 (Json.prop "smtpPort" config)) (Json.prop "user" config) (Json.prop "pass" config) in
       call (createTransport options) ;;
       st <- get ;;
       put (mkModule (mailConfig st) (Some options)) ;;
       log info "Mailer initialized successfully." None)
      (fun error =>
         log err "Failed to initialize mailer transport:" (Some (message error)) ;;
         st <- get ;;
         put (mkModule (mailConfig st) None)).

Section MailerHost.

Variable cwd : string.
Variable path_resolve : string -> string -> string.
Variable path_basename : string -> string.

(** The [TypeError] of the engine for calling something that is not a
    function. *)
Variable typeError : string -> Error.

(** [mailConfig.to.length === 0]: the length of a list or of a string, and
    the field [length] of any other object. *)
Definition noRecipients (to : option json) : bool :=
  match to with
  | Some (JArr items) => Nat.eqb (length items) 0
  | Some (JStr s) => Nat.eqb (String.length s) 0
  | Some (JObj fields) =>
      match Json.assoc "length" fields with
      | Some (JNum n) => (n =? 0)%Z
      | _ => false
      end
  | _ => false
  end.

Definition sendEmail (subject textBody : string) (htmlBody : option string)
    (attachments : list Attachment) : Prog Module bool :=
  st <- get ;;
  match transporter st with
  | None =>
      log warn "Mailer not initialized or initialization failed. Cannot send email." None ;;
      ret false
  | Some _ =>
      if negb (Json.truthy (mailConfig st)) || negb (Json.truthy (Json.prop "to" (mailConfig st)))
         || noRecipients (Json.prop "to" (mailConfig st))
      then
        log warn "No recipients configured for email. Cannot send email." None ;;
        ret false
      else
        match Json.prop "to" (mailConfig st) with
        | Some (JArr recipients) =>
            let mailOptions :=
              mkMail (Json.prop "from" (mailConfig st)) (Json.join ", " recipients) subject textBody
                (if JS.truthyOpt htmlBody then JS.show htmlBody else textBody) attachments in
            try_catch
              (log info ("Sending email with subject: " ++ dq ++ subject ++ dq ++ " to: "
                         ++ mail_to mailOptions) None ;;
               call (sendMail mailOptions) ;;
               log info "Email sent successfully." None ;;
               ret true)
              (fun error =>
                 log err "Error sending email:" (Some (message error)) ;;
                 ret false)
        | _ => throw (typeError "mailConfig.to.join")
        end
  end.

Definition statusText (s : Status) : string :=
  match s with
  | synced => "synced"
  | skipped => "skipped"
  | error => "error"
  end.

Definition testsStatusText (t : TestsStatus) : string :=
  match t with
  | passed => "passed"
  | failed => "failed"
  | tests_error => "error"
  end.

(** What the callback of [syncResults.details.forEach] appends. *)
Definition detailText (detail : Outcome) : string :=
  "------------------------------------" ++ nl
  ++ "Account: " ++ account detail ++ nl
  ++ "Repository: " ++ repository detail ++ nl
  ++ "Status: " ++ statusText (status detail) ++ nl
  ++ (if JS.truthyOpt (outcome_message detail)
      then "Message: " ++ JS.show (outcome_message detail) ++ nl else "")
  ++ (if JS.truthyOpt (outcome_error detail)
      then "Error: " ++ JS.show (outcome_error detail) ++ nl else "")
  ++ (match hadConflicts detail with Some true => "Conflicts Encountered: Yes" ++ nl | _ => "" end)
  ++ (match usedLLM detail with Some true => "LLM Used for Resolution: Yes" ++ nl | _ => "" end)
  ++ (match testsStatus detail with
      | Some t => "Tests Status: " ++ testsStatusText t ++ nl
      | None => ""
      end).

Definition reportSubject (syncResults : Results) : string :=
  "Fork Sync Report: "
  ++ (if results_success syncResults then "Success" else "Some Operations Failed").

Definition reportText (syncResults : Results) : string :=
  "Fork Synchronization Report:" ++ nl ++ nl
  ++ "Overall Status: "
  ++ (if results_success syncResults then "All operations successful"
      else "One or more operations failed") ++ nl
  ++ "Synced Repositories: " ++ JS.ofNat (syncedRepos syncResults) ++ nl
  ++ "Failed Repositories: " ++ JS.ofNat (failedRepos syncResults) ++ nl
  ++ "Skipped Repositories (already up-to-date): " ++ JS.ofNat (skippedRepos syncResults)
  ++ nl ++ nl
  ++ "Details:" ++ nl
  ++ String.concat "" (map detailText (details syncResults)).

Definition sendSyncReport (appConfig : AppConfig) (syncResults : Results) : Prog Module unit :=
  if negb (Json.truthy (app_email appConfig)) then
    log info "Email configuration not provided. Skipping sync report." None
  else
    initializeMailer (app_email appConfig) ;;
    st <- get ;;
    match transporter st, app_sendMailOnFailure appConfig, failedRepos syncResults with
    | None, false, _ =>
        log info "Mailer not available and not configured to send mail on failure. Skipping report." None
    | None, true, O =>
        log info "Mailer not available, but configured for failure mail. No failures to report." None
    | _, _, _ =>
        let subject := reportSubject syncResults in
        let textBody := reportText syncResults in
        attachments <-
          (if JS.truthyOpt (app_outputFile appConfig) then
             try_catch
               (let logFile := path_resolve cwd (JS.show (app_outputFile appConfig)) in
                present <- ask (existsSync logFile) ;;
                if present then
                  log info ("Attaching log file: " ++ logFile ++ " to the report.") None ;;
                  ret [mkAttachment (path_basename logFile) logFile]
                else
                  log warn ("Log file " ++ logFile ++ " not found for attachment.") None ;;
                  ret [])
               (fun e =>
                  log err ("Error accessing log file for attachment: "
                           ++ JS.show (app_outputFile appConfig)) (Some (message e)) ;;
                  ret [])
           else ret []) ;;
        let shouldSend :=
          (Nat.ltb 0 (failedRepos syncResults) && app_sendMailOnFailure appConfig)
          || (Nat.ltb 0 (syncedRepos syncResults) || Nat.ltb 0 (failedRepos syncResults)) in
        if shouldSend then
          sendEmail subject textBody None attachments ;; ret tt
        else
          log info "No conditions met to send sync report email (e.g., no failures, no activity, or mailer not configured)." None
    end.

Definition sendDailyReport (appConfig : AppConfig) : Prog Module unit :=
  if negb (Json.truthy (app_email appConfig)) || negb (app_sendDailyReport appConfig) then
    log info "Email configuration or daily report sending not enabled. Skipping daily report." None
  else
    initializeMailer (app_email appConfig) ;;
    st <- get ;;
    match transporter st with
    | None => log warn "Mailer not initialized. Cannot send daily report." None
    | Some _ =>
        let subject := "Fork Sync Daily Summary Report" in
        let textBody := "Daily Summary Report for Fork Sync Tool" ++ nl ++ nl in
        textBody <-
          try_catch
            (todaysLogs <- call getTodayLogs ;;
             if Nat.eqb (length todaysLogs) 0 then
               ret (textBody ++ "No activity recorded today." ++ nl)
             else
               ret (textBody ++ "Today's activity log summary:" ++ nl ++ nl
                    ++ JS.join nl todaysLogs))
            (fun error =>
               log err "Failed to retrieve logs for daily report:" (Some (message error)) ;;
               ret (textBody ++ "Could not retrieve logs for today." ++ nl)) ;;
        attachments <-
          (if JS.truthyOpt (app_outputFile appConfig) then
             try_catch
               (let logFile := path_resolve cwd (JS.show (app_outputFile appConfig)) in
                present <- ask (existsSync logFile) ;;
                if present then ret [mkAttachment (path_basename logFile) logFile]
                else ret [])
               (fun e =>
                  log err ("Error accessing log file for daily report attachment: "
                           ++ JS.show (app_outputFile appConfig)) (Some (message e)) ;;
                  ret [])
           else ret []) ;;
        sendEmail subject textBody None attachments ;; ret tt
    end.

End MailerHost.

(** The mails handed to the transporter, oldest first, with the answers. *)
Definition mail (e : event) : list (MailOptions * bool) :=
  match e with
  | @Called T c r =>
      match c with
      | sendMail mailOptions => [(mailOptions, succeeded r)]
      | _ => []
      end
  | _ => []
  end.

Definition mails (tr : trace) : list (MailOptions * bool) := flat_map mail tr.

End Mailer.

(** ** The configuration module ([src/src/config.js], and its other copy
      [src/unnamed/part_003]) *)
Module ConfigFile.
Import Sys.
#[local] Open Scope sys_scope.

(** Line terminators below code 256. *)
Definition isLineTerminator (c : ascii) : bool :=
  let n := nat_of_ascii c in Nat.eqb n 10 || Nat.eqb n 13.

(** [content.replace(/\/\/.*$/gm, '')]: outside a comment, two slashes open
    one; a comment runs up to the next line terminator, which is kept. *)
Fixpoint stripComments_from (inComment : bool) (content : string) : string :=
  match content with
  | EmptyString => EmptyString
  | String c rest =>
      if inComment then
        if isLineTerminator c then String c (stripComments_from false rest)
        else stripComments_from true rest
      else if JS.startsWith content "//" then stripComments_from true rest
      else String c (stripComments_from false rest)
  end.

Definition stripComments (content : string) : string := stripComments_from false content.

Section ConfigFileHost.

(** [process.env] *)
Variable env : string -> option string.

Variable path_extname : string -> string.

(** [JSON.stringify], used in two error messages only. *)
Variable JSON_stringify : json -> string.

(** The [TypeError] of the engine for a property of [null], and for an
    assignment to a property of a primitive value in strict mode. *)
Variable typeError : string -> Error.

(** [process.env[varName] || ''] *)
Definition envValue (varName : string) : string :=
  match env varName with
  | Some v => if JS.truthy v then v else ""
  | None => ""
  end.

(** [value.replace(/\${([^}]+)}/g, (_, varName) => process.env[varName] || '')].
    [name] is [None] outside a placeholder and holds the characters read
    since [${] inside one.  A placeholder that is never closed, and [${}],
    are no matches and stay as they are. *)
Fixpoint replaceVars (name : option string) (value : string) : string :=
  match value with
  | EmptyString =>
      match name with
      | None => EmptyString
      | Some varName => "${" ++ varName
      end
  | String c rest =>
      match name with
      | Some varName =>
          if Ascii.eqb c "}" then
            if String.eqb varName "" then "${}" ++ replaceVars None rest
            else envValue varName ++ replaceVars None rest
          else replaceVars (Some (varName ++ String c "")) rest
      | None =>
          match rest with
          | String d rest' =>
              if Ascii.eqb c "$" && Ascii.eqb d "{" then replaceVars (Some "") rest'
              else String c (replaceVars None rest)
          | EmptyString => String c (replaceVars None rest)
          end
      end
  end.

(** For an object, [result[key] = resolveEnvVars(val)] for every entry.  The
    key [__proto__] does not become a field of the result: an object assigned
    to it becomes the prototype, whose fields are read where the result has
    none of that name, so they follow the fields of the result here; any
    other value assigned to it is dropped (of a list as prototype, no field
    that the configuration is asked for). *)
Fixpoint resolveEnvVars (value : json) : json :=
  match value with
  | JStr s => JStr (replaceVars None s)
  | JArr items => JArr (map resolveEnvVars items)
  | JObj fields =>
      let resolved := map (fun entry => (fst entry, resolveEnvVars (snd entry))) fields in
      JObj (filter (fun entry => negb (String.eqb (fst entry) "__proto__")) resolved
            ++ match Json.assoc "__proto__" resolved with
               | Some (JObj inherited) => inherited
               | _ => []
               end)
  | _ => value
  end.

Definition loadConfigFile (configPath : string) : Prog unit json :=
  let ext := JS.toLowerCase (path_extname configPath) in
  content <- call (readFileSync configPath) ;;
  if String.eqb ext ".json" then
    try_catch
      (let jsonContent := stripComments content in
       call (JSON_parse jsonContent))
      (fun e => throw (mkError ("Failed to parse JSON config file: " ++ message e)))
  else if String.eqb ext ".yaml" || String.eqb ext ".yml" then
    try_catch
      (call (yaml_parse content))
      (fun e => throw (mkError ("Failed to parse YAML config file: " ++ message e)))
  else
    throw (mkError ("Unsupported config file extension: " ++ ext)).

Definition requiredEmailFields : list string := ["smtpHost"; "smtpPort"; "from"; "to"].

(** [validateConfig] ends in the same four steps in both copies: [email],
    [schedule], [reposBaseDir] and [llm].  [config] is an object here, and
    each step gives the configuration as it leaves it. *)
Definition validateEmail (config : json) : Prog unit json :=
  let email := Json.field "email" config in
  if Json.truthy email then
    match find (fun field => negb (Json.truthy (Json.prop field email)))
               requiredEmailFields with
    | Some field =>
        throw (mkError ("Missing required email configuration field: " ++ field))
    | None =>
        match email, Json.prop "to" email with
        | Some emailObject, Some to =>
            if negb (Json.isArray (Some to)) then
              ret (Json.set "email" (Json.set "to" (JArr [to]) emailObject) config)
            else ret config
        | _, _ => ret config
        end
    end
  else
    log warn "No email configuration found, email notifications will be disabled" None ;;
    ret config.

Definition defaultSchedule (config : json) : Prog unit json :=
  if negb (Json.truthy (Json.field "schedule" config)) then
    log warn "No schedule defined, using default schedule: '0 4 * * *' (daily at 4:00 AM)" None ;;
    ret (Json.set "schedule" (JStr "0 4 * * *") config)
  else ret config.

Definition defaultReposBaseDir (config : json) : Prog unit json :=
  if negb (Json.truthy (Json.field "reposBaseDir" config)) then
    log warn "No repository base directory defined, using default: './repositories'" None ;;
    ret (Json.set "reposBaseDir" (JStr "./repositories") config)
  else ret config.

Definition validateLlm (config : json) : Prog unit json :=
  if Json.truthy (Json.field "llm" config) then
    match Json.field "llm" config with
    | Some (JObj fields) =>
        let llm := JObj fields in
        llm <-
          (if negb (Json.truthy (Json.field "provider" llm)) then
             log warn "No LLM provider specified, using default: 'openai'" None ;;
             ret (Json.set "provider" (JStr "openai") llm)
           else ret llm) ;;
        llm <-
          (if negb (Json.truthy (Json.field "model" llm)) then
             log warn "No LLM model specified, using default: 'gpt-4'" None ;;
             ret (Json.set "model" (JStr "gpt-4") llm)
           else ret llm) ;;
        if negb (Json.truthy (Json.field "apiKey" llm)) then
          throw (mkError "Missing API key for LLM provider")
        else ret (Json.set "llm" llm config)
    | Some (JArr _) =>
        log warn "No LLM provider specified, using default: 'openai'" None ;;
        log warn "No LLM model specified, using default: 'gpt-4'" None ;;
        throw (mkError "Missing API key for LLM provider")
    | _ => throw (typeError "config.llm.provider = 'openai'")
    end
  else
    throw (mkError "LLM configuration is required for conflict resolution").

Definition validateSettings (config : json) : Prog unit json :=
  config <- validateEmail config ;;
  config <- defaultSchedule config ;;
  config <- defaultReposBaseDir config ;;
  validateLlm config.

(** [account.name || index], inside a template literal. *)
Definition accountLabel (index : nat) (account : json) : string :=
  if Json.truthy (Json.field "name" account) then Json.show (Json.field "name" account)
  else JS.ofNat index.

(** The body of the loop over [config.accounts]; the result is the account
    with the default branches filled in. *)
Definition validateAccount (index : nat) (account : json) : Prog unit json :=
  match account with
  | JNull => throw (typeError "account.token")
  | _ =>
      if negb (Json.truthy (Json.field "token" account)) then
        throw (mkError ("Missing GitHub token for account at index " ++ JS.ofNat index))
      else
        match Json.field "repos" account with
        | Some (JArr (first :: others)) =>
            match find (fun repo => negb (regexTest repoRegex (Json.toString repo)))
                       (first :: others) with
            | Some repo =>
                throw (mkError ("Invalid repository format: " ++ Json.toString repo
                                ++ ". Must be in format " ++ dq ++ "owner/repo" ++ dq))
            | None =>
                account <-
                  (if negb (Json.truthy (Json.field "devBranch" account)) then
                     log warn ("No development branch specified for account "
                               ++ accountLabel index account ++ ", using 'dev' as default") None ;;
                     ret (Json.set "devBranch" (JStr "dev") account)
                   else ret account) ;;
                if negb (Json.truthy (Json.field "upstreamBranch" account)) then
                  log warn ("No upstream branch specified for account "
                            ++ accountLabel index account ++ ", using 'main' as default") None ;;
                  ret (Json.set "upstreamBranch" (JStr "main") account)
                else ret account
            end
        | _ =>
            throw (mkError ("Account " ++ accountLabel index account
                            ++ " must include at least one repository"))
        end
  end.

Fixpoint validateAccounts (index : nat) (accounts : list json) : Prog unit (list json) :=
  match accounts with
  | [] => ret []
  | account :: rest =>
      account' <- validateAccount index account ;;
      rest' <- validateAccounts (S index) rest ;;
      ret (account' :: rest')
  end.

(** [validateConfig] of [src/src/config.js] *)
Definition validateConfig (config : json) : Prog unit json :=
  match config with
  | JNull => throw (typeError "config.accounts")
  | _ =>
      match Json.field "accounts" config with
      | Some (JArr (first :: others)) =>
          accounts <- validateAccounts 0 (first :: others) ;;
          validateSettings (Json.set "accounts" (JArr accounts) config)
      | _ => throw (mkError "Configuration must include at least one account")
      end
  end.

(** A field of a repository entry, when it is a string. *)
Definition stringField (key : string) (value : json) : option string :=
  match Json.field key value with
  | Some (JStr s) => Some s
  | _ => None
  end.

(** The loop over [account.repos] of the other copy. *)
Fixpoint validateEntries (repos : list json) : Prog unit unit :=
  match repos with
  | [] => ret tt
  | repoEntry :: rest =>
      match repoEntry with
      | JNull => throw (typeError "repoEntry.upstream")
      | _ =>
          lift (validateRepoEntry (fun _ => JSON_stringify repoEntry)
                  (mkEntry (stringField "upstream" repoEntry) (stringField "fork" repoEntry))) ;;
          validateEntries rest
      end
  end.

(** [validateConfig] of [src/unnamed/part_003] *)
Definition validateConfig_single (config : json) : Prog unit json :=
  match config with
  | JNull => throw (typeError "config.account")
  | _ =>
      match Json.field "account" config with
      | Some (JObj fields) =>
          let account := JObj fields in
          if negb (Json.truthy (Json.field "token" account)) then
            throw (mkError ("Missing GitHub token in " ++ dq ++ "account" ++ dq))
          else
            match Json.field "repos" account with
            | Some (JArr (first :: others)) =>
                validateEntries (first :: others) ;;
                validateSettings config
            | _ =>
                throw (mkError (dq ++ "account.repos" ++ dq ++ " must be a non-empty array"))
            end
      | _ =>
          throw (mkError ("Configuration must include an " ++ dq ++ "account" ++ dq ++ " object"))
      end
  end.

Definition initializeConfig (configPath : string) : Prog unit json :=
  try_catch
    (log info ("Loading configuration from " ++ configPath) None ;;
     config <- loadConfigFile configPath ;;
     let config := resolveEnvVars config in
     config <- validateConfig config ;;
     log info "Configuration loaded successfully" None ;;
     ret config)
    (fun error =>
       log err "Failed to initialize configuration:" (Some (message error)) ;;
       throw error).

End ConfigFileHost.

(** What [validateConfig] of [src/src/config.js] guarantees of the
    configuration it returns. *)
Definition validAccount (account : json) : bool :=
  Json.truthy (Json.field "token" account)
  && match Json.field "repos" account with
     | Some (JArr (first :: others)) =>
         forallb (fun repo => regexTest repoRegex (Json.toString repo)) (first :: others)
     | _ => false
     end
  && Json.truthy (Json.field "devBranch" account)
  && Json.truthy (Json.field "upstreamBranch" account).

Definition validEmail (config : json) : bool :=
  let email := Json.field "email" config in
  if Json.truthy email then
    forallb (fun field => Json.truthy (Json.prop field email)) requiredEmailFields
    && Json.isArray (Json.prop "to" email)
  else true.

Definition validLlm (config : json) : bool :=
  let llm := Json.field "llm" config in
  Json.truthy (Json.prop "provider" llm) && Json.truthy (Json.prop "model" llm)
  && Json.truthy (Json.prop "apiKey" llm).

Definition validSettings (config : json) : bool :=
  validEmail config
  && Json.truthy (Json.field "schedule" config)
  && Json.truthy (Json.field "reposBaseDir" config)
  && validLlm config.

Definition validated (config : json) : bool :=
  match Json.field "accounts" config with
  | Some (JArr (first :: others)) => forallb validAccount (first :: others)
  | _ => false
  end
  && validSettings config.

(** The same for [validateConfig] of [src/unnamed/part_003]. *)
Definition validEntry (repoEntry : json) : bool :=
  match stringField "upstream" repoEntry, stringField "fork" repoEntry with
  | Some upstream, Some fork =>
      JS.truthy upstream && JS.truthy fork
      && regexTest repoBranchRegex upstream && regexTest repoBranchRegex fork
  | _, _ => false
  end.

Definition validated_single (config : json) : bool :=
  match Json.field "account" config with
  | Some (JObj fields) =>
      Json.truthy (Json.field "token" (JObj fields))
      && match Json.field "repos" (JObj fields) with
         | Some (JArr (first :: others)) => forallb validEntry (first :: others)
         | _ => false
         end
  | _ => false
  end
  && validSettings config.

(** What a step of [validateSettings] guarantees: the configuration is
    still an object, it satisfies [good], and only the field [touched] may
    have changed; a configuration that satisfies [good] already passes
    unchanged. *)
Definition StepSpec (step : json -> Prog unit json) (touched : string)
    (good : json -> bool) : Prop :=
  forall (fields : list (string * json)) (w : World) (st : unit) (tr : trace),
  exists r ext,
    step (JObj fields) w st tr = (r, st, (tr ++ ext)%list)
    /\ (forall config', r = Ok config' ->
        (exists fields', config' = JObj fields')
        /\ good config' = true
        /\ forall key, String.eqb touched key = false ->
             Json.field key config' = Json.field key (JObj fields))
    /\ (good (JObj fields) = true -> r = Ok (JObj fields)).

End ConfigFile.

(** ** The scheduler ([src/unnamed/part_002]) *)
Module Scheduler.
Import Sys.
#[local] Open Scope sys_scope.

(** [const activeTasks = {sync: null, report: null};] *)
Record ActiveTasks : Type := mkTasks {
  sync : option Task;
  report : option Task }.

(** The fields of the configuration that [setupScheduler] reads: [schedule],
    and the truth values of [sendDailyReport] and [email]. *)
Record SchedulerConfig : Type := mkSchedulerConfig {
  schedule : option string;
  sendDailyReport : bool;
  email : bool }.

(** The loop over [Object.entries(activeTasks)]: [sync], then [report]. *)
Definition stopScheduler : Prog ActiveTasks unit :=
  entries <- get ;;
  (match sync entries with
   | Some task =>
       log info "Stopping sync task" None ;;
       ask (task_stop task) ;;
       activeTasks <- get ;;
       put (mkTasks None (report activeTasks))
   | None => ret tt
   end) ;;
  match report entries with
  | Some task =>
      log info "Stopping report task" None ;;
      ask (task_stop task) ;;
      activeTasks <- get ;;
      put (mkTasks (sync activeTasks) None)
  | None => ret tt
  end.

Definition setupScheduler (config : SchedulerConfig) : Prog ActiveTasks unit :=
  stopScheduler ;;
  valid <- (if negb (JS.truthyOpt (schedule config)) then ret false
            else ask (cron_validate (JS.show (schedule config)))) ;;
  if negb valid then
    throw (mkError ("Invalid cron schedule expression: " ++ JS.show (schedule config)))
  else
    log info ("Setting up scheduler with expression: " ++ JS.show (schedule config)) None ;;
    task <- call (cron_schedule (JS.show (schedule config)) syncJob) ;;
    activeTasks <- get ;;
    put (mkTasks (Some task) (report activeTasks)) ;;
    (if sendDailyReport config && email config then
       let reportSchedule := "0 6 * * *" in
       log info ("Setting up daily report scheduler with expression: " ++ reportSchedule) None ;;
       task <- call (cron_schedule reportSchedule reportJob) ;;
       activeTasks <- get ;;
       put (mkTasks (sync activeTasks) (Some task))
     else ret tt) ;;
    log info "Scheduler setup completed" None.

(** The tasks that a run stopped and the jobs that it scheduled, oldest
    first. *)
Definition stopped (e : event) : list Task :=
  match e with
  | @Asked T q _ => match q with task_stop task => [task] | _ => [] end
  | _ => []
  end.

Definition stoppedTasks (tr : trace) : list Task := flat_map stopped tr.

Definition scheduled (e : event) : list (Job * Task) :=
  match e with
  | @Called T c r =>
      match c in request T return result T -> list (Job * Task) with
      | cron_schedule _ job => fun r => match r with Ok task => [(job, task)] | Threw _ => [] end
      | _ => fun _ => []
      end r
  | _ => []
  end.

Definition scheduledTasks (tr : trace) : list (Job * Task) := flat_map scheduled tr.

(** The tasks that [activeTasks] holds. *)
Definition active (tasks : ActiveTasks) : list Task :=
  (match sync tasks with Some t => [t] | None => [] end
   ++ match report tasks with Some t => [t] | None => [] end)%list.

End Scheduler.

(** ** The language of a pattern *)

Inductive matches : regex -> string -> Prop :=
| m_eps : matches Eps ""
| m_chr (c : ascii) : matches (Chr c) (String c "")
| m_notchr (c d : ascii) : d <> c -> matches (NotChr c) (String d "")
| m_seq r1 r2 s1 s2 : matches r1 s1 -> matches r2 s2 -> matches (Seq r1 r2) (s1 ++ s2)
| m_alt_l r1 r2 s : matches r1 s -> matches (Alt r1 r2) s
| m_alt_r r1 r2 s : matches r2 s -> matches (Alt r1 r2) s
| m_star_nil r : matches (Star r) ""
| m_star_app r s1 s2 : matches r s1 -> matches (Star r) s2 -> matches (Star r) (s1 ++ s2).


(** ** Coherent outcomes *)

(** An outcome is a success exactly when its status is not [error]. *)
Definition coherent (d : Outcome) : bool :=
  match status d with
  | error => negb (success d)
  | _ => success d
  end.

(** ** The work of a merge

    A call of [git.merge], [git.status], [git.commit], [git.push] or
    [git.reset], whether it returned or threw, and every event of the
    resolver. *)
Definition mergeWork (e : event) : bool :=
  isResolverEvent e
  || match e with
     | Called c _ =>
         match c with
         | git_merge _ | git_status | git_commit _ | git_push _ | git_reset _ => true
         | _ => false
         end
     | _ => false
     end.

(** ** Sample hosts for the worked examples of the modules *)

Definition sampleTypeError (what : string) : Error :=
  mkError ("Cannot use " ++ what).

Definition sampleCompletion (text : string) : Sys.Completion :=
  Sys.mkCompletion [Sys.mkChoice (Some (Sys.mkMessage (Some text)))].

(** A text service that is out of reach for the first [failures] requests
    and answers the later ones; every other request returns normally. *)
Definition flakyService (failures : nat) : Sys.World :=
  Sys.mkWorld
    (fun T tr c =>
       match c in Sys.request T return result T with
       | Sys.readFileSync _ => Ok ""
       | Sys.mkdirSync _ => Ok tt
       | Sys.JSON_parse _ => Ok JNull
       | Sys.yaml_parse _ => Ok JNull
       | Sys.OpenAI_new _ _ => Ok tt
       | Sys.chat_completions_create _ =>
           if Nat.ltb (length (LlmClient.chatRequests tr)) failures
           then Threw (mkError "rate limited")
           else Ok (sampleCompletion (" let limit = 20;" ++ nl))
       | Sys.Octokit_new _ => Ok tt
       | Sys.octokit_request _ _ _ => Ok None
       | Sys.createTransport _ => Ok tt
       | Sys.sendMail _ => Ok None
       | Sys.getTodayLogs => Ok []
       | Sys.cron_schedule _ _ => Ok (Sys.mkTask 0)
       | Sys.simpleGit _ => Ok tt
       | Sys.sg_checkIsRepo => Ok true
       | Sys.sg_clone _ _ => Ok JNull
       | Sys.sg_getRemotes => Ok []
       | Sys.sg_addRemote _ _ => Ok JNull
       | Sys.sg_fetch _ => Ok JNull
       | Sys.sg_checkout _ => Ok JNull
       | Sys.sg_merge _ => Ok (JStr "Already up to date.")
       | Sys.sg_status => Ok (mkStatus [])
       | Sys.sg_add _ => Ok JNull
       | Sys.sg_commit _ => Ok JNull
       | Sys.sg_push _ => Threw (mkError "remote rejected")
       | Sys.sg_raw _ => Ok ""
       | Sys.sg_revparse _ => Ok "4f2a9c1"
       | Sys.sg_reset _ => Ok JNull
       | Sys.sg_diff _ => Ok ""
       | Sys.sg_show _ => Ok "let limit = 10;"
       end)
    (fun T _ q =>
       match q in Sys.query T return T with
       | Sys.existsSync _ => true
       | Sys.setTimeout _ => tt
       | Sys.exec _ _ => Sys.mkExec None "" ""
       | Sys.cron_validate _ => true
       | Sys.task_stop _ => tt
       end).

(** The module variables of the text-generation client after
    [initializeLLMClient] with the sample configuration. *)
Definition sampleClient : LlmClient.Client := LlmClient.mkClient None "sk-test".

Definition sampleSettings : LlmClient.Settings := LlmClient.mkSettings (Some "gpt-4") 3.

Definition sampleGeneration (failures : nat)
  : result (option string) * LlmClient.Module * Sys.trace :=
  Sys.run (LlmClient.generateText sampleTypeError "Resolve the conflict in src/app.js"
             (LlmClient.mkOptions None None))
    (flakyService failures)
    (LlmClient.mkModule (Some sampleClient) (Some sampleSettings)).

Definition sampleFailure : Outcome :=
  mkOutcome "user/tools" "acme" false error None None None None
    (Some "Failed to initialize repository").

Definition sampleOutcomes : list Outcome :=
  [mkOutcome "user/fork" "acme" true synced (Some true) (Some true) (Some passed)
     (Some "Successfully resolved conflicts and pushed changes") None;
   sampleFailure].

Definition sampleResults : Results := mkResults false 1 1 0 sampleOutcomes.

(** A configuration for [src/src/config.js]: one account without branch
    names, one recipient that is not in a list. *)
Definition sampleConfigFile : json :=
  JObj [("accounts",
         JArr [JObj [("name", JStr "acme"); ("token", JStr "tok");
                     ("repos", JArr [JStr "user/fork"; JStr "user/tools"])]]);
        ("email",
         JObj [("smtpHost", JStr "smtp.example.org"); ("smtpPort", JNum 465);
               ("from", JStr "sync@example.org"); ("to", JStr "dev@example.org")]);
        ("llm", JObj [("apiKey", JStr "sk-test")])].

(** The same configuration with every default written out. *)
Definition completeConfigFile : json :=
  JObj [("accounts",
         JArr [JObj [("name", JStr "acme"); ("token", JStr "tok");
                     ("repos", JArr [JStr "user/fork"; JStr "user/tools"]);
                     ("devBranch", JStr "dev"); ("upstreamBranch", JStr "main")]]);
        ("email",
         JObj [("smtpHost", JStr "smtp.example.org"); ("smtpPort", JNum 465);
               ("from", JStr "sync@example.org"); ("to", JArr [JStr "dev@example.org"])]);
        ("llm", JObj [("apiKey", JStr "sk-test"); ("provider", JStr "openai");
                      ("model", JStr "gpt-4")]);
        ("schedule", JStr "0 4 * * *");
        ("reposBaseDir", JStr "./repositories")].

(** A configuration for [src/unnamed/part_003]. *)
Definition sampleSingleConfigFile : json :=
  JObj [("account",
         JObj [("token", JStr "tok");
               ("repos", JArr [JObj [("upstream", JStr "elsewhere/fork:main");
                                     ("fork", JStr "user/fork:dev")]])]);
        ("llm", JObj [("apiKey", JStr "sk-test")])].

Definition sampleStringify (value : json) : string := Json.toString value.

(** What [validateConfig] of [src/unnamed/part_003] returns for it. *)
Definition completeSingleConfigFile : json :=
  JObj [("account",
         JObj [("token", JStr "tok");
               ("repos", JArr [JObj [("upstream", JStr "elsewhere/fork:main");
                                     ("fork", JStr "user/fork:dev")]])]);
        ("llm", JObj [("apiKey", JStr "sk-test"); ("provider", JStr "openai");
                      ("model", JStr "gpt-4")]);
        ("schedule", JStr "0 4 * * *");
        ("reposBaseDir", JStr "./repositories")].

Section Engine.

(** Node's [process.cwd()], [path.resolve] and [path.join]. *)
Variable cwd : string.
Variable path_resolve : string -> string -> string.
Variable path_join : string -> string -> string.

(** ** The text-generation client set-up ([src/src/utils/llm-client.js]) *)

Definition initializeLLMClient {L} (config : option LlmConfig) : M L unit :=
  match config with
  | Some c =>
      if JS.truthyOpt (llm_apiKey c) && JS.truthyOpt (llm_provider c)
         && JS.truthyOpt (llm_model c)
      then
        if String.eqb (JS.toLowerCase (JS.show (llm_provider c))) "openai" then
          call (OpenAI_new (JS.show (llm_apiKey c)) (llm_url c)) ;;
          log info ("OpenAI client initialized with model: " ++ JS.show (llm_model c)) None
        else
          log err ("Unsupported LLM provider: " ++ JS.show (llm_provider c)) None ;;
          throw (mkError ("Unsupported LLM provider: " ++ JS.show (llm_provider c)
                          ++ ". Currently, only 'openai' is supported."))
      else
        log err "LLM client configuration is missing or incomplete." None ;;
        throw (mkError "LLM client configuration is missing or incomplete. apiKey, provider, and model are required.")
  | None =>
      log err "LLM client configuration is missing or incomplete." None ;;
      throw (mkError "LLM client configuration is missing or incomplete. apiKey, provider, and model are required.")
  end.

(** ** The conflict resolver ([src/unnamed/part_004], first module) *)

(** The prompt template of [resolveConflicts]. *)
Definition prompt (filePath oursContent baseContent fileContent : string) : string :=
  JS.join nl
    [ "";
      "The following file has merge conflicts: " ++ filePath;
      "";
      "--- OURS (Current branch) ---";
      oursContent;
      "--- END OURS ---";
      "";
      "--- THEIRS (Branch being merged) ---";
      baseContent ++ " // In a standard merge, MERGE_HEAD is 'theirs'";
      "--- END THEIRS ---";
      "";
      "--- CONFLICTED FILE CONTENT ---";
      fileContent;
      "--- END CONFLICTED FILE CONTENT ---";
      "";
      "Please resolve the conflicts in the file content.";
      "Analyze the changes from OURS and THEIRS against the CONFLICTED FILE CONTENT.";
      "Your goal is to integrate the changes from THEIRS into OURS, preserving the functionality of OURS while incorporating the updates from THEIRS.";
      "Output ONLY the fully resolved file content. Do not include any explanations, comments, or markdown formatting around the code.";
      "Ensure the output is ready to be written directly back to the file.";
      "" ].

(** The body of the [for] loop for one file: [true] when the file was
    resolved and staged, [false] where the source sets [allResolved = false]
    and breaks. *)
Definition resolveFile {L} (repoDir filePath : string) : M L bool :=
  let absoluteFilePath := path_join repoDir filePath in
  log info ("Processing conflicted file: " ++ filePath) None ;;
  try_catch
    (fileContent <- call (fs_readFile absoluteFilePath) ;;
     baseContent <- try_catch (call (git_getFileContent "MERGE_HEAD" filePath))
                              (fun _ => ret "Unavailable") ;;
     oursContent <- try_catch (call (git_getFileContent "HEAD" filePath))
                              (fun _ => ret "Unavailable") ;;
     log info ("Sending prompt to LLM for file: " ++ filePath) None ;;
     resolvedContent <- call (generateText (prompt filePath oursContent baseContent fileContent) 4000) ;;
     if JS.truthy resolvedContent then
       call (fs_writeFile absoluteFilePath resolvedContent) ;;
       log info ("LLM provided resolution for " ++ filePath ++ ". Applying and adding to git.") None ;;
       call (git_add [filePath]) ;;
       ret true
     else
       log err ("LLM did not return content for " ++ filePath ++ ".") None ;;
       ret false)
    (fun e =>
       log err ("Error resolving conflict in file " ++ filePath ++ ":") (Some (message e)) ;;
       ret false).

(** The [for] loop; the result is the final value of [allResolved]. *)
Fixpoint resolveFiles {L} (repoDir : string) (files : list string) : M L bool :=
  match files with
  | [] => ret true
  | filePath :: rest =>
      resolved <- resolveFile repoDir filePath ;;
      if resolved then resolveFiles repoDir rest else ret false
  end.

Definition resolveConflicts {L} (repoDir : string) (conflictedFiles : list string)
    (llmConfig : option LlmConfig) : M L ResolveResult :=
  log info ("Attempting to resolve conflicts in files: " ++ JS.join ", " conflictedFiles) None ;;
  initialized <- try_catch (initializeLLMClient llmConfig ;; ret None)
                   (fun e =>
                      log err "Failed to initialize LLM client for conflict resolution:" (Some (message e)) ;;
                      ret (Some (mkResolve false (Some ("LLM client initialization failed: " ++ message e))))) ;;
  match initialized with
  | Some early => ret early
  | None =>
      allResolved <- resolveFiles repoDir conflictedFiles ;;
      if allResolved && Nat.ltb 0 (length conflictedFiles) then
        try_catch
          (call (git_commit ("Automated merge conflict resolution by LLM for "
                             ++ JS.ofNat (length conflictedFiles) ++ " file(s)")) ;;
           log info "Successfully committed LLM-resolved changes." None ;;
           ret (mkResolve true None))
          (fun commitError =>
             log err "Failed to commit LLM-resolved changes:" (Some (message commitError)) ;;
             ret (mkResolve false (Some ("Failed to commit changes: " ++ message commitError))))
      else if Nat.eqb (length conflictedFiles) 0 then
        log info "No conflicted files were passed to resolver." None ;;
        ret (mkResolve true None)
      else
        log warn "Not all conflicts were resolved by LLM." None ;;
        ret (mkResolve false (Some "LLM failed to resolve all conflicts."))
  end.

(** ** The sync controller ([src/unnamed/part_000]) *)

Definition initializeRepository {L} (repoFullName : string) (account : Account) : M L bool :=
  try_catch
    (isRepo <- call git_checkIsRepo ;;
     (if negb isRepo then
        log info ("Cloning repository " ++ repoFullName) None ;;
        call (git_clone ("https://" ++ token account ++ "@github.com/" ++ repoFullName ++ ".git"))
      else
        log info "Repository already exists locally" None) ;;
     remotes <- call git_getRemotes ;;
     (match find (fun remote => String.eqb (remote_name remote) "upstream") remotes with
      | None =>
          let parts := JS.split "/" repoFullName in
          let owner := nth_error parts 0 in
          let repoName := nth_error parts 1 in
          log info "Adding upstream remote" None ;;
          call (git_addRemote "upstream"
                  ("https://github.com/" ++ JS.show owner ++ "/" ++ JS.show repoName ++ ".git"))
      | Some _ => ret tt
      end) ;;
     log info "Fetching from remotes" None ;;
     call (git_fetch ["--all"]) ;;
     ret true)
    (fun e =>
       log err "Repository initialization failed:" (Some (message e)) ;;
       ret false).

Definition checkForUpstreamChanges {L} (account : Account) : M L bool :=
  try_catch
    (call (git_checkout (devBranch account)) ;;
     log info ("Checking for changes in upstream/" ++ upstreamBranch account) None ;;
     revList <- call (git_revList [devBranch account ++ "..upstream/" ++ upstreamBranch account]) ;;
     ret (Nat.ltb 0 (String.length (JS.trimEnd revList))))
    (fun e =>
       log err "Failed to check for upstream changes:" (Some (message e)) ;;
       throw e).

(** The two [let] variables of [mergeUpstreamChanges]. *)
Record MergeLocals : Type := mkLocals { l_hadConflicts : bool; l_usedLLM : bool }.

Definition mergeUpstreamChanges_body (repoDir : string) (account : Account) (config : Config)
  : M MergeLocals MergeResult :=
  try_catch
    (call (git_checkout (devBranch account)) ;;
     originalHead <- call (git_revParse ["HEAD"]) ;;
     log info ("Current HEAD: " ++ originalHead ++ ", attempting merge") None ;;
     try_catch
       (call (git_merge ["upstream/" ++ upstreamBranch account]) ;;
        log info "Merge completed successfully without conflicts" None ;;
        call (git_push ["origin"; devBranch account]) ;;
        log info "Changes pushed to origin" None ;;
        l <- get ;;
        ret (mkMerge true (l_hadConflicts l) (l_usedLLM l)
               (Some "Successfully merged and pushed upstream changes") None None))
       (fun mergeError =>
          if JS.includes (message mergeError) "CONFLICTS" then
            log info "Merge conflicts detected" None ;;
            modify (fun l => mkLocals true (l_usedLLM l)) ;;
            status <- call git_status ;;
            let conflictedFiles := conflicted status in
            (if Nat.eqb (length conflictedFiles) 0
             then throw (mkError "Failed to identify conflicted files")
             else ret tt) ;;
            log info ("Attempting to resolve " ++ JS.ofNat (length conflictedFiles)
                      ++ " conflicted files using LLM") None ;;
            resolveResult <- invoke tt (resolveConflicts repoDir conflictedFiles (llm config)) ;;
            emit (Resolved conflictedFiles resolveResult) ;;
            modify (fun l => mkLocals (l_hadConflicts l) true) ;;
            if resolve_success resolveResult then
              log info "Conflicts resolved successfully by LLM" None ;;
              call (git_push ["origin"; devBranch account]) ;;
              log info "Resolved changes pushed to origin" None ;;
              l <- get ;;
              ret (mkMerge true (l_hadConflicts l) (l_usedLLM l)
                     (Some ("Successfully resolved " ++ JS.ofNat (length conflictedFiles)
                            ++ " conflicts and pushed changes")) None None)
            else
              log err "LLM conflict resolution failed:" (Some (JS.show (resolve_error resolveResult))) ;;
              try_catch
                (call (git_reset ["--hard"; originalHead]) ;;
                 log info ("Rolled back to original HEAD: " ++ originalHead) None)
                (fun resetError =>
                   log err "Failed to roll back changes:" (Some (message resetError))) ;;
              l <- get ;;
              ret (mkMerge false (l_hadConflicts l) (l_usedLLM l)
                     (Some "Merge aborted due to unresolvable conflicts")
                     (Some ("Failed to resolve conflicts: " ++ JS.show (resolve_error resolveResult)))
                     None)
          else
            throw mergeError))
    (fun e =>
       log err "Merge process failed:" (Some (message e)) ;;
       l <- get ;;
       ret (mkMerge false (l_hadConflicts l) (l_usedLLM l) None
              (Some ("Failed to merge: " ++ message e)) None)).

Definition mergeUpstreamChanges {L} (repoDir : string) (account : Account) (config : Config)
  : M L MergeResult :=
  invoke (mkLocals false false) (mergeUpstreamChanges_body repoDir account config).

(** The post-merge test gate of [syncRepository]; it only sets
    [mergeResult.testsStatus]. *)
Definition postMergeTests {L} (repoDir : string) (config : Config) (mergeResult : MergeResult)
  : M L MergeResult :=
  let withStatus t :=
    mkMerge (merge_success mergeResult) (merge_hadConflicts mergeResult)
            (merge_usedLLM mergeResult) (merge_message mergeResult)
            (merge_error mergeResult) (Some t) in
  if runTestsAfterMerge config && merge_success mergeResult then
    try_catch
      (log info "Running post-merge tests" None ;;
       testsPassed <- call (runTests repoDir) ;;
       if negb testsPassed then
         log warn "Post-merge tests failed" None ;;
         ret (withStatus failed)
       else
         log info "Post-merge tests passed" None ;;
         ret (withStatus passed))
      (fun e =>
         log err "Error running tests:" (Some (message e)) ;;
         ret (withStatus tests_error))
  else ret mergeResult.

Definition syncRepository {L} (repoFullName : string) (account : Account) (config : Config)
  : M L Outcome :=
  log info "Starting sync process" None ;;
  let parts := JS.split "/" repoFullName in
  let owner := nth_error parts 0 in
  let repoName := nth_error parts 1 in
  if negb (JS.truthyOpt owner) || negb (JS.truthyOpt repoName) then
    log err ("Invalid repository format, must be " ++ dq ++ "owner/repo" ++ dq) None ;;
    ret (mkOutcome repoFullName (account_name account) false error
           None None None None (Some "Invalid repository format"))
  else
    let repoBaseDir := path_resolve cwd (reposBaseDir config) in
    let repoDir := path_join repoBaseDir
                     (account_name account ++ "-" ++ JS.show owner ++ "-" ++ JS.show repoName) in
    baseExists <- call (fs_existsSync repoBaseDir) ;;
    (if negb baseExists then
       log info ("Creating base directory: " ++ repoBaseDir) None ;;
       call (fs_mkdirSync repoBaseDir)
     else ret tt) ;;
    call (GitClient_new repoDir (token account)) ;;
    try_catch
      (initialized <- initializeRepository repoFullName account ;;
       if negb initialized then
         ret (mkOutcome repoFullName (account_name account) false error
                None None None None (Some "Failed to initialize repository"))
       else
         hasChanges <- checkForUpstreamChanges account ;;
         if negb hasChanges then
           log info "No upstream changes to sync" None ;;
           ret (mkOutcome repoFullName (account_name account) true skipped
                  None None None (Some "No upstream changes to sync") None)
         else
           mergeResult <- mergeUpstreamChanges repoDir account config ;;
           mergeResult <- postMergeTests repoDir config mergeResult ;;
           ret (mkOutcome repoFullName (account_name account)
                  (merge_success mergeResult)
                  (if merge_success mergeResult then synced else error)
                  (Some (merge_hadConflicts mergeResult))
                  (Some (merge_usedLLM mergeResult))
                  (merge_testsStatus mergeResult)
                  (merge_message mergeResult)
                  (merge_error mergeResult)))
      (fun e =>
         log err "Sync process failed:" (Some (message e)) ;;
         ret (mkOutcome repoFullName (account_name account) false error
                None None None None (Some (message e)))).

(** The body of the inner [for] loop of [startSync]: one repository, with the
    [results] object before and after. *)
Definition processRepository {L} (config : Config) (account : Account) (results : Results)
    (repo : string) : M L Results :=
  try_catch
    (repoResult <- syncRepository repo account config ;;
     let details' := (details results ++ [repoResult])%list in
     if success repoResult then
       match status repoResult with
       | synced => ret (mkResults (results_success results) (S (syncedRepos results))
                          (failedRepos results) (skippedRepos results) details')
       | skipped => ret (mkResults (results_success results) (syncedRepos results)
                           (failedRepos results) (S (skippedRepos results)) details')
       | error => ret (mkResults (results_success results) (syncedRepos results)
                         (failedRepos results) (skippedRepos results) details')
       end
     else
       ret (mkResults false (syncedRepos results) (S (failedRepos results))
              (skippedRepos results) details'))
    (fun e =>
       log err ("Error processing repository " ++ repo ++ ":") (Some (message e)) ;;
       ret (mkResults false (syncedRepos results) (S (failedRepos results))
              (skippedRepos results)
              (details results
               ++ [mkOutcome repo (account_name account) false error
                     None None None None (Some (message e))])%list)).

Fixpoint processRepositories {L} (config : Config) (account : Account) (results : Results)
    (repos : list string) : M L Results :=
  match repos with
  | [] => ret results
  | repo :: rest =>
      results' <- processRepository config account results repo ;;
      processRepositories config account results' rest
  end.

(** The repositories of an account that pass [options.repoFilter]. *)
Definition selectRepos (options : Options) (account : Account) : list string :=
  if JS.truthyOpt (repoFilter options)
  then filter (fun repo => String.eqb repo (JS.show (repoFilter options))) (repos account)
  else repos account.

(** The accounts that pass [options.accountFilter]. *)
Definition selectAccounts (config : Config) (options : Options) : list Account :=
  if JS.truthyOpt (accountFilter options)
  then filter (fun account => String.eqb (account_name account) (JS.show (accountFilter options)))
              (accounts config)
  else accounts config.

(** The outer [for] loop of [startSync]. *)
Fixpoint processAccounts {L} (config : Config) (options : Options) (results : Results)
    (accs : list Account) : M L Results :=
  match accs with
  | [] => ret results
  | account :: rest =>
      log info ("Processing account: " ++ account_name account) None ;;
      let repos := selectRepos options account in
      results' <-
        (if Nat.eqb (length repos) 0 then
           log warn ("No repositories found matching filter: " ++ JS.show (repoFilter options)
                     ++ " for account: " ++ account_name account) None ;;
           ret results
         else processRepositories config account results repos) ;;
      processAccounts config options results' rest
  end.

Definition startSync {L} (config : Config) (options : Options) : M L SyncReturn :=
  (if logOptions config then call configureLogger else ret tt) ;;
  log info "Starting fork sync process" None ;;
  let accounts := selectAccounts config options in
  if Nat.eqb (length accounts) 0 then
    log warn ("No accounts found matching filter: " ++ JS.show (accountFilter options)) None ;;
    ret (Refused "No matching accounts found")
  else
    results <- processAccounts config options (mkResults true 0 0 0 []) accounts ;;
    (if email config
        && (Nat.ltb 0 (syncedRepos results) || Nat.ltb 0 (failedRepos results)
            || sendMailOnFailure config)
     then
       try_catch (call (sendSyncReport results))
                 (fun e => log err "Failed to send sync report email:" (Some (message e)))
     else ret tt) ;;
    log info "Sync process completed" None ;;
    ret (Summary results).

(** ** The later copy of the controller
      ([src/src/controller.test.js], after the test suite)

    Three functions of the copy are embedded, for comparison with the
    controller above: they take the fork and upstream names and branches
    instead of reading them from the account. *)

Definition revised_initializeRepository {L} (forkRepoName forkBranch upstreamRepoName : string)
    (account : Account) : M L bool :=
  try_catch
    (isRepo <- call git_checkIsRepo ;;
     (if negb isRepo then
        log info ("Cloning repository " ++ forkRepoName) None ;;
        call (git_clone ("https://" ++ token account ++ "@github.com/" ++ forkRepoName ++ ".git"))
      else
        log info ("Repository " ++ forkRepoName ++ " already exists locally") None ;;
        call (git_updateRemoteUrl "origin"
                ("https://" ++ token account ++ "@github.com/" ++ forkRepoName ++ ".git"))) ;;
     remotes <- call git_getRemotes ;;
     let upstreamRemote := find (fun remote => String.eqb (remote_name remote) "upstream") remotes in
     let expectedUpstreamUrl := "https://github.com/" ++ upstreamRepoName ++ ".git" in
     (match upstreamRemote with
      | None =>
          log info ("Adding upstream remote for " ++ upstreamRepoName) None ;;
          call (git_addRemote "upstream" expectedUpstreamUrl)
      | Some remote =>
          if negb (String.eqb (remote_url remote) expectedUpstreamUrl) then
            log info ("Updating upstream remote URL for " ++ upstreamRepoName ++ " from "
                      ++ remote_url remote ++ " to " ++ expectedUpstreamUrl) None ;;
            call (git_updateRemoteUrl "upstream" expectedUpstreamUrl)
          else
            log info ("Upstream remote for " ++ upstreamRepoName ++ " already configured correctly.") None
      end) ;;
     log info "Fetching from all remotes (origin and upstream)" None ;;
     call (git_fetch ["--all"]) ;;
     log info ("Checking out fork branch: " ++ forkBranch) None ;;
     call (git_checkout forkBranch) ;;
     try_catch
       (call (git_branch ["--set-upstream-to"; "origin/" ++ forkBranch]) ;;
        log info ("Ensured local branch " ++ forkBranch ++ " tracks origin/" ++ forkBranch) None)
       (fun setUpstreamError =>
          log warn ("Could not set local branch " ++ forkBranch ++ " to track origin/" ++ forkBranch
                    ++ ". This is okay if the remote branch doesn't exist yet. Error: "
                    ++ message setUpstreamError) None) ;;
     ret true)
    (fun e =>
       log err ("Repository initialization for " ++ forkRepoName ++ ":" ++ forkBranch ++ " failed:")
           (Some (message e)) ;;
       ret false).

Definition revised_checkForUpstreamChanges {L} (forkBranch upstreamBranch : string) : M L bool :=
  try_catch
    (log info ("Switching to branch " ++ forkBranch ++ " to check for upstream changes.") None ;;
     call (git_checkout forkBranch) ;;
     log info ("Fetching from upstream remote to compare against upstream/" ++ upstreamBranch) None ;;
     call (git_fetch ["upstream"]) ;;
     log info ("Checking for changes in upstream/" ++ upstreamBranch
               ++ " not present in local " ++ forkBranch) None ;;
     revList <- call (git_revList [forkBranch ++ "..upstream/" ++ upstreamBranch]) ;;
     if Nat.ltb 0 (String.length (JS.trim revList)) then
       log info ("Found changes in upstream/" ++ upstreamBranch ++ " to sync to " ++ forkBranch ++ ".") None ;;
       ret true
     else
       log info ("No new changes in upstream/" ++ upstreamBranch ++ " to sync to " ++ forkBranch ++ ".") None ;;
       ret false)
    (fun e =>
       log err ("Failed to check for upstream changes for " ++ forkBranch
                ++ " from upstream/" ++ upstreamBranch ++ ":") (Some (message e)) ;;
       throw e).

(** The longest prefix without white space: what [([^\s]+)] captures. *)
Fixpoint nonSpacePrefix (s : string) : string :=
  match s with
  | EmptyString => EmptyString
  | String c s' => if JS.isWhiteSpace c then EmptyString else String c (nonSpacePrefix s')
  end.

Definition conflictPrefix : string := "CONFLICT (content): Merge conflict in ".

(** The captures of the repeated
    [/CONFLICT \(content\): Merge conflict in ([^\s]+)/g.exec(message)];
    [skip] characters belong to the previous match. *)
Fixpoint filesFromError (skip : nat) (msg : string) : list string :=
  match msg with
  | EmptyString => []
  | String _ rest =>
      match skip with
      | S k => filesFromError k rest
      | O =>
          if JS.startsWith msg conflictPrefix then
            let captured :=
              nonSpacePrefix (String.substring (String.length conflictPrefix)
                                (String.length msg - String.length conflictPrefix) msg) in
            if JS.truthy captured then
              captured :: filesFromError (String.length conflictPrefix + String.length captured - 1) rest
            else filesFromError 0 rest
          else filesFromError 0 rest
      end
  end.

Definition revised_mergeUpstreamChanges_body (repoDir forkBranch upstreamBranch : string)
    (config : Config) : M MergeLocals MergeResult :=
  try_catch
    (log info ("Switching to branch " ++ forkBranch ++ " to merge changes.") None ;;
     call (git_checkout forkBranch) ;;
     originalHead <- call (git_revParse ["HEAD"]) ;;
     log info ("Current HEAD on " ++ forkBranch ++ " is " ++ originalHead
               ++ ". Attempting to merge from upstream/" ++ upstreamBranch ++ ".") None ;;
     try_catch
       (call (git_merge ["upstream/" ++ upstreamBranch]) ;;
        log info ("Merge of upstream/" ++ upstreamBranch ++ " into " ++ forkBranch
                  ++ " completed successfully without conflicts.") None ;;
        log info ("Pushing merged changes to origin/" ++ forkBranch ++ ".") None ;;
        call (git_push ["origin"; forkBranch]) ;;
        log info ("Changes pushed to origin/" ++ forkBranch ++ ".") None ;;
        l <- get ;;
        ret (mkMerge true (l_hadConflicts l) (l_usedLLM l)
               (Some ("Successfully merged upstream/" ++ upstreamBranch ++ " into " ++ forkBranch
                      ++ " and pushed to origin/" ++ forkBranch)) None None))
       (fun mergeError =>
          if JS.includes (message mergeError) "CONFLICT"
             || JS.includes (message mergeError) "failed to merge" then
            log warn ("Merge conflicts detected when merging upstream/" ++ upstreamBranch
                      ++ " into " ++ forkBranch ++ ".") None ;;
            modify (fun l => mkLocals true (l_usedLLM l)) ;;
            status <- call git_status ;;
            let conflictedFiles := conflicted status in
            if Nat.eqb (length conflictedFiles) 0 then
              let fromError := filesFromError 0 (message mergeError) in
              (if Nat.ltb 0 (length fromError) then
                 log warn ("Identified conflicted files from error message: "
                           ++ JS.join ", " fromError) None
               else ret tt) ;;
              log err "Failed to identify conflicted files via git.status(). Merge resolution cannot proceed automatically." None ;;
              call (git_merge ["--abort"]) ;;
              log info "Merge aborted due to inability to identify conflicted files." None ;;
              l <- get ;;
              ret (mkMerge false (l_hadConflicts l) false
                     (Some "Merge aborted as conflicted files could not be determined.")
                     (Some "Failed to identify conflicted files for resolution.") None)
            else
              log info ("Attempting to resolve " ++ JS.ofNat (length conflictedFiles)
                        ++ " conflicted files using LLM: " ++ JS.join ", " conflictedFiles) None ;;
              resolveResult <- invoke tt (resolveConflicts repoDir conflictedFiles (llm config)) ;;
              emit (Resolved conflictedFiles resolveResult) ;;
              modify (fun l => mkLocals (l_hadConflicts l) true) ;;
              if resolve_success resolveResult then
                log info "Conflicts resolved successfully by LLM." None ;;
                call (git_commit ("Automated merge conflict resolution from upstream/" ++ upstreamBranch)) ;;
                log info "Committed resolved changes." None ;;
                log info ("Pushing resolved changes to origin/" ++ forkBranch ++ ".") None ;;
                call (git_push ["origin"; forkBranch]) ;;
                log info ("Resolved changes pushed to origin/" ++ forkBranch ++ ".") None ;;
                l <- get ;;
                ret (mkMerge true (l_hadConflicts l) (l_usedLLM l)
                       (Some ("Successfully resolved " ++ JS.ofNat (length conflictedFiles)
                              ++ " conflicts in " ++ forkBranch ++ " from upstream/" ++ upstreamBranch
                              ++ " and pushed changes")) None None)
              else
                log err "LLM conflict resolution failed:" (Some (JS.show (resolve_error resolveResult))) ;;
                try_catch
                  (log info "Attempting to abort the merge." None ;;
                   call (git_merge ["--abort"]) ;;
                   log info "Merge aborted successfully." None)
                  (fun abortError =>
                     log err "Failed to abort merge, attempting hard reset to original HEAD:"
                         (Some (message abortError)) ;;
                     try_catch
                       (call (git_reset ["--hard"; originalHead]) ;;
                        log info ("Rolled back to original HEAD on " ++ forkBranch ++ ": " ++ originalHead) None)
                       (fun resetError =>
                          log err ("Failed to roll back changes on " ++ forkBranch ++ " to "
                                   ++ originalHead ++ ":") (Some (message resetError)))) ;;
                l <- get ;;
                ret (mkMerge false (l_hadConflicts l) (l_usedLLM l)
                       (Some ("Merge of upstream/" ++ upstreamBranch ++ " into " ++ forkBranch
                              ++ " aborted due to unresolvable conflicts."))
                       (Some ("Failed to resolve conflicts for " ++ forkBranch ++ " from upstream/"
                              ++ upstreamBranch ++ ": " ++ JS.show (resolve_error resolveResult)))
                       None)
          else
            log err ("An unexpected error occurred during merge of upstream/" ++ upstreamBranch
                     ++ " into " ++ forkBranch ++ ":") (Some (message mergeError)) ;;
            throw mergeError))
    (fun e =>
       log err ("Merge process for " ++ forkBranch ++ " from upstream/" ++ upstreamBranch ++ " failed:")
           (Some (message e)) ;;
       l <- get ;;
       ret (mkMerge false (l_hadConflicts l) (l_usedLLM l) None
              (Some ("Failed to merge changes into " ++ forkBranch ++ " from upstream/"
                     ++ upstreamBranch ++ ": " ++ message e)) None)).

Definition revised_mergeUpstreamChanges {L} (repoDir forkBranch upstreamBranch : string)
    (config : Config) : M L MergeResult :=
  invoke (mkLocals false false)
    (revised_mergeUpstreamChanges_body repoDir forkBranch upstreamBranch config).

(** ** The shapes a run can take

    The propositions below describe, through the readings of the trace, every
    way a run of [mergeUpstreamChanges] and of [syncRepository] can go; the
    lemmas [mergeUpstreamChanges_shape] and [syncRepository_shape] prove that
    there is no other. *)

Definition upstreamRef (account : Account) : list string :=
  ["upstream/" ++ upstreamBranch account].

Definition originRef (account : Account) : list string :=
  ["origin"; devBranch account].

(** The object returned by the outer [catch] of [mergeUpstreamChanges]. *)
Definition mergeFailure (hadConflicts usedLLM : bool) (msg : string) : MergeResult :=
  mkMerge false hadConflicts usedLLM None (Some ("Failed to merge: " ++ msg)) None.

(** What the inner [catch] does with an error whose message is [x]: the
    result, the marks it adds, the answers of [git.status] and the returns of
    the resolver. *)
Inductive ConflictShape (account : Account) (x : string)
  : MergeResult -> list mark -> list (list string)
    -> list (list string * ResolveResult) -> Prop :=
| not_a_conflict :
    JS.includes x "CONFLICTS" = false ->
    ConflictShape account x (mergeFailure false false x) [] [] []
| status_threw (m : string) :
    JS.includes x "CONFLICTS" = true ->
    ConflictShape account x (mergeFailure true false m) [] [] []
| no_conflicted_files :
    JS.includes x "CONFLICTS" = true ->
    ConflictShape account x
      (mergeFailure true false "Failed to identify conflicted files") [] [[]] []
| resolved_pushed (files : list string) (r : ResolveResult) (msg note : string) :
    JS.includes x "CONFLICTS" = true -> files <> [] -> resolve_success r = true ->
    ConflictShape account x
      (mkMerge true true true (Some note) None None)
      [Commit msg true; Push (originRef account) true] [files] [(files, r)]
| resolved_push_threw (files : list string) (r : ResolveResult) (msg m : string) :
    JS.includes x "CONFLICTS" = true -> files <> [] -> resolve_success r = true ->
    ConflictShape account x (mergeFailure true true m)
      [Commit msg true; Push (originRef account) false] [files] [(files, r)]
| unresolved (files : list string) (r : ResolveResult) (e head : string)
    (commits : list mark) (reset_ok : bool) :
    JS.includes x "CONFLICTS" = true -> files <> [] ->
    resolve_success r = false -> resolve_error r = Some e ->
    commits = [] \/ (exists msg, commits = [Commit msg false]) ->
    ConflictShape account x
      (mkMerge false true true (Some "Merge aborted due to unresolvable conflicts")
         (Some ("Failed to resolve conflicts: " ++ e)) None)
      (commits ++ [Reset ["--hard"; head] reset_ok])%list [files] [(files, r)].

Inductive MergeShape (account : Account)
  : MergeResult -> list mark -> list (list string)
    -> list (list string * ResolveResult) -> Prop :=
| not_started (m : string) :
    MergeShape account (mergeFailure false false m) [] [] []
| clean_merge :
    MergeShape account
      (mkMerge true false false (Some "Successfully merged and pushed upstream changes")
         None None)
      [Merge (upstreamRef account) true; Push (originRef account) true] [] []
| merge_threw (x : string) mr rest st rs :
    ConflictShape account x mr rest st rs ->
    MergeShape account mr (Merge (upstreamRef account) false :: rest) st rs
| push_threw (x : string) mr rest st rs :
    ConflictShape account x mr rest st rs ->
    MergeShape account mr
      (Merge (upstreamRef account) true :: Push (originRef account) false :: rest) st rs.

(** The value of [testsStatus] after the test gate. *)
Definition testsGate (config : Config) (mr : MergeResult) (ts : option TestsStatus) : Prop :=
  if runTestsAfterMerge config && merge_success mr
  then exists t, ts = Some t
  else ts = None.

(** The outcome object built from the merge result at the end of
    [syncRepository]. *)
Definition mergedOutcome (repoFullName : string) (account : Account) (mr : MergeResult)
    (ts : option TestsStatus) : Outcome :=
  mkOutcome repoFullName (account_name account) (merge_success mr)
    (if merge_success mr then synced else error)
    (Some (merge_hadConflicts mr)) (Some (merge_usedLLM mr)) ts
    (merge_message mr) (merge_error mr).

(** The outcome object of the [catch] blocks and of the early returns. *)
Definition errorOutcome (repoFullName : string) (account : Account) (msg : string) : Outcome :=
  mkOutcome repoFullName (account_name account) false error None None None None (Some msg).

Definition skippedOutcome (repoFullName : string) (account : Account) : Outcome :=
  mkOutcome repoFullName (account_name account) true skipped None None None
    (Some "No upstream changes to sync") None.

Inductive SyncShape (repoFullName : string) (account : Account) (config : Config)
  : result Outcome -> trace -> Prop :=
| sync_threw (e : Error) tr :
    Forall (fun ev => quiet ev = true) tr ->
    SyncShape repoFullName account config (Threw e) tr
| sync_failed (msg : string) tr :
    Forall (fun ev => quiet ev = true) tr ->
    SyncShape repoFullName account config (Ok (errorOutcome repoFullName account msg)) tr
| sync_skipped (txt : string) tr :
    revListOutputs tr = [txt] -> JS.trimEnd txt = "" ->
    marks tr = [] -> statusOutputs tr = [] -> resolutions tr = [] ->
    Forall (fun ev => isResolverEvent ev = false) tr ->
    SyncShape repoFullName account config (Ok (skippedOutcome repoFullName account)) tr
| sync_merged (txt : string) (mr : MergeResult) (ts : option TestsStatus) tr :
    revListOutputs tr = [txt] -> JS.trimEnd txt <> "" ->
    MergeShape account mr (marks tr) (statusOutputs tr) (resolutions tr) ->
    testsGate config mr ts ->
    SyncShape repoFullName account config
      (Ok (mergedOutcome repoFullName account mr ts)) tr.

(** The detail that [startSync] records for a repository, given what
    [syncRepository] did. *)
Definition recorded (repo : string) (account : Account) (r : result Outcome) : Outcome :=
  match r with
  | Ok repoResult => repoResult
  | Threw e => errorOutcome repo account (message e)
  end.

(** The repository pairs of a batch, in processing order. *)
Definition selectedPairs (config : Config) (options : Options) : list (Account * string) :=
  flat_map (fun account => map (pair account) (selectRepos options account))
           (selectAccounts config options).

(** Number of outcomes that are not successes. *)
Definition countFailed (ds : list Outcome) : nat :=
  length (filter (fun d => negb (success d)) ds).

Definition countStatus (st : Status) (ds : list Outcome) : nat :=
  length (filter (fun d => success d
                           && match status d, st with
                              | synced, synced | skipped, skipped | error, error => true
                              | _, _ => false
                              end) ds).

(** The [results] object after one more detail has been recorded. *)
Definition tally (results : Results) (d : Outcome) : Results :=
  let details' := (details results ++ [d])%list in
  if success d then
    match status d with
    | synced => mkResults (results_success results) (S (syncedRepos results))
                  (failedRepos results) (skippedRepos results) details'
    | skipped => mkResults (results_success results) (syncedRepos results)
                   (failedRepos results) (S (skippedRepos results)) details'
    | error => mkResults (results_success results) (syncedRepos results)
                 (failedRepos results) (skippedRepos results) details'
    end
  else mkResults false (syncedRepos results) (S (failedRepos results))
         (skippedRepos results) details'.

(** [d] is what [startSync] recorded for the pair [p]: at some point of the
    run, [syncRepository] was run on the pair, all the events of that run are
    in the final trace, and [d] is the outcome it returned or, when it threw,
    the error outcome with the message of what it threw. *)
Definition processedIn (config : Config) (o : oracle) (final : trace)
    (p : Account * string) (d : Outcome) : Prop :=
  exists before,
    let '(r, _, after) := syncRepository (snd p) (fst p) config o tt before in
    d = recorded (snd p) (fst p) r /\ exists rest, final = (after ++ rest)%list.

(** The counters and the flag of a [results] object agree with its details. *)
Definition balanced (results : Results) : Prop :=
  failedRepos results = countFailed (details results)
  /\ syncedRepos results = countStatus synced (details results)
  /\ skippedRepos results = countStatus skipped (details results)
  /\ results_success results = forallb success (details results).

(** * Properties *)

(** ** Reasoning about runs *)

Ltac unfold_monad :=
  unfold run, invoke, bind, try_catch, ret, throw, get, modify, log, emit, call in *.

(** Case analysis on the next answer of the oracle: the call whose history
    mentions no other pending call. *)
Ltac simp := cbv beta iota zeta; cbn [negb andb orb].

Ltac branch :=
  match goal with
  | |- context [if ?b then _ else _] =>
      let H := fresh "Hcond" in
      assert (H : {b = true} + {b = false}) by (clear; destruct b; auto);
      destruct H as [H|H]; rewrite H
  end.

Ltac ask o :=
  match goal with
  | |- context [o ?T ?tr ?c] =>
      lazymatch tr with
      | context [o _ _ _] => fail
      | _ => let r := fresh "r" in generalize (o T tr c); intros r; destruct r
      end
  end.

Ltac norm_app :=
  repeat (progress (cbn [app]; rewrite <- ?app_assoc)).

Ltac close_trace :=
  repeat rewrite <- app_assoc; cbn [app]; reflexivity.

Lemma flat_map_nil_of_Forall {A B} (f : A -> list B) (P : A -> bool) (l : list A) :
  (forall a, P a = true -> f a = []) ->
  Forall (fun a => P a = true) l -> flat_map f l = [].
Proof.
  intros HP H; induction H as [|a l Ha _ IH]; cbn; [reflexivity|].
  now rewrite (HP a Ha), IH.
Qed.

Lemma resolverStep_markOf e : resolverStep e = true -> markOf e = [].
Proof. destruct e as [T c r| |]; cbn; try discriminate; try reflexivity; destruct c; cbn; congruence. Qed.

Lemma resolverStep_revListOutput e : resolverStep e = true -> revListOutput e = [].
Proof. destruct e as [T c r| |]; cbn; try discriminate; try reflexivity; destruct c; cbn; congruence. Qed.

Lemma resolverStep_statusOutput e : resolverStep e = true -> statusOutput e = [].
Proof. destruct e as [T c r| |]; cbn; try discriminate; try reflexivity; destruct c; cbn; congruence. Qed.

Lemma resolverStep_not_Resolved e files r : resolverStep e = true -> e <> Resolved files r.
Proof. intros H ->; discriminate. Qed.

(** *** The resolver *)

Lemma initializeLLMClient_spec L (config : option LlmConfig) (o : oracle) (s : L) (tr : trace) :
  exists r ext,
    initializeLLMClient config o s tr = (r, s, (tr ++ ext)%list)
    /\ Forall (fun e => resolverStep e = true) ext.
Proof.
  unfold initializeLLMClient.
  destruct config as [c|]; [|unfold_monad; eexists _, _; split; [close_trace | repeat constructor]].
  destruct (_ && _); [|unfold_monad; eexists _, _; split; [close_trace | repeat constructor]].
  destruct (String.eqb _ _); unfold_monad; [ask o|];
    eexists _, _; (split; [close_trace | repeat constructor]).
Qed.

Lemma resolveFile_spec L (repoDir filePath : string) (o : oracle) (s : L) (tr : trace) :
  exists b ext,
    resolveFile repoDir filePath o s tr = (Ok b, s, (tr ++ ext)%list)
    /\ Forall (fun e => resolverStep e = true) ext.
Proof.
  unfold resolveFile; unfold_monad; simp.
  ask o; simp; [|eexists _, _; (split; [close_trace | repeat constructor])].
  ask o; simp; (ask o; simp);
    (ask o; simp; [|eexists _, _; (split; [close_trace | repeat constructor])]);
    (branch; simp; [|eexists _, _; (split; [close_trace | repeat constructor])]);
    (ask o; simp; [|eexists _, _; (split; [close_trace | repeat constructor])]);
    (ask o; simp; eexists _, _; (split; [close_trace | repeat constructor])).
Qed.

Lemma resolveFiles_spec L (repoDir : string) (files : list string) (o : oracle) (s : L) (tr : trace) :
  exists b ext,
    resolveFiles repoDir files o s tr = (Ok b, s, (tr ++ ext)%list)
    /\ Forall (fun e => resolverStep e = true) ext.
Proof.
  revert tr; induction files as [|f rest IH]; intros tr; cbn.
  - exists true, []. rewrite app_nil_r. split; [reflexivity | constructor].
  - unfold bind at 1.
    destruct (resolveFile_spec L repoDir f o s tr) as (b & ext & -> & Hext).
    destruct b.
    + destruct (IH (tr ++ ext)%list) as (b' & ext' & -> & Hext').
      exists b', (ext ++ ext')%list. rewrite app_assoc. split; [reflexivity|].
      now apply Forall_app.
    + exists false, ext. split; [reflexivity | assumption].
Qed.

Ltac use_init r ext H :=
  match goal with
  | |- context [initializeLLMClient ?c ?o ?s ?tr] =>
      destruct (initializeLLMClient_spec _ c o s tr) as (r & ext & -> & H)
  end.

Ltac use_files b ext H :=
  match goal with
  | |- context [resolveFiles ?d ?f ?o ?s ?tr] =>
      destruct (resolveFiles_spec _ d f o s tr) as (b & ext & -> & H)
  end.

(** [resolveConflicts] always returns.  Its events are resolver steps, with at
    most one [git.commit] among them; it reports success after a commit that
    returned, or for an empty list of files; a failure carries an error text. *)
Lemma resolveConflicts_spec L (repoDir : string) (files : list string)
    (llmConfig : option LlmConfig) (o : oracle) (s : L) (tr : trace) :
  exists r pre cs post,
    resolveConflicts repoDir files llmConfig o s tr
    = (Ok r, s, (tr ++ pre ++ cs ++ post)%list)
    /\ Forall (fun e => resolverStep e = true) pre
    /\ Forall (fun e => resolverStep e = true) post
    /\ ((cs = [] /\ (resolve_success r = true -> files = []))
        \/ (exists msg rc, cs = [Called (git_commit msg) rc]
                           /\ resolve_success r = succeeded rc /\ files <> []))
    /\ (resolve_success r = false -> exists e, resolve_error r = Some e).
Proof.
  unfold resolveConflicts; unfold_monad.
  use_init r0 ext0 H0. destruct r0 as [[]|e0]; cbv beta iota zeta.
  - use_files b ext1 H1. cbv beta iota zeta.
    destruct (_ && _) eqn:Hc; cbv beta iota zeta.
    + apply andb_prop in Hc as [-> Hlen].
      assert (files <> []) by (destruct files; [discriminate | congruence]).
      ask o; cbv beta iota zeta; repeat rewrite <- app_assoc; cbn [app].
      * eexists _, (_ :: ext0 ++ ext1)%list, [_], [_].
        split; [norm_app; reflexivity|].
        split; [constructor; [reflexivity|]; apply Forall_app; split; assumption|].
        split; [repeat constructor|].
        split; [right; eexists _, _; repeat split; auto | cbn; discriminate].
      * eexists _, (_ :: ext0 ++ ext1)%list, [_], [_].
        split; [norm_app; reflexivity|].
        split; [constructor; [reflexivity|]; apply Forall_app; split; assumption|].
        split; [repeat constructor|].
        split; [right; eexists _, _; repeat split; auto | cbn; eauto].
    + repeat rewrite <- app_assoc; cbn [app].
      destruct (Nat.eqb (length files) 0) eqn:Hlen; cbv beta iota zeta;
        repeat rewrite <- app_assoc; cbn [app].
      * eexists _, (_ :: ext0 ++ ext1 ++ [_])%list, [], [].
        split; [norm_app; rewrite ?app_nil_r; reflexivity|].
        split; [constructor; [reflexivity|]; apply Forall_app; split; [assumption|];
                apply Forall_app; split; [assumption|repeat constructor]|].
        split; [constructor|]. split; [left; split; [reflexivity|] | cbn; discriminate].
        intros _. destruct files; [reflexivity | discriminate].
      * eexists _, (_ :: ext0 ++ ext1 ++ [_])%list, [], [].
        split; [norm_app; rewrite ?app_nil_r; reflexivity|].
        split; [constructor; [reflexivity|]; apply Forall_app; split; [assumption|];
                apply Forall_app; split; [assumption|repeat constructor]|].
        split; [constructor|]. split; [left; split; [reflexivity|cbn; discriminate] | cbn; eauto].
  - repeat rewrite <- app_assoc; cbn [app].
    eexists _, (_ :: ext0 ++ [_])%list, [], [].
    split; [norm_app; rewrite ?app_nil_r; reflexivity|].
    split; [constructor; [reflexivity|]; apply Forall_app; split; [assumption|repeat constructor]|].
    split; [constructor|]. split; [left; split; [reflexivity|cbn; discriminate] | cbn; eauto].
Qed.

Lemma resolverStep_resolution e : resolverStep e = true -> resolution e = [].
Proof. destruct e as [T c r| |]; cbn; try discriminate; reflexivity. Qed.

Lemma quiet_markOf e : quiet e = true -> markOf e = [].
Proof. unfold quiet; destruct (markOf e); [reflexivity | discriminate]. Qed.

Lemma quiet_revListOutput e : quiet e = true -> revListOutput e = [].
Proof.
  unfold quiet; destruct (markOf e); [|discriminate].
  destruct (revListOutput e); [reflexivity | discriminate].
Qed.

Lemma quiet_statusOutput e : quiet e = true -> statusOutput e = [].
Proof.
  unfold quiet; destruct (markOf e); [|discriminate].
  destruct (revListOutput e); [|discriminate].
  destruct (statusOutput e); [reflexivity | discriminate].
Qed.

Lemma quiet_resolution e : quiet e = true -> resolution e = [].
Proof.
  unfold quiet; destruct (markOf e); [|discriminate].
  destruct (revListOutput e); [|discriminate].
  destruct (statusOutput e); [|discriminate].
  destruct (resolution e); [reflexivity | discriminate].
Qed.

Lemma quiet_not_resolver e : quiet e = true -> isResolverEvent e = false.
Proof.
  unfold quiet; destruct (markOf e); [|discriminate].
  destruct (revListOutput e); [|discriminate].
  destruct (statusOutput e); [|discriminate].
  destruct (resolution e); [|discriminate].
  now destruct (isResolverEvent e).
Qed.

Section Readings.

Variable l : trace.

Lemma quiet_marks : Forall (fun e => quiet e = true) l -> flat_map markOf l = [].
Proof. apply flat_map_nil_of_Forall, quiet_markOf. Qed.

Lemma quiet_revListOutputs : Forall (fun e => quiet e = true) l -> flat_map revListOutput l = [].
Proof. apply flat_map_nil_of_Forall, quiet_revListOutput. Qed.

Lemma quiet_statusOutputs : Forall (fun e => quiet e = true) l -> flat_map statusOutput l = [].
Proof. apply flat_map_nil_of_Forall, quiet_statusOutput. Qed.

Lemma quiet_resolutions : Forall (fun e => quiet e = true) l -> flat_map resolution l = [].
Proof. apply flat_map_nil_of_Forall, quiet_resolution. Qed.

Lemma quiet_no_resolver :
  Forall (fun e => quiet e = true) l -> Forall (fun e => isResolverEvent e = false) l.
Proof. apply Forall_impl, quiet_not_resolver. Qed.

Lemma steps_marks : Forall (fun e => resolverStep e = true) l -> flat_map markOf l = [].
Proof. apply flat_map_nil_of_Forall, resolverStep_markOf. Qed.

Lemma steps_revListOutputs : Forall (fun e => resolverStep e = true) l -> flat_map revListOutput l = [].
Proof. apply flat_map_nil_of_Forall, resolverStep_revListOutput. Qed.

Lemma steps_statusOutputs : Forall (fun e => resolverStep e = true) l -> flat_map statusOutput l = [].
Proof. apply flat_map_nil_of_Forall, resolverStep_statusOutput. Qed.

Lemma steps_resolutions : Forall (fun e => resolverStep e = true) l -> flat_map resolution l = [].
Proof. apply flat_map_nil_of_Forall, resolverStep_resolution. Qed.

End Readings.

Ltac use_resolver r pre cs post Hpre Hpost Hcs Herr :=
  match goal with
  | |- context [resolveConflicts ?d ?f ?l ?o ?s ?tr] =>
      destruct (resolveConflicts_spec _ d f l o s tr)
        as (r & pre & cs & post & -> & Hpre & Hpost & Hcs & Herr)
  end.

Lemma isAbort_upstream (b : string) : isAbort ["upstream/" ++ b] = false.
Proof. reflexivity. Qed.

(** Compute the readings of an explicit list of events. *)
Ltac read_trace :=
  unfold marks, revListOutputs, statusOutputs, resolutions;
  repeat (progress (cbn [flat_map app markOf revListOutput statusOutput resolution succeeded];
                    rewrite ?flat_map_app));
  repeat match goal with
         | H : Forall (fun e => resolverStep e = true) ?l |- _ =>
             rewrite ?(steps_marks l H), ?(steps_revListOutputs l H),
               ?(steps_statusOutputs l H), ?(steps_resolutions l H);
             clear H
         | H : Forall (fun e => quiet e = true) ?l |- _ =>
             rewrite ?(quiet_marks l H), ?(quiet_revListOutputs l H),
               ?(quiet_statusOutputs l H), ?(quiet_resolutions l H);
             clear H
         end;
  cbn [markOf revListOutput statusOutput resolution succeeded app];
  rewrite ?isAbort_upstream;
  cbn [isAbort String.eqb Ascii.eqb Bool.eqb app].

Ltac leaf :=
  norm_app; eexists _, _; split; [reflexivity|]; split; [read_trace; reflexivity|];
  read_trace.

(** What the inner [catch] of [mergeUpstreamChanges] does, case by case. *)
Ltac conflict_cases o :=
  branch; simp;
  [ ask o; simp;
    [ match goal with
      | |- context [conflicted ?st] =>
          let files := fresh "files" in
          destruct st as [files]; cbn [conflicted];
          destruct files as [|f files]; cbn [length Nat.eqb]; simp
      end;
      [ leaf; econstructor; eapply no_conflicted_files; eassumption
      | let r := fresh "r" in
        let pre := fresh "pre" in
        let cs := fresh "cs" in
        let post := fresh "post" in
        let Hpre := fresh "Hpre" in
        let Hpost := fresh "Hpost" in
        let Hcs := fresh "Hcs" in
        let Herr := fresh "Herr" in
        use_resolver r pre cs post Hpre Hpost Hcs Herr; simp;
        branch; simp;
        [ destruct Hcs as [[_ Hnil]|(msg & rc & -> & Hrc & _)];
          [ discriminate (Hnil ltac:(assumption)) | ];
          destruct rc; cbn in Hrc; [|congruence];
          ask o; simp; leaf; econstructor;
          [ eapply resolved_pushed | eapply resolved_push_threw ];
          (eassumption || discriminate)
        | destruct (Herr ltac:(assumption)) as [e' He']; rewrite He';
          destruct Hcs as [[-> _]|(msg & rc & -> & Hrc & _)];
          [ | destruct rc; cbn in Hrc; [congruence|] ];
          ask o; simp; leaf; econstructor;
          first [ eapply (unresolved _ _ _ _ _ _ [])
                | eapply (unresolved _ _ _ _ _ _ [_]) ];
          first [ eassumption | discriminate | eauto ] ] ]
    | leaf; econstructor; eapply status_threw; eassumption ]
  | leaf; econstructor; eapply not_a_conflict; eassumption ].

Lemma mergeUpstreamChanges_shape L (repoDir : string) (account : Account) (config : Config)
    (o : oracle) (s : L) (tr : trace) :
  exists mr ext,
    mergeUpstreamChanges repoDir account config o s tr = (Ok mr, s, (tr ++ ext)%list)
    /\ revListOutputs ext = []
    /\ MergeShape account mr (marks ext) (statusOutputs ext) (resolutions ext).
Proof.
  unfold mergeUpstreamChanges, mergeUpstreamChanges_body; unfold_monad; simp.
  ask o; simp; [|leaf; constructor].
  ask o; simp; [|leaf; constructor].
  ask o; simp.
  - ask o; simp.
    + leaf; constructor.
    + conflict_cases o.
  - conflict_cases o.
Qed.
(** *** The steps of [syncRepository] *)

Ltac quiet_list :=
  repeat first [ apply Forall_nil
               | assumption
               | apply Forall_cons; [reflexivity|]
               | apply Forall_app; split ].

Lemma initializeRepository_spec L (repoFullName : string) (account : Account)
    (o : oracle) (s : L) (tr : trace) :
  exists b ext,
    initializeRepository repoFullName account o s tr = (Ok b, s, (tr ++ ext)%list)
    /\ Forall (fun e => quiet e = true) ext.
Proof.
  unfold initializeRepository; unfold_monad; simp.
  ask o; simp; [|eexists _, _; split; [close_trace | quiet_list]].
  destruct t; simp.
  - ask o; simp; [|eexists _, _; split; [close_trace | quiet_list]].
    destruct (find _ _); simp;
      repeat (ask o; simp); eexists _, _; (split; [close_trace | quiet_list]).
  - ask o; simp; [|eexists _, _; split; [close_trace | quiet_list]].
    ask o; simp; [|eexists _, _; split; [close_trace | quiet_list]].
    destruct (find _ _); simp;
      repeat (ask o; simp); eexists _, _; (split; [close_trace | quiet_list]).
Qed.

Lemma checkForUpstreamChanges_spec L (account : Account) (o : oracle) (s : L) (tr : trace) :
  exists r ext,
    checkForUpstreamChanges account o s tr = (r, s, (tr ++ ext)%list)
    /\ ((exists e, r = Threw e /\ Forall (fun e => quiet e = true) ext)
        \/ (exists txt q args,
               r = Ok (Nat.ltb 0 (String.length (JS.trimEnd txt)))
               /\ ext = (q ++ [Called (git_revList args) (Ok txt)])%list
               /\ Forall (fun e => quiet e = true) q)).
Proof.
  unfold checkForUpstreamChanges; unfold_monad; simp.
  ask o; simp.
  - ask o; simp.
    + eexists _, _; split; [close_trace|].
      right. eexists _, [_; _], _. split; [reflexivity|]. split; [reflexivity|]. quiet_list.
    + eexists _, _; split; [close_trace|]. left. eexists; split; [reflexivity|]. quiet_list.
  - eexists _, _; split; [close_trace|]. left. eexists; split; [reflexivity|]. quiet_list.
Qed.

Lemma postMergeTests_spec L (repoDir : string) (config : Config) (mr : MergeResult)
    (o : oracle) (s : L) (tr : trace) :
  exists ts ext,
    postMergeTests repoDir config mr o s tr
    = (Ok (mkMerge (merge_success mr) (merge_hadConflicts mr) (merge_usedLLM mr)
             (merge_message mr) (merge_error mr) ts), s, (tr ++ ext)%list)
    /\ Forall (fun e => quiet e = true) ext
    /\ (if runTestsAfterMerge config && merge_success mr
        then exists t, ts = Some t
        else ts = merge_testsStatus mr).
Proof.
  unfold postMergeTests; unfold_monad; simp.
  destruct (runTestsAfterMerge config && merge_success mr); simp.
  - ask o; simp; [destruct t; simp|];
      eexists _, _; (split; [close_trace | split; [quiet_list | eauto]]).
  - exists (merge_testsStatus mr), []. rewrite app_nil_r.
    destruct mr; cbn. repeat split; constructor.
Qed.

Lemma length_zero_empty (s : string) : Nat.ltb 0 (String.length s) = false -> s = "".
Proof. destruct s; [reflexivity | discriminate]. Qed.

Lemma length_pos_nonempty (s : string) : Nat.ltb 0 (String.length s) = true -> s <> "".
Proof. destruct s; [discriminate | discriminate]. Qed.

Lemma MergeShape_testsStatus account mr ms st rs :
  MergeShape account mr ms st rs -> merge_testsStatus mr = None.
Proof.
  intros H; destruct H as [m| |x mr rest st rs H|x mr rest st rs H];
    try reflexivity; destruct H; reflexivity.
Qed.

Ltac use_initialize b ext H :=
  match goal with
  | |- context [initializeRepository ?r ?a ?o ?s ?tr] =>
      destruct (initializeRepository_spec _ r a o s tr) as (b & ext & -> & H)
  end.

Ltac use_check r ext H :=
  match goal with
  | |- context [checkForUpstreamChanges ?a ?o ?s ?tr] =>
      destruct (checkForUpstreamChanges_spec _ a o s tr) as (r & ext & -> & H)
  end.

Ltac use_merge mr ext Hrev Hshape :=
  match goal with
  | |- context [mergeUpstreamChanges ?d ?a ?c ?o ?s ?tr] =>
      destruct (mergeUpstreamChanges_shape _ d a c o s tr) as (mr & ext & -> & Hrev & Hshape)
  end.

Ltac use_tests ts ext Hq Hts :=
  match goal with
  | |- context [postMergeTests ?d ?c ?m ?o ?s ?tr] =>
      destruct (postMergeTests_spec _ d c m o s tr) as (ts & ext & -> & Hq & Hts)
  end.

Ltac no_resolver_list :=
  repeat first [ apply Forall_nil
               | apply quiet_no_resolver; assumption
               | apply Forall_cons; [reflexivity|]
               | apply Forall_app; split ].

(** [syncRepository] from the call of [initializeRepository] on. *)
Ltac after_client o :=
  let b := fresh "b" in
  let ext := fresh "ext" in
  let Hq := fresh "Hq" in
  use_initialize b ext Hq; simp; destruct b; simp;
  [ let r := fresh "r" in
    let ext2 := fresh "ext" in
    let Hc := fresh "Hc" in
    let e := fresh "e" in
    let txt := fresh "txt" in
    let q := fresh "q" in
    let args := fresh "args" in
    let Hq2 := fresh "Hq" in
    use_check r ext2 Hc; simp;
    destruct Hc as [(e & -> & Hq2)|(txt & q & args & -> & -> & Hq2)]; simp;
    [ intros H; injection H as <- <-; apply sync_failed; quiet_list
    | let Hlen := fresh "Hlen" in
      destruct (Nat.ltb 0 (String.length (JS.trimEnd txt))) eqn:Hlen; simp;
      [ let mr := fresh "mr" in
        let mext := fresh "mext" in
        let Hrev := fresh "Hrev" in
        let Hshape := fresh "Hshape" in
        let ts := fresh "ts" in
        let text := fresh "text" in
        let Hq3 := fresh "Hq" in
        let Hts := fresh "Hts" in
        use_merge mr mext Hrev Hshape; simp;
        use_tests ts text Hq3 Hts; simp;
        intros H; injection H as <- <-;
        apply (sync_merged _ _ _ txt mr ts);
        [ unfold revListOutputs in Hrev; read_trace; rewrite Hrev; reflexivity
        | apply length_pos_nonempty; assumption
        | read_trace; rewrite ?app_nil_r; exact Hshape
        | unfold testsGate;
          rewrite (MergeShape_testsStatus _ _ _ _ _ Hshape) in Hts; exact Hts ]
      | intros H; injection H as <- <-;
        apply (sync_skipped _ _ _ txt);
        [ read_trace; reflexivity
        | apply length_zero_empty; assumption
        | read_trace; reflexivity
        | read_trace; reflexivity
        | read_trace; reflexivity
        | no_resolver_list ] ] ]
  | intros H; injection H as <- <-; apply sync_failed; quiet_list ].

(** Every run of [syncRepository] has one of the four shapes. *)
Lemma syncRepository_shape (repoFullName : string) (account : Account) (config : Config)
    (o : oracle) (out : result Outcome) (tr : trace) :
  run (syncRepository repoFullName account config) o = (out, tr) ->
  SyncShape repoFullName account config out tr.
Proof.
  unfold syncRepository; unfold_monad; simp.
  branch; simp.
  { intros H; injection H as <- <-. apply sync_failed. quiet_list. }
  ask o; simp; [|intros H; injection H as <- <-; apply sync_threw; quiet_list].
  destruct t; simp.
  - ask o; simp; [|intros H; injection H as <- <-; apply sync_threw; quiet_list].
    after_client o.
  - ask o; simp; [|intros H; injection H as <- <-; apply sync_threw; quiet_list].
    ask o; simp; [|intros H; injection H as <- <-; apply sync_threw; quiet_list].
    after_client o.
Qed.

(** ** The sync engine *)

Lemma startsWith_refl (s : string) : JS.startsWith s s = true.
Proof. induction s as [|c s IH]; cbn; [reflexivity|]. now rewrite Ascii.eqb_refl. Qed.

Lemma includes_append (prefix s : string) : JS.includes (prefix ++ s) s = true.
Proof.
  induction prefix as [|c p IH]; cbn.
  - destruct s; cbn; [reflexivity|]. now rewrite Ascii.eqb_refl, startsWith_refl.
  - rewrite IH. apply orb_true_r.
Qed.

Lemma ConflictShape_resolutions account x mr ms st rs files r :
  ConflictShape account x mr ms st rs -> In (files, r) rs -> rs = [(files, r)].
Proof.
  intros H Hin; destruct H; cbn in Hin; try contradiction;
    destruct Hin as [Heq|[]]; now rewrite Heq.
Qed.

(** C7. When the drift check finds no upstream commit that the fork branch
    lacks (the text that [git rev-list] returned is blank), [syncRepository]
    returns the outcome with [status=skipped] and [success=true], and the run
    contains no merge, no abort, no commit, no push, no reset, no call of the
    conflict resolver and none of the resolver's own calls. *)
Theorem no_drift_skips (repoFullName : string) (account : Account) (config : Config)
    (o : oracle) (out : result Outcome) (tr : trace) (txt : string) :
  run (syncRepository repoFullName account config) o = (out, tr) ->
  In txt (revListOutputs tr) ->
  JS.trimEnd txt = "" ->
  exists oc,
    out = Ok oc /\ status oc = skipped /\ success oc = true
    /\ marks tr = [] /\ resolutions tr = []
    /\ Forall (fun e => isResolverEvent e = false) tr.
Proof.
  intros Hrun Hin Hblank.
  destruct (syncRepository_shape _ _ _ _ _ _ Hrun)
    as [e tr Hq|msg tr Hq|txt' tr Hrev Hb Hm Hs Hr Hn|txt' mr ts tr Hrev Hb Hshape Hts].
  - unfold revListOutputs in Hin. rewrite (quiet_revListOutputs _ Hq) in Hin. contradiction.
  - unfold revListOutputs in Hin. rewrite (quiet_revListOutputs _ Hq) in Hin. contradiction.
  - eexists; repeat split; eauto.
  - rewrite Hrev in Hin. destruct Hin as [<-|[]]. contradiction.
Qed.

(** C5. When the resolver was called and reported failure, the outcome has
    [success=false], [status=error], [hadConflicts=true], [usedLLM=true], and
    its [error] text contains the error text of the resolver. *)
Theorem resolver_failure_outcome (repoFullName : string) (account : Account) (config : Config)
    (o : oracle) (out : result Outcome) (tr : trace)
    (files : list string) (r : ResolveResult) :
  run (syncRepository repoFullName account config) o = (out, tr) ->
  In (files, r) (resolutions tr) ->
  resolve_success r = false ->
  exists oc e m,
    out = Ok oc
    /\ success oc = false /\ status oc = error
    /\ hadConflicts oc = Some true /\ usedLLM oc = Some true
    /\ resolve_error r = Some e
    /\ outcome_error oc = Some m /\ JS.includes m e = true.
Proof.
  intros Hrun Hin Hfail.
  destruct (syncRepository_shape _ _ _ _ _ _ Hrun)
    as [e tr Hq|msg tr Hq|txt' tr Hrev Hb Hm Hs Hr Hn|txt' mr ts tr Hrev Hb Hshape Hts].
  - unfold resolutions in Hin. rewrite (quiet_resolutions _ Hq) in Hin. contradiction.
  - unfold resolutions in Hin. rewrite (quiet_resolutions _ Hq) in Hin. contradiction.
  - rewrite Hr in Hin. contradiction.
  - assert (Hc : exists x ms, ConflictShape account x mr ms (statusOutputs tr) (resolutions tr)).
    { destruct Hshape; try contradiction; eauto. }
    destruct Hc as (x & ms & Hc).
    pose proof (ConflictShape_resolutions _ _ _ _ _ _ _ _ Hc Hin) as Hrs.
    destruct Hc; try discriminate; injection Hrs as -> ->; try congruence.
    exists (mergedOutcome repoFullName account
              (mkMerge false true true (Some "Merge aborted due to unresolvable conflicts")
                 (Some ("Failed to resolve conflicts: " ++ e)) None) ts),
      e, ("Failed to resolve conflicts: " ++ e).
    repeat (split; [first [reflexivity | assumption]|]). apply includes_append.
Qed.


Lemma ConflictShape_no_merge account x mr ms st rs opts ok :
  ConflictShape account x mr ms st rs -> ~ In (Merge opts ok) ms.
Proof.
  intros H Hin;
    destruct H as [ | | | | |files r e head commits reset_ok Hx Hf Hs He Hcommits];
    cbn in Hin; try (intuition discriminate).
  apply in_app_or in Hin as [Hin|Hin];
    [destruct Hcommits as [->|[msg ->]]|]; cbn in Hin; intuition discriminate.
Qed.


(** C3, as amended.  When the merge threw and the resolver then reported
    success, the repository-changing calls of the run are, in this order, the
    merge that threw, one commit that returned and one push of the fork
    branch to [origin]; the outcome has [usedLLM=true] and [hadConflicts=true],
    and its [success] is [true] exactly when that push returned. *)
Theorem resolved_conflict_commit_then_push (repoFullName : string) (account : Account)
    (config : Config) (o : oracle) (out : result Outcome) (tr : trace)
    (files : list string) (r : ResolveResult) :
  run (syncRepository repoFullName account config) o = (out, tr) ->
  In (Merge (upstreamRef account) false) (marks tr) ->
  In (files, r) (resolutions tr) ->
  resolve_success r = true ->
  exists oc msg pushed,
    out = Ok oc
    /\ marks tr = [Merge (upstreamRef account) false; Commit msg true;
                   Push (originRef account) pushed]
    /\ usedLLM oc = Some true /\ hadConflicts oc = Some true
    /\ success oc = pushed
    /\ status oc = (if pushed then synced else error).
Proof.
  intros Hrun Hmerge Hin Hok.
  destruct (syncRepository_shape _ _ _ _ _ _ Hrun)
    as [e tr Hq|msg tr Hq|txt' tr Hrev Hb Hm Hs Hr Hn|txt' mr ts tr Hrev Hb Hshape Hts].
  - unfold resolutions in Hin. rewrite (quiet_resolutions _ Hq) in Hin. contradiction.
  - unfold resolutions in Hin. rewrite (quiet_resolutions _ Hq) in Hin. contradiction.
  - rewrite Hr in Hin. contradiction.
  - remember (marks tr) as ms eqn:Hms.
    destruct Hshape as [m| |x mr rest st rs Hc|x mr rest st rs Hc];
      try contradiction.
    + pose proof (ConflictShape_resolutions _ _ _ _ _ _ _ _ Hc Hin) as Hrs.
      destruct Hc; try discriminate; injection Hrs as -> ->; try congruence.
      * eexists _, _, true. repeat split.
      * eexists _, _, false. repeat split.
    + destruct Hmerge as [Heq|[Heq|Hrest]]; try discriminate.
      destruct (ConflictShape_no_merge _ _ _ _ _ _ _ _ Hc Hrest).
Qed.

Lemma ConflictShape_no_abort account x mr ms st rs ok :
  ConflictShape account x mr ms st rs -> ~ In (AbortMerge ok) ms.
Proof.
  intros H Hin;
    destruct H as [ | | | | |files r e head commits reset_ok Hx Hf Hs He Hcommits];
    cbn in Hin; try (intuition discriminate).
  apply in_app_or in Hin as [Hin|Hin];
    [destruct Hcommits as [->|[msg ->]]|]; cbn in Hin; intuition discriminate.
Qed.

(** No run of [syncRepository] calls [git.merge(['--abort'])]. *)
Lemma never_aborts (repoFullName : string) (account : Account) (config : Config)
    (o : oracle) (out : result Outcome) (tr : trace) (ok : bool) :
  run (syncRepository repoFullName account config) o = (out, tr) ->
  ~ In (AbortMerge ok) (marks tr).
Proof.
  intros Hrun Hin.
  destruct (syncRepository_shape _ _ _ _ _ _ Hrun)
    as [e tr Hq|msg tr Hq|txt' tr Hrev Hb Hm Hs Hr Hn|txt' mr ts tr Hrev Hb Hshape Hts].
  - unfold marks in Hin. rewrite (quiet_marks _ Hq) in Hin. contradiction.
  - unfold marks in Hin. rewrite (quiet_marks _ Hq) in Hin. contradiction.
  - rewrite Hm in Hin. contradiction.
  - remember (marks tr) as ms eqn:Hms.
    destruct Hshape as [m| |x mr rest st rs Hc|x mr rest st rs Hc]; cbn in Hin.
    + contradiction.
    + intuition discriminate.
    + destruct Hin as [Heq|Hrest]; [discriminate|].
      exact (ConflictShape_no_abort _ _ _ _ _ _ _ Hc Hrest).
    + destruct Hin as [Heq|[Heq|Hrest]]; try discriminate.
      exact (ConflictShape_no_abort _ _ _ _ _ _ _ Hc Hrest).
Qed.

(** After a failed resolution the only repository-changing call left is the
    hard reset to the recorded head, and whether it returned or threw does not
    show in the outcome. *)
Lemma resolver_failure_resets (repoFullName : string) (account : Account) (config : Config)
    (o : oracle) (out : result Outcome) (tr : trace)
    (files : list string) (r : ResolveResult) :
  run (syncRepository repoFullName account config) o = (out, tr) ->
  In (files, r) (resolutions tr) ->
  resolve_success r = false ->
  exists before head reset_ok e ts,
    marks tr = (before ++ [Reset ["--hard"; head] reset_ok])%list
    /\ (forall ok, ~ In (AbortMerge ok) before)
    /\ resolve_error r = Some e
    /\ out = Ok (mergedOutcome repoFullName account
                   (mkMerge false true true (Some "Merge aborted due to unresolvable conflicts")
                      (Some ("Failed to resolve conflicts: " ++ e)) None) ts).
Proof.
  intros Hrun Hin Hfail.
  pose proof (fun ok => never_aborts _ _ _ _ _ _ ok Hrun) as Hno.
  destruct (syncRepository_shape _ _ _ _ _ _ Hrun)
    as [e tr Hq|msg tr Hq|txt' tr Hrev Hb Hm Hs Hr Hn|txt' mr ts tr Hrev Hb Hshape Hts].
  - unfold resolutions in Hin. rewrite (quiet_resolutions _ Hq) in Hin. contradiction.
  - unfold resolutions in Hin. rewrite (quiet_resolutions _ Hq) in Hin. contradiction.
  - rewrite Hr in Hin. contradiction.
  - remember (marks tr) as ms eqn:Hms.
    destruct Hshape as [m| |x mr rest st rs Hc|x mr rest st rs Hc];
      try contradiction;
      pose proof (ConflictShape_resolutions _ _ _ _ _ _ _ _ Hc Hin) as Hrs;
      destruct Hc; try discriminate; injection Hrs as -> ->; try congruence.
    + exists (Merge (upstreamRef account) false :: commits), head, reset_ok, e, ts.
      repeat split; try assumption.
      intros ok Hb'. apply (Hno ok). rewrite app_comm_cons. apply in_or_app. now left.
    + exists (Merge (upstreamRef account) true :: Push (originRef account) false :: commits),
        head, reset_ok, e, ts.
      repeat split; try assumption.
      intros ok Hb'. apply (Hno ok). rewrite !app_comm_cons. apply in_or_app. now left.
Qed.

(** When [git.status] lists no conflicted file after a conflict, nothing is
    aborted or reset, and the error text is that of the outer [catch]. *)
Lemma empty_status_outcome (repoFullName : string) (account : Account) (config : Config)
    (o : oracle) (out : result Outcome) (tr : trace) :
  run (syncRepository repoFullName account config) o = (out, tr) ->
  In [] (statusOutputs tr) ->
  (marks tr = [Merge (upstreamRef account) false]
   \/ marks tr = [Merge (upstreamRef account) true; Push (originRef account) false])
  /\ out = Ok (mergedOutcome repoFullName account
                 (mergeFailure true false "Failed to identify conflicted files") None).
Proof.
  intros Hrun Hin.
  destruct (syncRepository_shape _ _ _ _ _ _ Hrun)
    as [e tr Hq|msg tr Hq|txt' tr Hrev Hb Hm Hs Hr Hn|txt' mr ts tr Hrev Hb Hshape Hts].
  - unfold statusOutputs in Hin. rewrite (quiet_statusOutputs _ Hq) in Hin. contradiction.
  - unfold statusOutputs in Hin. rewrite (quiet_statusOutputs _ Hq) in Hin. contradiction.
  - rewrite Hs in Hin. contradiction.
  - assert (ts = None) as ->.
    { unfold testsGate in Hts.
      destruct Hshape as [m| |x mr rest st rs Hc|x mr rest st rs Hc]; try contradiction;
        destruct Hc; cbn in Hin; try contradiction;
        try (destruct Hin as [Heq|[]]; subst; congruence);
        cbn in Hts; rewrite andb_false_r in Hts; exact Hts. }
    remember (marks tr) as ms eqn:Hms.
    destruct Hshape as [m| |x mr rest st rs Hc|x mr rest st rs Hc]; try contradiction;
      destruct Hc; cbn in Hin; try contradiction;
      try (destruct Hin as [Heq|[]]; subst; congruence); auto.
Qed.


(** ** The batch orchestrator *)

Ltac extends_leaf := norm_app; eexists _, _; reflexivity.

Ltac extends_after_client o :=
  let b := fresh "b" in
  let ext := fresh "ext" in
  let Hq := fresh "Hq" in
  use_initialize b ext Hq; simp; destruct b; simp;
  [ let r := fresh "r" in
    let ext2 := fresh "ext" in
    let Hc := fresh "Hc" in
    let e := fresh "e" in
    let txt := fresh "txt" in
    let q := fresh "q" in
    let args := fresh "args" in
    let Hq2 := fresh "Hq" in
    use_check r ext2 Hc; simp;
    destruct Hc as [(e & -> & Hq2)|(txt & q & args & -> & -> & Hq2)]; simp;
    [ extends_leaf
    | destruct (Nat.ltb 0 (String.length (JS.trimEnd txt))); simp;
      [ let mr := fresh "mr" in
        let mext := fresh "mext" in
        let Hrev := fresh "Hrev" in
        let Hshape := fresh "Hshape" in
        let ts := fresh "ts" in
        let text := fresh "text" in
        let Hq3 := fresh "Hq" in
        let Hts := fresh "Hts" in
        use_merge mr mext Hrev Hshape; simp;
        use_tests ts text Hq3 Hts; simp;
        extends_leaf
      | extends_leaf ] ]
  | extends_leaf ].

(** [syncRepository] only adds events to the history it starts from. *)
Lemma syncRepository_extends L (repoFullName : string) (account : Account) (config : Config)
    (o : oracle) (s : L) (tr : trace) :
  exists r ext,
    syncRepository repoFullName account config o s tr = (r, s, (tr ++ ext)%list).
Proof.
  unfold syncRepository; unfold_monad; simp.
  branch; simp; [extends_leaf|].
  ask o; simp; [|extends_leaf].
  destruct t; simp.
  - ask o; simp; [|extends_leaf].
    extends_after_client o.
  - ask o; simp; [|extends_leaf].
    ask o; simp; [|extends_leaf].
    extends_after_client o.
Qed.

Lemma processRepository_spec (config : Config) (account : Account) (results : Results)
    (repo : string) (o : oracle) (tr : trace) :
  let '(r, _, after) := syncRepository repo account config o tt tr in
  exists ext,
    processRepository config account results repo o tt tr
    = (Ok (tally results (recorded repo account r)), tt, (after ++ ext)%list).
Proof.
  unfold processRepository, tally; unfold_monad.
  destruct (syncRepository repo account config o tt tr) as [[r []] after].
  destruct r as [d|e]; simp.
  - exists []. rewrite app_nil_r. cbn [recorded].
    destruct (success d); [destruct (status d)|]; reflexivity.
  - eexists [_]. reflexivity.
Qed.

Lemma processedIn_extend config o final final' p d :
  processedIn config o final p d -> (exists rest, final' = (final ++ rest)%list) ->
  processedIn config o final' p d.
Proof.
  intros (before & H) (rest & ->). exists before.
  destruct (syncRepository (snd p) (fst p) config o tt before) as [[r u] after].
  destruct H as (-> & rest' & ->). split; [reflexivity|].
  exists (rest' ++ rest)%list. now rewrite app_assoc.
Qed.

Lemma processRepositories_spec (config : Config) (account : Account) (repos : list string)
    (results : Results) (o : oracle) (tr : trace) :
  exists ds ext,
    processRepositories config account results repos o tt tr
    = (Ok (fold_left tally ds results), tt, (tr ++ ext)%list)
    /\ Forall2 (processedIn config o (tr ++ ext)%list) (map (pair account) repos) ds.
Proof.
  revert results tr; induction repos as [|repo rest IH]; intros results tr; cbn.
  - exists [], []. rewrite app_nil_r. split; [reflexivity | constructor].
  - unfold bind at 1.
    pose proof (processRepository_spec config account results repo o tr) as Hone.
    destruct (syncRepository_extends unit repo account config o tt tr) as (r & ext0 & Hsync).
    rewrite Hsync in Hone. destruct Hone as (ext1 & ->).
    destruct (IH (tally results (recorded repo account r)) ((tr ++ ext0) ++ ext1)%list)
      as (ds & ext & -> & Hall).
    exists (recorded repo account r :: ds), (ext0 ++ ext1 ++ ext)%list.
    rewrite !app_assoc in *. split; [reflexivity|].
    constructor; [|exact Hall].
    exists tr. cbn [fst snd]. rewrite Hsync. split; [reflexivity|].
    exists (ext1 ++ ext)%list. now rewrite !app_assoc.
Qed.


Lemma tally_details results d : details (tally results d) = (details results ++ [d])%list.
Proof. unfold tally; destruct (success d); [destruct (status d)|]; reflexivity. Qed.

Lemma tally_balanced results d : balanced results -> balanced (tally results d).
Proof.
  unfold balanced, countFailed, countStatus. intros (Hf & Hs & Hk & Hb).
  unfold tally; destruct (success d) eqn:Hd; [destruct (status d) eqn:Hst|];
    cbn [failedRepos syncedRepos skippedRepos results_success details];
    rewrite !filter_app, !length_app, forallb_app; cbn [filter forallb];
    rewrite Hd, ?Hst; cbn [negb andb length]; rewrite ?andb_true_r, ?andb_false_r;
    repeat split; lia || assumption || reflexivity.
Qed.

Lemma fold_tally ds results :
  balanced results ->
  balanced (fold_left tally ds results)
  /\ details (fold_left tally ds results) = (details results ++ ds)%list.
Proof.
  revert results; induction ds as [|d ds IH]; intros results Hb; cbn.
  - now rewrite app_nil_r.
  - destruct (IH (tally results d) (tally_balanced _ d Hb)) as (Hb' & Hd).
    split; [exact Hb'|]. rewrite Hd, tally_details, <- app_assoc. reflexivity.
Qed.

Lemma processAccounts_spec (config : Config) (options : Options) (accs : list Account)
    (results : Results) (o : oracle) (tr : trace) :
  exists ds ext,
    processAccounts config options results accs o tt tr
    = (Ok (fold_left tally ds results), tt, (tr ++ ext)%list)
    /\ Forall2 (processedIn config o (tr ++ ext)%list)
         (flat_map (fun account => map (pair account) (selectRepos options account)) accs) ds.
Proof.
  revert results tr; induction accs as [|account rest IH]; intros results tr;
    cbn [processAccounts flat_map].
  - exists [], []. rewrite app_nil_r. split; [reflexivity | constructor].
  - unfold_monad; simp.
    destruct (selectRepos options account) as [|repo repos] eqn:Hsel; cbn [length Nat.eqb]; simp.
    + destruct (IH results ((tr ++ [Logged info ("Processing account: " ++ account_name account) None])
                              ++ [Logged warn ("No repositories found matching filter: "
                                               ++ JS.show (repoFilter options) ++ " for account: "
                                               ++ account_name account) None])%list)
        as (ds & ext & Heq & Hall).
      rewrite Heq. eexists ds, (_ :: _ :: ext)%list.
      rewrite <- !app_assoc in *. cbn [app map] in *. split; [reflexivity | exact Hall].
    + destruct (processRepositories_spec config account (repo :: repos) results o
                  (tr ++ [Logged info ("Processing account: " ++ account_name account) None])%list)
        as (ds1 & ext1 & Heq1 & Hall1).
      rewrite Heq1; simp.
      destruct (IH (fold_left tally ds1 results)
                  ((tr ++ [Logged info ("Processing account: " ++ account_name account) None])
                   ++ ext1)%list) as (ds2 & ext2 & Heq2 & Hall2).
      rewrite Heq2.
      exists (ds1 ++ ds2)%list, (Logged info ("Processing account: " ++ account_name account) None
                                 :: ext1 ++ ext2)%list.
      rewrite fold_left_app. rewrite <- !app_assoc in *. cbn [app] in *.
      split; [reflexivity|].
      apply Forall2_app; [|exact Hall2].
      eapply Forall2_impl; [|exact Hall1].
      intros p d Hp. eapply processedIn_extend; [exact Hp|].
      exists ext2. now rewrite <- !app_assoc.
Qed.

(** C2.  [startSync] throws only where [configureLogger] throws, which is
    before any account is looked at: that call is then the whole trace.  With
    no account selected it returns the refusal.  Otherwise its summary has one
    detail per selected repository pair, in order: for each pair
    [syncRepository] was run, and the detail is the outcome it returned or,
    when it threw, the outcome with [status=error], [success=false] and the
    message of what it threw (see [recorded]) -- a throw never keeps a later
    pair from being processed.  [failedRepos] is the number of details with
    [success=false], the other two counters count the successes by status,
    and the overall [success] is [true] exactly when every detail has
    [success=true]. *)
Theorem batch_isolation (config : Config) (options : Options) (o : oracle) :
  match run (startSync config options) o with
  | (Ok (Summary results), tr) =>
      selectAccounts config options <> []
      /\ Forall2 (processedIn config o tr) (selectedPairs config options) (details results)
      /\ failedRepos results = countFailed (details results)
      /\ syncedRepos results = countStatus synced (details results)
      /\ skippedRepos results = countStatus skipped (details results)
      /\ results_success results = forallb success (details results)
  | (Ok (Refused _), _) => selectAccounts config options = []
  | (Threw e, tr) =>
      logOptions config = true /\ tr = [Called configureLogger (Threw e)]
  end.
Proof.
  unfold startSync, selectedPairs; unfold_monad; simp.
  assert (Hinit : balanced (mkResults true 0 0 0 [])) by (repeat split).
  destruct (logOptions config); simp; [ask o; simp; [|split; reflexivity]|];
    (destruct (selectAccounts config options) as [|account accs] eqn:Hsel;
     cbn [length Nat.eqb]; simp; [reflexivity|]);
    match goal with
    | |- context [processAccounts ?c ?op ?r ?a ?o ?s ?tr] =>
        destruct (processAccounts_spec c op a r o tr) as (ds & ext & -> & Hall)
    end;
    destruct (fold_tally ds _ Hinit) as ((Hf & Hs & Hk & Hb) & Hd);
    cbn [details app] in Hd; simp;
    (destruct (email config && _); simp; [ask o; simp|]);
    (split; [discriminate|]); rewrite Hd in *;
    (split; [eapply Forall2_impl; [|exact Hall]; intros p d Hp;
             eapply processedIn_extend; [exact Hp|]; eexists; norm_app; reflexivity
           | auto]).
Qed.


(** ** The resolver on an empty list *)

(** C10, as amended.  Called with an empty list of files, [resolveConflicts]
    returns, sends no request to the text-generation client and makes no
    commit.  Its result is [{ success: true }] when [initializeLLMClient]
    returns, and the initialisation failure when [initializeLLMClient]
    throws. *)
Theorem empty_list_resolution (repoDir : string) (llmConfig : option LlmConfig) (o : oracle) :
  exists r tr,
    run (resolveConflicts repoDir [] llmConfig) o = (Ok r, tr)
    /\ Forall (fun e => isGenerateText e = false) tr
    /\ marks tr = []
    /\ match initializeLLMClient llmConfig o tt
               [Logged info "Attempting to resolve conflicts in files: " None] with
       | (Ok _, _, _) => r = mkResolve true None
       | (Threw e, _, _) =>
           r = mkResolve false (Some ("LLM client initialization failed: " ++ message e))
       end.
Proof.
  unfold resolveConflicts, initializeLLMClient; unfold_monad; simp.
  change ("Attempting to resolve conflicts in files: " ++ JS.join ", " [])
    with "Attempting to resolve conflicts in files: ".
  cbn [resolveFiles length Nat.ltb Nat.leb Nat.eqb andb app].
  destruct llmConfig as [c|]; simp; cbn [app].
  - destruct (JS.truthyOpt (llm_apiKey c) && JS.truthyOpt (llm_provider c)
              && JS.truthyOpt (llm_model c)); simp; cbn [app].
    + destruct (String.eqb _ _); simp; cbn [app].
      * ask o; simp; cbn [app]; eexists _, _; (split; [reflexivity|]);
          (split; [repeat constructor | split; reflexivity]).
      * eexists _, _; (split; [reflexivity|]);
          (split; [repeat constructor | split; reflexivity]).
    + eexists _, _; (split; [reflexivity|]);
        (split; [repeat constructor | split; reflexivity]).
  - eexists _, _; (split; [reflexivity|]);
      (split; [repeat constructor | split; reflexivity]).
Qed.

(** ** Initialisation *)

(** [initializeRepository] returns; it never sets the URL of a remote, it
    clones only when [git.checkIsRepo] answered [false], and it adds the
    [upstream] remote only when [git.getRemotes] listed none. *)
Lemma initializeRepository_remotes L (repoFullName : string) (account : Account)
    (o : oracle) (s : L) (tr : trace) :
  exists b ext,
    initializeRepository repoFullName account o s tr = (Ok b, s, (tr ++ ext)%list)
    /\ (forall name url, ~ In (RemoteUrlSet name url) (remoteChanges ext))
    /\ (forall url, In (Cloned url) (remoteChanges ext) ->
                    o bool tr git_checkIsRepo = Ok false).
Proof.
  unfold initializeRepository; unfold_monad; simp.
  destruct (o bool tr git_checkIsRepo) as [isRepo|e]; simp.
  - destruct isRepo; simp.
    + ask o; simp; [destruct (find _ _); simp; repeat (ask o; simp)|];
        eexists _, _; (split; [close_trace|]);
        (split; [intros name url; cbn; intuition discriminate
                | intros url; cbn; intuition discriminate]).
    + ask o; simp;
        [ask o; simp; [destruct (find _ _); simp; repeat (ask o; simp)|]|];
        eexists _, _; (split; [close_trace|]);
        (split; [intros name url; cbn; intuition discriminate
                | intros url; cbn; intuition]).
  - eexists _, _; (split; [close_trace|]);
        (split; [intros name url; cbn; intuition discriminate
                | intros url; cbn; intuition discriminate]).
Qed.

(** ** The later copy of the controller *)

(** In the later copy, an existing working copy has the URL of [origin] set
    first, an [upstream] remote with another URL has its URL set to the
    expected one, and a clone happens only when there is no working copy. *)
Lemma revised_initializeRepository_remotes L (forkRepoName forkBranch upstreamRepoName : string)
    (account : Account) (o : oracle) (s : L) (tr : trace) :
  let originUrl := "https://" ++ token account ++ "@github.com/" ++ forkRepoName ++ ".git" in
  let expected := "https://github.com/" ++ upstreamRepoName ++ ".git" in
  exists b ext,
    revised_initializeRepository forkRepoName forkBranch upstreamRepoName account o s tr
    = (Ok b, s, (tr ++ ext)%list)
    /\ (o bool tr git_checkIsRepo = Ok true ->
        exists rest, remoteChanges ext = RemoteUrlSet "origin" originUrl :: rest
                     /\ (forall url, ~ In (Cloned url) rest))
    /\ (o bool tr git_checkIsRepo = Ok false ->
        exists rest, remoteChanges ext = Cloned originUrl :: rest)
    /\ (forall url, In (Cloned url) (remoteChanges ext) ->
                    o bool tr git_checkIsRepo = Ok false).
Proof.
  unfold revised_initializeRepository; unfold_monad; simp.
  destruct (o bool tr git_checkIsRepo) as [isRepo|e]; simp.
  - destruct isRepo; simp.
    + ask o; simp;
        [ask o; simp;
         [destruct (find _ _); simp; [branch; simp|]; repeat (ask o; simp)|]|];
        eexists _, _; (split; [close_trace|]);
        (split; [intros _; eexists; split; [reflexivity|];
                 intros url; cbn; intuition discriminate|]);
        (split; [discriminate | intros url; cbn; intuition discriminate]).
    + ask o; simp;
        [ask o; simp;
         [destruct (find _ _); simp; [branch; simp|]; repeat (ask o; simp)|]|];
        eexists _, _; (split; [close_trace|]);
        (split; [discriminate|]);
        (split; [intros _; eexists; reflexivity | intros url; cbn; intuition]).
  - eexists _, _; (split; [close_trace|]);
      (split; [discriminate|]); (split; [discriminate|]).
    intros url; cbn; intuition discriminate.
Qed.


Lemma resolverStep_revParseOutput e : resolverStep e = true -> revParseOutput e = [].
Proof. destruct e as [T c r| |]; cbn; try discriminate; try reflexivity; destruct c; cbn; congruence. Qed.

Lemma steps_revParseOutputs (l : trace) :
  Forall (fun e => resolverStep e = true) l -> flat_map revParseOutput l = [].
Proof. apply flat_map_nil_of_Forall, resolverStep_revParseOutput. Qed.

Ltac read_all :=
  unfold rollback, marks, revListOutputs, statusOutputs, resolutions, revParseOutputs;
  repeat (progress (cbn [flat_map app markOf revListOutput statusOutput resolution
                             revParseOutput succeeded];
                    rewrite ?flat_map_app));
  repeat match goal with
         | H : Forall (fun e => resolverStep e = true) ?l |- _ =>
             rewrite ?(steps_marks l H), ?(steps_revListOutputs l H),
               ?(steps_statusOutputs l H), ?(steps_resolutions l H),
               ?(steps_revParseOutputs l H);
             clear H
         end;
  cbn [markOf revListOutput statusOutput resolution revParseOutput succeeded app];
  rewrite ?isAbort_upstream;
  cbn [isAbort String.eqb Ascii.eqb Bool.eqb app filter isRollback].

Ltac rollback_leaf :=
  norm_app; eexists _, _; split; [reflexivity|]; split;
  [ let Hin := fresh "Hin" in
    let Hfail := fresh "Hfail" in
    intros ? ? Hin Hfail; revert Hin; read_all; intros Hin;
    first [ contradiction
          | destruct Hin as [Hin|[]]; injection Hin as <- <-;
            first [ congruence
                  | eexists; split; [reflexivity|];
                    first [ left; reflexivity | right; eexists; reflexivity ] ] ]
  | let Hin := fresh "Hin" in
    intros Hin; revert Hin; read_all; intros Hin;
    first [ contradiction
          | destruct Hin as [Hin|[]];
            first [ discriminate
                  | left; split; reflexivity
                  | right; split; reflexivity ] ] ].

(** What the inner [catch] of the later [mergeUpstreamChanges] does. *)
Ltac revised_conflict_cases o :=
  branch; simp;
  [ ask o; simp;
    [ match goal with
      | |- context [conflicted ?st] =>
          let files := fresh "files" in
          destruct st as [files]; cbn [conflicted];
          destruct files as [|f files]; cbn [length Nat.eqb]; simp
      end;
      [ branch; simp; ask o; simp; rollback_leaf
      | let r := fresh "r" in
        let pre := fresh "pre" in
        let cs := fresh "cs" in
        let post := fresh "post" in
        let Hpre := fresh "Hpre" in
        let Hpost := fresh "Hpost" in
        let Hcs := fresh "Hcs" in
        let Herr := fresh "Herr" in
        use_resolver r pre cs post Hpre Hpost Hcs Herr; simp;
        destruct Hcs as [[-> _]|(msg & rc & -> & _ & _)];
        (branch; simp;
         [ ask o; simp; [ask o; simp|]; rollback_leaf
         | ask o; simp; [|ask o; simp]; rollback_leaf ]) ]
    | rollback_leaf ]
  | rollback_leaf ].

Lemma revised_mergeUpstreamChanges_rollback L (repoDir forkBranch upstreamBranch : string)
    (config : Config) (o : oracle) (s : L) (tr : trace) :
  exists mr ext,
    revised_mergeUpstreamChanges repoDir forkBranch upstreamBranch config o s tr
    = (Ok mr, s, (tr ++ ext)%list)
    /\ (forall files r,
           In (files, r) (resolutions ext) -> resolve_success r = false ->
           exists head,
             revParseOutputs ext = [head]
             /\ (rollback ext = [AbortMerge true]
                 \/ exists ok, rollback ext = [AbortMerge false; Reset ["--hard"; head] ok]))
    /\ (In [] (statusOutputs ext) ->
        (rollback ext = [AbortMerge true]
         /\ merge_error mr = Some "Failed to identify conflicted files for resolution.")
        \/ (rollback ext = [AbortMerge false] /\ merge_success mr = false)).
Proof.
  unfold revised_mergeUpstreamChanges, revised_mergeUpstreamChanges_body; unfold_monad; simp.
  ask o; simp; [|rollback_leaf].
  ask o; simp; [|rollback_leaf].
  ask o; simp.
  - ask o; simp.
    + rollback_leaf.
    + revised_conflict_cases o.
  - revised_conflict_cases o.
Qed.

(** ** Repository names and branch identifiers *)

Lemma append_nil_r s : s ++ "" = s.
Proof. induction s; simpl; congruence. Qed.

Lemma append_assoc (a b c : string) : (a ++ b) ++ c = a ++ b ++ c.
Proof. induction a; simpl; congruence. Qed.

Lemma append_eq_nil (a b : string) : a ++ b = "" -> a = "" /\ b = "".
Proof. destruct a; simpl; [auto|discriminate]. Qed.

Lemma chr_matches c s : matches (Chr c) s <-> s = String c "".
Proof. split; [inversion 1; auto|intros ->; constructor]. Qed.

Lemma seq_matches r1 r2 s :
  matches (Seq r1 r2) s <-> exists s1 s2, s = s1 ++ s2 /\ matches r1 s1 /\ matches r2 s2.
Proof.
  split.
  - inversion 1; subst; eauto.
  - intros (s1 & s2 & -> & H1 & H2). constructor; auto.
Qed.

Lemma nullable_matches r : nullable r = true <-> matches r "".
Proof.
  induction r; simpl.
  - split; [discriminate|inversion 1].
  - split; [constructor|auto].
  - split; [discriminate|inversion 1].
  - split; [discriminate|inversion 1].
  - rewrite andb_true_iff, IHr1, IHr2. split.
    + intros [A B]. apply (m_seq _ _ "" ""); auto.
    + inversion 1; subst. match goal with H : _ ++ _ = "" |- _ => apply append_eq_nil in H as [-> ->] end. auto.
  - rewrite orb_true_iff, IHr1, IHr2. split.
    + intros [A|B]; [apply m_alt_l|apply m_alt_r]; auto.
    + inversion 1; subst; auto.
  - split; [constructor|auto].
Qed.

Lemma star_cons r a s :
  matches (Star r) (String a s) ->
  exists s1 s2, s = s1 ++ s2 /\ matches r (String a s1) /\ matches (Star r) s2.
Proof.
  intros H. remember (Star r) as q eqn:Eq. remember (String a s) as t eqn:Et.
  revert Eq Et. induction H; try discriminate.
  intros Eq Et. injection Eq as ->. destruct s1 as [|b s1]; simpl in Et.
  - apply IHmatches2; auto.
  - injection Et as -> <-. exists s1, s2. auto.
Qed.

Lemma deriv_matches r : forall a s, matches (deriv a r) s <-> matches r (String a s).
Proof.
  induction r; intros a s; simpl.
  - split; inversion 1.
  - split; inversion 1.
  - destruct (Ascii.eqb a c) eqn:E.
    + apply Ascii.eqb_eq in E. subst. split.
      * inversion 1. constructor.
      * inversion 1. constructor.
    + apply Ascii.eqb_neq in E. split; inversion 1. congruence.
  - destruct (Ascii.eqb a c) eqn:E.
    + apply Ascii.eqb_eq in E. subst. split; inversion 1. congruence.
    + apply Ascii.eqb_neq in E. split.
      * inversion 1. constructor; auto.
      * inversion 1. constructor.
  - assert (A : matches (Seq (deriv a r1) r2) s \/ (nullable r1 = true /\ matches (deriv a r2) s)
                <-> matches (Seq r1 r2) (String a s)).
    { split.
      - intros [H|[N H]].
        + apply seq_matches in H as (s1 & s2 & -> & H1 & H2). apply IHr1 in H1.
          change (String a (s1 ++ s2)) with (String a s1 ++ s2). constructor; auto.
        + apply IHr2 in H. apply nullable_matches in N.
          change (String a s) with ("" ++ String a s). constructor; auto.
      - intros H. apply seq_matches in H as (s1 & s2 & E & H1 & H2).
        destruct s1 as [|b s1]; simpl in E.
        + right. subst s2. split; [apply nullable_matches; auto|apply IHr2; auto].
        + injection E as -> ->. left. constructor; auto. apply IHr1; auto. }
    destruct (nullable r1).
    + rewrite <- A. split.
      * inversion 1; subst; auto.
      * intros [H|[_ H]]; [apply m_alt_l|apply m_alt_r]; auto.
    + rewrite <- A. split; auto. intros [H|[N _]]; [auto|discriminate].
  - split.
    + inversion 1; subst; [apply m_alt_l; apply IHr1|apply m_alt_r; apply IHr2]; auto.
    + inversion 1; subst; [apply m_alt_l; apply IHr1|apply m_alt_r; apply IHr2]; auto.
  - split.
    + intros H. apply seq_matches in H as (s1 & s2 & -> & H1 & H2). apply IHr in H1.
      change (String a (s1 ++ s2)) with (String a s1 ++ s2). constructor; auto.
    + intros H. apply star_cons in H as (s1 & s2 & -> & H1 & H2).
      constructor; auto. apply IHr; auto.
Qed.

Lemma regexTest_matches r s : regexTest r s = true <-> matches r s.
Proof.
  revert r. induction s as [|a s IH]; intros r; simpl.
  - apply nullable_matches.
  - rewrite IH. apply deriv_matches.
Qed.

Lemma count_app c a b : JS.count c (a ++ b) = JS.count c a + JS.count c b.
Proof. induction a; simpl; auto. rewrite IHa. lia. Qed.

(** [[^c]*] and [[^c]+] *)
Lemma star_notchr c s : matches (Star (NotChr c)) s <-> JS.count c s = 0.
Proof.
  split.
  - intros H. remember (Star (NotChr c)) as q eqn:Eq. revert Eq.
    induction H; try discriminate; auto.
    intros Eq. injection Eq as ->. rewrite count_app, IHmatches2 by auto.
    inversion H; subst. simpl. destruct (Ascii.eqb c d) eqn:E; auto.
    apply Ascii.eqb_eq in E. congruence.
  - induction s as [|d s IH]; simpl; [constructor|].
    destruct (Ascii.eqb c d) eqn:E; [discriminate|]. intros H.
    change (String d s) with (String d "" ++ s). constructor; auto.
    constructor. apply Ascii.eqb_neq in E. congruence.
Qed.

Lemma plus_notchr c s : matches (Plus (NotChr c)) s <-> s <> "" /\ JS.count c s = 0.
Proof.
  unfold Plus. split.
  - intros H. apply seq_matches in H as (s1 & s2 & -> & H1 & H2).
    inversion H1; subst. apply star_notchr in H2. simpl.
    split; [discriminate|]. destruct (Ascii.eqb c d) eqn:E; auto.
    apply Ascii.eqb_eq in E. congruence.
  - intros [N H]. destruct s as [|d s]; [congruence|]. simpl in H.
    destruct (Ascii.eqb c d) eqn:E; [discriminate|].
    change (String d s) with (String d "" ++ s). constructor.
    + constructor. apply Ascii.eqb_neq in E. congruence.
    + apply star_notchr; auto.
Qed.

(** The pieces of [s.split(sep)]. *)
Lemma split_no_sep c s : JS.count c s = 0 -> JS.split c s = [s].
Proof.
  induction s as [|d s IH]; simpl; auto.
  rewrite (Ascii.eqb_sym d c). destruct (Ascii.eqb c d) eqn:E; [intros H; discriminate H|].
  intros H. rewrite IH; auto.
Qed.

Lemma split_app c a b :
  JS.count c a = 0 -> JS.split c (a ++ String c b) = a :: JS.split c b.
Proof.
  induction a as [|d a IH]; simpl.
  - rewrite Ascii.eqb_refl. auto.
  - rewrite (Ascii.eqb_sym d c). destruct (Ascii.eqb c d) eqn:E; [intros H; discriminate H|].
    intros H. rewrite IH; auto.
Qed.

Lemma split_cons c s : exists p ps, JS.split c s = p :: ps.
Proof.
  induction s as [|d s (p & ps & IH)]; simpl; eauto.
  destruct (Ascii.eqb d c); eauto. rewrite IH. eauto.
Qed.

Lemma split_one c s n : JS.split c s = [n] -> s = n /\ JS.count c n = 0.
Proof.
  revert n. induction s as [|e s IH]; intros n; simpl.
  - intros H; injection H as <-; auto.
  - rewrite (Ascii.eqb_sym e c). destruct (Ascii.eqb c e) eqn:E.
    + destruct (split_cons c s) as (p & ps & S). rewrite S. discriminate.
    + destruct (JS.split c s) as [|p ps] eqn:S.
      * destruct (split_cons c s) as (p & ps & S'). congruence.
      * intros H. injection H as <- ->. destruct (IH p eq_refl) as [-> Hc].
        simpl. rewrite E. auto.
Qed.

Lemma split_two c s o n :
  JS.split c s = [o; n] ->
  s = o ++ String c n /\ JS.count c o = 0 /\ JS.count c n = 0.
Proof.
  revert o. induction s as [|d s IH]; intros o; simpl; [discriminate|].
  rewrite (Ascii.eqb_sym d c).
  destruct (Ascii.eqb c d) eqn:E.
  - apply Ascii.eqb_eq in E. subst d. intros H. injection H as <- H.
    apply split_one in H as [-> H]. simpl. auto.
  - destruct (JS.split c s) as [|p ps] eqn:S; [discriminate|].
    intros H. injection H as <- ->. destruct (IH p eq_refl) as (-> & Ho & Hn).
    simpl. rewrite E. auto.
Qed.

Lemma repoRegex_matches s :
  regexTest repoRegex s = true
  <-> exists owner name,
        s = owner ++ "/" ++ name
        /\ owner <> "" /\ JS.count "/" owner = 0
        /\ name <> "" /\ JS.count "/" name = 0.
Proof.
  rewrite regexTest_matches. unfold repoRegex. rewrite seq_matches. split.
  - intros (s1 & s2 & -> & H1 & H2). apply seq_matches in H2 as (s3 & s4 & -> & H3 & H4).
    apply chr_matches in H3 as ->. apply plus_notchr in H1 as [? ?], H4 as [? ?].
    exists s1, s4. auto.
  - intros (o & n & -> & ? & ? & ? & ?). exists o, ("/" ++ n). split; auto.
    split; [apply plus_notchr; auto|]. apply seq_matches. exists "/", n.
    split; auto. split; [constructor|apply plus_notchr; auto].
Qed.

(** X4. A repository name passes the pattern of [validateConfig]
    ([src/src/config.js]) exactly when [split('/')] cuts it into two pieces
    and neither piece is empty. *)
Theorem accepted_repository_names (repo : string) :
  regexTest repoRegex repo = true
  <-> exists owner repoName,
        JS.split "/" repo = [owner; repoName] /\ owner <> "" /\ repoName <> "".
Proof.
  rewrite repoRegex_matches. split.
  - intros (o & n & -> & ? & ? & ? & ?). exists o, n. split; auto.
    simpl. rewrite split_app, split_no_sep; auto.
  - intros (o & n & H & ? & ?). apply split_two in H as (-> & ? & ?).
    exists o, n. auto.
Qed.

(** X5. An identifier passes the pattern of [validateConfig]
    ([src/unnamed/part_003]) exactly when it reads [owner/repo:branch] with an
    owner and a repository part that are not empty and hold no slash, and a
    branch that is not empty and holds no colon. *)
Theorem accepted_branch_identifiers (s : string) :
  regexTest repoBranchRegex s = true
  <-> exists owner repo branch,
        s = owner ++ "/" ++ repo ++ ":" ++ branch
        /\ owner <> "" /\ JS.count "/" owner = 0
        /\ repo <> "" /\ JS.count "/" repo = 0
        /\ branch <> "" /\ JS.count ":" branch = 0.
Proof.
  rewrite regexTest_matches. unfold repoBranchRegex. rewrite seq_matches. split.
  - intros (s1 & s2 & -> & H1 & H2). apply seq_matches in H2 as (s3 & s4 & -> & H3 & H4).
    apply seq_matches in H4 as (s5 & s6 & -> & H5 & H6).
    apply seq_matches in H6 as (s7 & s8 & -> & H7 & H8).
    apply chr_matches in H3 as ->, H7 as ->.
    apply plus_notchr in H1 as [? ?], H5 as [? ?], H8 as [? ?].
    exists s1, s5, s8. auto 10.
  - intros (o & r & b & -> & ? & ? & ? & ? & ? & ?).
    exists o, ("/" ++ r ++ ":" ++ b). split; auto.
    split; [apply plus_notchr; auto|]. apply seq_matches. exists "/", (r ++ ":" ++ b).
    split; auto. split; [constructor|]. apply seq_matches. exists r, (":" ++ b).
    split; auto. split; [apply plus_notchr; auto|]. apply seq_matches. exists ":", b.
    split; auto. split; [constructor|apply plus_notchr; auto].
Qed.

(** ** What every outcome and every summary satisfies *)

(** [syncRepository] from the call of [initializeRepository] on, with the
    tactic that closes each way out. *)
Ltac each_way_out o leaf :=
  let b := fresh "b" in
  let ext := fresh "ext" in
  let Hq := fresh "Hq" in
  use_initialize b ext Hq; simp; destruct b; simp;
  [ let r := fresh "r" in
    let ext2 := fresh "ext" in
    let Hc := fresh "Hc" in
    let e := fresh "e" in
    let txt := fresh "txt" in
    let q := fresh "q" in
    let args := fresh "args" in
    let Hq2 := fresh "Hq" in
    use_check r ext2 Hc; simp;
    destruct Hc as [(e & -> & Hq2)|(txt & q & args & -> & -> & Hq2)]; simp;
    [ leaf
    | destruct (Nat.ltb 0 (String.length (JS.trimEnd txt))); simp;
      [ let mr := fresh "mr" in
        let mext := fresh "mext" in
        let Hrev := fresh "Hrev" in
        let Hshape := fresh "Hshape" in
        let ts := fresh "ts" in
        let text := fresh "text" in
        let Hq3 := fresh "Hq" in
        let Hts := fresh "Hts" in
        use_merge mr mext Hrev Hshape; simp;
        use_tests ts text Hq3 Hts; simp;
        leaf
      | leaf ] ]
  | leaf ].

Ltac outcome_leaf :=
  norm_app; eexists _, _; split;
  [ reflexivity
  | try reflexivity;
    unfold coherent; cbn;
    match goal with |- context [merge_success ?mr] => destruct (merge_success mr) end;
    reflexivity ].

Ltac format_leaf := eexists _, _, _; close_trace.

Lemma syncRepository_outcome L (repoFullName : string) (account : Account) (config : Config)
    (o : oracle) (s : L) (tr : trace) :
  exists r ext,
    syncRepository repoFullName account config o s tr = (r, s, (tr ++ ext)%list)
    /\ match r with
       | Ok d => coherent d = true
       | Threw _ => True
       end.
Proof.
  unfold syncRepository; unfold_monad; simp.
  branch; simp; [outcome_leaf|].
  ask o; simp; [|outcome_leaf].
  destruct t; simp.
  - ask o; simp; [|outcome_leaf].
    each_way_out o outcome_leaf.
  - ask o; simp; [|outcome_leaf].
    ask o; simp; [|outcome_leaf].
    each_way_out o outcome_leaf.
Qed.

Lemma processedIn_coherent config o final p d :
  processedIn config o final p d -> coherent d = true.
Proof.
  intros (before & H).
  destruct (syncRepository_outcome unit (snd p) (fst p) config o tt before)
    as (r & ext & Heq & Hr).
  rewrite Heq in H. destruct H as (-> & _).
  destruct r; [exact Hr | reflexivity].
Qed.

Lemma coherent_counts (ds : list Outcome) :
  Forall (fun d => coherent d = true) ds ->
  countStatus synced ds + countStatus skipped ds + countFailed ds = length ds.
Proof.
  unfold countStatus, countFailed.
  induction 1 as [|d ds Hd _ IH]; [reflexivity|].
  cbn [filter length]. unfold coherent in Hd.
  destruct (success d), (status d); try discriminate Hd; cbn [negb andb length]; lia.
Qed.

(** X7. In the summary of [startSync] every detail is coherent: its
    [success] is [true] exactly when its [status] is [synced] or [skipped].
    So no detail falls through the [switch] of the loop: the three counters
    add up to the number of details, which is the number of selected
    repository pairs. *)
Theorem counters_add_up (config : Config) (options : Options) (o : oracle) :
  match run (startSync config options) o with
  | (Ok (Summary results), _) =>
      Forall (fun d => coherent d = true) (details results)
      /\ syncedRepos results + skippedRepos results + failedRepos results
         = length (details results)
      /\ length (details results) = length (selectedPairs config options)
  | _ => True
  end.
Proof.
  unfold startSync, selectedPairs; unfold_monad; simp.
  assert (Hinit : balanced (mkResults true 0 0 0 [])) by (repeat split).
  destruct (logOptions config); simp; [ask o; simp; [|exact I]|];
    (destruct (selectAccounts config options) as [|account accs] eqn:Hsel;
     cbn [length Nat.eqb]; simp; [exact I|]);
    match goal with
    | |- context [processAccounts ?c ?op ?r ?a ?o ?s ?tr] =>
        destruct (processAccounts_spec c op a r o tr) as (ds & ext & -> & Hall)
    end;
    destruct (fold_tally ds _ Hinit) as ((Hf & Hs & Hk & Hb) & Hd);
    cbn [details app] in Hd; simp;
    (destruct (email config && _); simp; [ask o; simp|]);
    rewrite Hd in *;
    (assert (Hco : Forall (fun d => coherent d = true) ds)
       by (clear - Hall; induction Hall; constructor;
           [eapply processedIn_coherent; eassumption | assumption]));
    (split; [exact Hco|]);
    (split; [rewrite Hf, Hs, Hk; apply coherent_counts; exact Hco
            | symmetry; eapply Forall2_length; exact Hall]).
Qed.

(** X8. The verdict of the tests never changes an outcome of
    [syncRepository]: an outcome carries a [testsStatus] only where
    [runTestsAfterMerge] is set and the merge succeeded, and it is then a
    success with status [synced] whatever the verdict; and with
    [runTestsAfterMerge] set every [synced] outcome carries a verdict. *)
Theorem tests_verdict_keeps_status (repoFullName : string) (account : Account)
    (config : Config) (o : oracle) :
  match run (syncRepository repoFullName account config) o with
  | (Ok d, _) =>
      (testsStatus d <> None ->
       runTestsAfterMerge config = true /\ success d = true /\ status d = synced)
      /\ (runTestsAfterMerge config = true /\ status d = synced -> testsStatus d <> None)
  | (Threw _, _) => True
  end.
Proof.
  destruct (run (syncRepository repoFullName account config) o) as [r tr] eqn:Hrun.
  pose proof (syncRepository_shape repoFullName account config o r tr Hrun) as Hshape.
  inversion Hshape as [e tr' Hq|msg tr' Hq|txt tr' Hrev Htxt Hm Hst Hrs Hres
                       |txt mr ts tr' Hrev Htxt Hm Hgate]; subst; try exact I.
  - split; [intros H; now elim H | intros (_ & H); discriminate H].
  - split; [intros H; now elim H | intros (_ & H); discriminate H].
  - unfold testsGate in Hgate. cbn.
    destruct (runTestsAfterMerge config), (merge_success mr); cbn in Hgate;
      try destruct Hgate as (t & ->); subst; (split; [intros H|intros (H1 & H2)]);
      try (now elim H); try discriminate; auto.
Qed.

Ltac idle_list :=
  repeat first [ apply Forall_nil
               | assumption
               | apply Forall_cons; [reflexivity|]
               | apply Forall_app; split ].

Ltac idle_leaf := eexists _, _; (split; [close_trace | idle_list]).

Lemma initializeRepository_idle L (repoFullName : string) (account : Account)
    (o : oracle) (s : L) (tr : trace) :
  exists b ext,
    initializeRepository repoFullName account o s tr = (Ok b, s, (tr ++ ext)%list)
    /\ Forall (fun e => mergeWork e = false) ext.
Proof.
  unfold initializeRepository; unfold_monad; simp.
  ask o; simp; [|idle_leaf].
  destruct t; simp.
  - ask o; simp; [|idle_leaf].
    destruct (find _ _); simp; repeat (ask o; simp); idle_leaf.
  - ask o; simp; [|idle_leaf].
    ask o; simp; [|idle_leaf].
    destruct (find _ _); simp; repeat (ask o; simp); idle_leaf.
Qed.

Lemma checkForUpstreamChanges_idle L (account : Account) (o : oracle) (s : L) (tr : trace) :
  exists r ext,
    checkForUpstreamChanges account o s tr = (r, s, (tr ++ ext)%list)
    /\ Forall (fun e => mergeWork e = false) ext.
Proof.
  unfold checkForUpstreamChanges; unfold_monad; simp.
  ask o; simp; [|idle_leaf].
  ask o; simp; idle_leaf.
Qed.

(** A run of [syncRepository] that does not reach the merge. *)
Ltac idle_after_client o :=
  let b := fresh "b" in
  let ext := fresh "ext" in
  let Hi := fresh "Hi" in
  match goal with
  | |- context [initializeRepository ?r ?a ?o ?s ?tr] =>
      destruct (initializeRepository_idle _ r a o s tr) as (b & ext & -> & Hi)
  end; simp; destruct b; simp;
  [ let r := fresh "r" in
    let ext2 := fresh "ext" in
    let Hc := fresh "Hc" in
    match goal with
    | |- context [checkForUpstreamChanges ?a ?o ?s ?tr] =>
        destruct (checkForUpstreamChanges_idle _ a o s tr) as (r & ext2 & -> & Hc)
    end; simp;
    destruct r as [[|]|e]; simp;
    [ let mr := fresh "mr" in
      let mext := fresh "mext" in
      let Hrev := fresh "Hrev" in
      let Hshape := fresh "Hshape" in
      let ts := fresh "ts" in
      let text := fresh "text" in
      let Hq := fresh "Hq" in
      let Hts := fresh "Hts" in
      use_merge mr mext Hrev Hshape; simp;
      use_tests ts text Hq Hts; simp;
      eexists _, _; (split; [close_trace | intros H; discriminate H])
    | eexists _, _; (split; [close_trace | intros _; idle_list])
    | eexists _, _; (split; [close_trace | intros _; idle_list]) ]
  | eexists _, _; (split; [close_trace | intros _; idle_list]) ].

Lemma syncRepository_idle L (repoFullName : string) (account : Account) (config : Config)
    (o : oracle) (s : L) (tr : trace) :
  exists r ext,
    syncRepository repoFullName account config o s tr = (r, s, (tr ++ ext)%list)
    /\ match r with
       | Ok d => hadConflicts d = None -> Forall (fun e => mergeWork e = false) ext
       | Threw _ => Forall (fun e => mergeWork e = false) ext
       end.
Proof.
  unfold syncRepository; unfold_monad; simp.
  branch; simp; [eexists _, _; (split; [close_trace | intros _; idle_list])|].
  ask o; simp; [|idle_leaf].
  destruct t; simp.
  - ask o; simp; [|idle_leaf].
    idle_after_client o.
  - ask o; simp; [|idle_leaf].
    ask o; simp; [|idle_leaf].
    idle_after_client o.
Qed.

(** X9. When [syncRepository] throws, or returns an outcome without the
    field [hadConflicts], nothing was merged: the run made no call of
    [git.merge], [git.status], [git.commit], [git.push] or [git.reset],
    neither one that returned nor one that threw, and it has no event of the
    resolver. *)
Theorem no_merge_details_no_merge (repoFullName : string) (account : Account)
    (config : Config) (o : oracle) :
  match run (syncRepository repoFullName account config) o with
  | (Ok d, tr) => hadConflicts d = None -> Forall (fun e => mergeWork e = false) tr
  | (Threw _, tr) => Forall (fun e => mergeWork e = false) tr
  end.
Proof.
  unfold run.
  destruct (syncRepository_idle unit repoFullName account config o tt [])
    as (r & ext & -> & H).
  exact H.
Qed.

Lemma syncRepository_after_format_check L (owner repoName : string) (account : Account)
    (config : Config) (o : oracle) (s : L) (tr : trace) :
  owner <> "" -> repoName <> "" -> JS.count "/" owner = 0 -> JS.count "/" repoName = 0 ->
  exists r answer rest,
    syncRepository (owner ++ "/" ++ repoName) account config o s tr
    = (r, s, (tr ++ Logged info "Starting sync process" None
                 :: Called (fs_existsSync (path_resolve cwd (reposBaseDir config))) answer
                 :: rest)%list).
Proof.
  intros Ho Hn Hco Hcn.
  assert (Hsplit : JS.split "/" (owner ++ "/" ++ repoName) = [owner; repoName])
    by (simpl; rewrite split_app, split_no_sep; auto).
  apply String.eqb_neq in Ho, Hn.
  unfold syncRepository. rewrite Hsplit. unfold nth_error, JS.truthyOpt, JS.truthy.
  rewrite Ho, Hn. unfold_monad; simp.
  ask o; simp; [|format_leaf].
  destruct t; simp.
  - ask o; simp; [|format_leaf].
    each_way_out o format_leaf.
  - ask o; simp; [|format_leaf].
    ask o; simp; [|format_leaf].
    each_way_out o format_leaf.
Qed.

(** X6. A repository name that passes the pattern of [validateConfig]
    ([src/src/config.js]) also passes the format check of [syncRepository]:
    after the first log line the run asks whether the base directory
    exists, whatever the collaborators answer. *)
Theorem validated_name_passes_format_check (repoFullName : string) (account : Account)
    (config : Config) (o : oracle) :
  regexTest repoRegex repoFullName = true ->
  exists r answer rest,
    run (syncRepository repoFullName account config) o
    = (r, Logged info "Starting sync process" None
          :: Called (fs_existsSync (path_resolve cwd (reposBaseDir config))) answer
          :: rest).
Proof.
  intros Hre. apply repoRegex_matches in Hre as (owner & name & -> & Ho & Hco & Hn & Hcn).
  destruct (syncRepository_after_format_check unit owner name account config o tt []
              Ho Hn Hco Hcn) as (r & answer & rest & Heq).
  exists r, answer, rest. unfold run. rewrite Heq. reflexivity.
Qed.

End Engine.

(** * Worked examples

    The runs below use the sample collaborators: the working copy of
    [user/fork] exists, the account tracks [upstream/main] on branch [dev]. *)

Abbreviation sampleSync sc :=
  (run (syncRepository "/srv" joinPath joinPath "user/fork" sampleAccount sampleConfig)
       (scripted sc)).

Abbreviation sampleRevisedMerge sc :=
  (run (revised_mergeUpstreamChanges joinPath "/srv/repositories/acme-user-fork"
          "dev" "main" sampleConfig)
       (scripted sc)).

Lemma no_drift_skips_witness :
  In "" (revListOutputs (snd (sampleSync upToDate)))
  /\ JS.trimEnd "" = ""
  /\ exists oc,
       fst (sampleSync upToDate) = Ok oc /\ status oc = skipped /\ success oc = true
       /\ marks (snd (sampleSync upToDate)) = []
       /\ resolutions (snd (sampleSync upToDate)) = []
       /\ Forall (fun e => isResolverEvent e = false) (snd (sampleSync upToDate)).
Proof.
  split; [vm_compute; auto|]. split; [reflexivity|].
  apply (no_drift_skips "/srv" joinPath joinPath "user/fork" sampleAccount sampleConfig
           (scripted upToDate)
           (fst (sampleSync upToDate)) (snd (sampleSync upToDate)) "").
  - vm_compute; reflexivity.
  - vm_compute; auto.
  - reflexivity.
Defined.

Lemma resolver_failure_outcome_witness :
  In (["src/app.js"], mkResolve false (Some "LLM failed to resolve all conflicts."))
     (resolutions (snd (sampleSync conflictUnresolved)))
  /\ exists oc e m,
       fst (sampleSync conflictUnresolved) = Ok oc
       /\ success oc = false /\ status oc = error
       /\ hadConflicts oc = Some true /\ usedLLM oc = Some true
       /\ Some "LLM failed to resolve all conflicts." = Some e
       /\ outcome_error oc = Some m /\ JS.includes m e = true.
Proof.
  split; [vm_compute; auto|].
  apply (resolver_failure_outcome "/srv" joinPath joinPath "user/fork" sampleAccount
           sampleConfig (scripted conflictUnresolved)
           (fst (sampleSync conflictUnresolved)) (snd (sampleSync conflictUnresolved)) ["src/app.js"]
           (mkResolve false (Some "LLM failed to resolve all conflicts."))).
  - vm_compute; reflexivity.
  - vm_compute; auto.
  - reflexivity.
Defined.



(** C3, counterexample.  The merge throws a conflict, the resolver commits
    and reports success, and the push is rejected: [success] is [false]. *)
Lemma push_rejected_after_resolution :
  marks (snd (sampleSync conflictResolvedPushRejected))
  = [Merge ["upstream/main"] false;
     Commit "Automated merge conflict resolution by LLM for 1 file(s)" true;
     Push ["origin"; "dev"] false]
  /\ resolutions (snd (sampleSync conflictResolvedPushRejected))
     = [(["src/app.js"], mkResolve true None)]
  /\ exists oc,
       fst (sampleSync conflictResolvedPushRejected) = Ok oc
       /\ success oc = false /\ status oc = error /\ usedLLM oc = Some true.
Proof.
  split; [reflexivity|]. split; [reflexivity|]. eexists. repeat split.
Qed.

Lemma resolved_conflict_commit_then_push_witness :
  In (Merge (upstreamRef sampleAccount) false) (marks (snd (sampleSync conflictResolved)))
  /\ In (["src/app.js"], mkResolve true None) (resolutions (snd (sampleSync conflictResolved)))
  /\ exists oc msg pushed,
       fst (sampleSync conflictResolved) = Ok oc
       /\ marks (snd (sampleSync conflictResolved))
          = [Merge (upstreamRef sampleAccount) false; Commit msg true;
             Push (originRef sampleAccount) pushed]
       /\ usedLLM oc = Some true /\ hadConflicts oc = Some true
       /\ success oc = pushed
       /\ status oc = (if pushed then synced else error).
Proof.
  split; [vm_compute; auto|]. split; [vm_compute; auto|].
  apply (resolved_conflict_commit_then_push "/srv" joinPath joinPath "user/fork"
           sampleAccount sampleConfig (scripted conflictResolved)
           (fst (sampleSync conflictResolved)) (snd (sampleSync conflictResolved))
           ["src/app.js"] (mkResolve true None)).
  - vm_compute; reflexivity.
  - vm_compute; auto.
  - vm_compute; auto.
  - reflexivity.
Defined.

(** C1, on the failing input.  After a failed resolution the controller
    goes straight to the hard reset: no [git.merge(['--abort'])] is made.
    When the reset throws as well, the outcome is the one of a successful
    rollback; the failure only adds a line to the log. *)
Theorem rollback_skips_abort :
  resolutions (snd (sampleSync conflictUnresolved))
  = [(["src/app.js"], mkResolve false (Some "LLM failed to resolve all conflicts."))]
  /\ rollback (snd (sampleSync conflictUnresolved)) = [Reset ["--hard"; "4f2a9c1"] true]
  /\ rollback (snd (sampleSync conflictUnresolvedNoRollback))
     = [Reset ["--hard"; "4f2a9c1"] false]
  /\ fst (sampleSync conflictUnresolvedNoRollback) = fst (sampleSync conflictUnresolved)
  /\ errorLogs (snd (sampleSync conflictUnresolvedNoRollback))
     = (errorLogs (snd (sampleSync conflictUnresolved)) ++ ["Failed to roll back changes:"])%list.
Proof. repeat split. Qed.

(** The later copy of the controller, on the same inputs: the abort comes
    first, and the reset only after the abort threw. *)
Lemma revised_rollback_aborts_first :
  rollback (snd (sampleRevisedMerge conflictUnresolved)) = [AbortMerge true]
  /\ rollback (snd (sampleRevisedMerge conflictUnresolvedNoRollback))
     = [AbortMerge false; Reset ["--hard"; "4f2a9c1"] false]
  /\ fst (sampleRevisedMerge conflictUnresolvedNoRollback)
     = fst (sampleRevisedMerge conflictUnresolved).
Proof. repeat split. Qed.

(** C4, on the failing input.  The merge throws a conflict and [git.status]
    lists no conflicted file: nothing is aborted or reset, and the error text
    is the one of the outer [catch]. *)
Theorem empty_status_leaves_merge_open :
  statusOutputs (snd (sampleSync conflictWithoutFiles)) = [[]]
  /\ marks (snd (sampleSync conflictWithoutFiles)) = [Merge ["upstream/main"] false]
  /\ rollback (snd (sampleSync conflictWithoutFiles)) = []
  /\ resolutions (snd (sampleSync conflictWithoutFiles)) = []
  /\ fst (sampleSync conflictWithoutFiles)
     = Ok (mkOutcome "user/fork" "acme" false error (Some true) (Some false) None None
             (Some "Failed to merge: Failed to identify conflicted files")).
Proof. repeat split. Qed.

(** The later copy of the controller, on the same input: the merge is
    aborted and the error text ends with a full stop. *)
Lemma revised_empty_status_aborts :
  rollback (snd (sampleRevisedMerge conflictWithoutFiles)) = [AbortMerge true]
  /\ resolutions (snd (sampleRevisedMerge conflictWithoutFiles)) = []
  /\ exists mr,
       fst (sampleRevisedMerge conflictWithoutFiles) = Ok mr
       /\ merge_success mr = false
       /\ merge_error mr = Some "Failed to identify conflicted files for resolution.".
Proof. split; [reflexivity|]. split; [reflexivity|]. eexists. repeat split. Qed.

(** C9, on the failing input.  The working copy exists and its [upstream]
    remote points elsewhere: [initializeRepository] changes no remote. *)
Theorem existing_copy_keeps_remote_urls :
  run (initializeRepository "user/fork" sampleAccount) (scripted cleanRun)
  = (Ok true,
     [Called git_checkIsRepo (Ok true);
      Logged info "Repository already exists locally" None;
      Called git_getRemotes (Ok sampleRemotes);
      Logged info "Fetching from remotes" None;
      Called (git_fetch ["--all"]) (Ok tt)])
  /\ remoteChanges (snd (run (initializeRepository "user/fork" sampleAccount)
                            (scripted cleanRun))) = [].
Proof. split; reflexivity. Qed.

(** The later copy of the controller, on the same input. *)
Lemma revised_existing_copy_sets_remote_urls :
  remoteChanges
    (snd (run (revised_initializeRepository "user/fork" "dev" "up/repo" sampleAccount)
              (scripted cleanRun)))
  = [RemoteUrlSet "origin" "https://tok@github.com/user/fork.git";
     RemoteUrlSet "upstream" "https://github.com/up/repo.git"].
Proof. reflexivity. Qed.

(** C10, counterexample.  With a provider other than [openai] the resolver
    reports a failure for an empty list of files. *)
Lemma unsupported_provider_empty_list :
  fst (run (resolveConflicts joinPath "/srv/repositories/acme-user-fork" []
              (Some (mkLlm (Some "anthropic") (Some "sk-test") (Some "gpt-4") None)))
           (scripted cleanRun))
  = Ok (mkResolve false
          (Some "LLM client initialization failed: Unsupported LLM provider: anthropic. Currently, only 'openai' is supported.")).
Proof. reflexivity. Qed.

(** C6, on the failing input.  An identifier with two colons passes the
    check of [validateConfig]; the later controller copy then reads branch
    [a] from it. *)
Theorem two_colons_accepted :
  regexTest repoBranchRegex "owner/repo:a:b" = true
  /\ JS.count ":" "owner/repo:a:b" = 2
  /\ (forall stringify,
        validateRepos stringify
          [mkEntry (Some "upstream/repo:main") (Some "owner/repo:a:b")] = Ok tt)
  /\ parseRepoBranchString "owner/repo:a:b" = (Some "owner/repo", Some "a").
Proof. repeat split. Qed.

(** A colon is also accepted before the slash. *)
Lemma colon_before_slash_accepted :
  regexTest repoBranchRegex "a:b/c:d" = true /\ JS.count ":" "a:b/c:d" = 2.
Proof. split; reflexivity. Qed.

(** The older copy of the check takes repositories without a branch, and
    lets colons through as well. *)
Lemma older_check_accepts :
  regexTest repoRegex "owner/repo" = true
  /\ regexTest repoRegex "owner/repo:a:b" = true
  /\ regexTest repoRegex "owner/repo/extra" = false.
Proof. repeat split. Qed.

(** The identifiers that the configuration tests reject are rejected. *)
Lemma malformed_identifiers_rejected :
  regexTest repoBranchRegex "owner/repo" = false
  /\ regexTest repoBranchRegex "owner/repo:" = false
  /\ regexTest repoBranchRegex ":branchA" = false
  /\ regexTest repoBranchRegex "owner/repo:main" = true.
Proof. repeat split. Qed.

(** A batch of two pairs whose pushes are both rejected: both are
    processed, both count as failed, and the batch is not a success. *)
Lemma rejected_pushes_batch :
  exists results tr,
    run (startSync "/srv" joinPath joinPath sampleConfig (mkOptions None None))
        (scripted pushRejected) = (Ok (Summary results), tr)
    /\ failedRepos results = 2 /\ syncedRepos results = 0 /\ skippedRepos results = 0
    /\ results_success results = false
    /\ map status (details results) = [error; error].
Proof. eexists _, _. split; [vm_compute; reflexivity|]. repeat split. Qed.

(** [configureLogger] is called outside every [try]: when it throws,
    [startSync] throws before it looks at an account. *)
Lemma logger_failure_stops_batch :
  run (startSync "/srv" joinPath joinPath loggingConfig (mkOptions None None))
      (brokenLogger cleanRun)
  = (Threw (mkError "EACCES: permission denied, mkdir '/var/log/sync'"),
     [Called configureLogger
        (Threw (mkError "EACCES: permission denied, mkdir '/var/log/sync'"))]).
Proof. reflexivity. Qed.

Lemma validated_name_passes_format_check_witness :
  regexTest repoRegex "user/fork" = true
  /\ exists r answer rest,
       sampleSync cleanRun
       = (r, Logged info "Starting sync process" None
             :: Called (fs_existsSync (joinPath "/srv" (reposBaseDir sampleConfig))) answer
             :: rest).
Proof.
  split; [reflexivity|].
  apply (validated_name_passes_format_check "/srv" joinPath joinPath "user/fork" sampleAccount
           sampleConfig (scripted cleanRun)).
  reflexivity.
Defined.

(** * Properties of the modules around the controller *)

(** ** Reasoning about runs *)

Ltac sys_unfold :=
  unfold Sys.run, Sys.bind, Sys.try_catch, Sys.ret, Sys.throw, Sys.get, Sys.put,
    Sys.log, Sys.call, Sys.ask, Sys.lift in *.

(** Case analysis on the next answer of the world. *)
Ltac sys_answer w :=
  match goal with
  | |- context [Sys.answer w ?T ?tr ?c] =>
      lazymatch tr with
      | context [Sys.answer _ _ _ _] => fail
      | context [Sys.reply _ _ _ _] => fail
      | _ => let r := fresh "r" in generalize (Sys.answer w T tr c); intros r; destruct r
      end
  end.

Ltac sys_reply w :=
  match goal with
  | |- context [Sys.reply w ?T ?tr ?q] =>
      lazymatch tr with
      | context [Sys.answer _ _ _ _] => fail
      | context [Sys.reply _ _ _ _] => fail
      | _ => let a := fresh "a" in generalize (Sys.reply w T tr q); intros a
      end
  end.

Ltac sys_branch :=
  match goal with
  | |- context [if ?b then _ else _] =>
      let H := fresh "Hcond" in
      assert (H : {b = true} + {b = false}) by (clear; destruct b; auto);
      destruct H as [H|H]; rewrite H
  end.

Ltac sys_answer_as w v e :=
  match goal with
  | |- context [Sys.answer w ?T ?tr ?c] =>
      lazymatch tr with
      | context [Sys.answer _ _ _ _] => fail
      | context [Sys.reply _ _ _ _] => fail
      | _ => let r := fresh "r" in
             generalize (Sys.answer w T tr c); intros r; destruct r as [v|e]
      end
  end.

Ltac sys_reply_as w a :=
  match goal with
  | |- context [Sys.reply w ?T ?tr ?q] =>
      lazymatch tr with
      | context [Sys.answer _ _ _ _] => fail
      | context [Sys.reply _ _ _ _] => fail
      | _ => generalize (Sys.reply w T tr q); intros a
      end
  end.

(** ** Helper utilities *)

Lemma replaceUnsafe_length s : String.length (replaceUnsafe s) = String.length s.
Proof. induction s; simpl; congruence. Qed.

Lemma replaceUnsafe_safe s : forallb isFileNameChar (Json.chars (replaceUnsafe s)) = true.
Proof.
  induction s as [|c s IH]; simpl; auto.
  rewrite IH, andb_true_r. destruct (isFileNameChar c) eqn:E; auto.
Qed.

Lemma sanitize_eq s : sanitizeForFileSystem s = replaceUnsafe s.
Proof. destruct s; reflexivity. Qed.

(** X1. [sanitizeForFileSystem] keeps the length of its argument, and every
    character of its result is a letter, a digit, [_] or [-]. *)
Theorem sanitized_name_is_safe (inputString : string) :
  String.length (sanitizeForFileSystem inputString) = String.length inputString
  /\ forallb isFileNameChar (Json.chars (sanitizeForFileSystem inputString)) = true.
Proof. rewrite sanitize_eq. split; [apply replaceUnsafe_length | apply replaceUnsafe_safe]. Qed.

Lemma replaceUnsafe_fix s : replaceUnsafe s = s <-> forallb isFileNameChar (Json.chars s) = true.
Proof.
  induction s as [|c s IH]; simpl; [tauto|].
  split.
  - intros H. injection H as Hc Hs. apply IH in Hs. rewrite Hs, andb_true_r.
    destruct (isFileNameChar c) eqn:E; auto. subst c. discriminate E.
  - intros H. apply andb_true_iff in H as [Hc Hs]. rewrite Hc. f_equal. apply IH; auto.
Qed.

(** X2. [sanitizeForFileSystem] returns its argument unchanged exactly when
    every character of the argument is a letter, a digit, [_] or [-]; applying
    it to its own result changes nothing. *)
Theorem sanitize_fixes_safe_names (inputString : string) :
  (sanitizeForFileSystem inputString = inputString
   <-> forallb isFileNameChar (Json.chars inputString) = true)
  /\ sanitizeForFileSystem (sanitizeForFileSystem inputString)
     = sanitizeForFileSystem inputString.
Proof.
  rewrite !sanitize_eq. split; [apply replaceUnsafe_fix|].
  apply replaceUnsafe_fix, replaceUnsafe_safe.
Qed.

Lemma trimEnd_empty s : JS.trimEnd s = "" <-> forallb JS.isWhiteSpace (Json.chars s) = true.
Proof.
  induction s as [|c s IH]; simpl; [tauto|].
  destruct (JS.trimEnd s) eqn:E.
  - destruct (JS.isWhiteSpace c); simpl.
    + split; intros _; auto. apply IH; auto.
    + split; discriminate.
  - split; [discriminate|]. intros H. apply andb_true_iff in H as [_ H].
    apply IH in H. discriminate.
Qed.

Lemma trimStart_all s :
  forallb JS.isWhiteSpace (Json.chars (JS.trimStart s)) = forallb JS.isWhiteSpace (Json.chars s).
Proof.
  induction s as [|c s IH]; simpl; auto.
  destruct (JS.isWhiteSpace c) eqn:E; simpl; auto. rewrite E. reflexivity.
Qed.

Lemma trim_empty s : JS.trim s = "" <-> forallb JS.isWhiteSpace (Json.chars s) = true.
Proof. unfold JS.trim. rewrite trimEnd_empty, trimStart_all. tauto. Qed.

(** X3. [isNonEmptyString] holds of the strings that have a character other
    than white space, and of nothing else: it is false of every value that is
    not a string and of every string of white space only. *)
Theorem non_empty_string_has_visible_char (str : json) :
  isNonEmptyString str = true
  <-> exists s, str = JStr s
      /\ existsb (fun c => negb (JS.isWhiteSpace c)) (Json.chars s) = true.
Proof.
  split.
  - destruct str; simpl; try discriminate. intros H. exists s. split; auto.
    destruct (existsb _ _) eqn:E; auto.
    assert (A : forallb JS.isWhiteSpace (Json.chars s) = true).
    { apply forallb_forall. intros c Hc.
      destruct (JS.isWhiteSpace c) eqn:Ec; auto.
      assert (existsb (fun c => negb (JS.isWhiteSpace c)) (Json.chars s) = true)
        by (apply existsb_exists; exists c; rewrite Ec; auto).
      congruence. }
    apply trim_empty in A. rewrite A in H. discriminate.
  - intros (s & -> & H). simpl. apply existsb_exists in H as (c & Hc & Hn).
    destruct (JS.trim s) eqn:E; auto.
    apply trim_empty in E. rewrite forallb_forall in E. rewrite (E c Hc) in Hn. discriminate.
Qed.

(** ** Trimming *)

Lemma trimEnd_cons c s :
  JS.trimEnd (String c s)
  = match JS.trimEnd s with
    | EmptyString => if JS.isWhiteSpace c then EmptyString else String c EmptyString
    | String d t => String c (String d t)
    end.
Proof. reflexivity. Qed.

Lemma trimEnd_idempotent s : JS.trimEnd (JS.trimEnd s) = JS.trimEnd s.
Proof.
  induction s as [|c s IH]; auto. rewrite trimEnd_cons.
  destruct (JS.trimEnd s) as [|d t] eqn:E.
  - destruct (JS.isWhiteSpace c) eqn:W; auto. rewrite trimEnd_cons. cbn [JS.trimEnd].
    rewrite W. auto.
  - rewrite trimEnd_cons, IH. reflexivity.
Qed.

Lemma trimEnd_head c s :
  JS.isWhiteSpace c = false -> exists t, JS.trimEnd (String c s) = String c t.
Proof.
  intros W. rewrite trimEnd_cons. destruct (JS.trimEnd s); [rewrite W|]; eauto.
Qed.

Lemma trimStart_head s :
  JS.trimStart s = "" \/ exists c t, JS.trimStart s = String c t /\ JS.isWhiteSpace c = false.
Proof.
  induction s as [|c s IH]; auto. cbn [JS.trimStart].
  destruct (JS.isWhiteSpace c) eqn:W; eauto.
Qed.

Lemma trim_idempotent s : JS.trim (JS.trim s) = JS.trim s.
Proof.
  unfold JS.trim. destruct (trimStart_head s) as [E|(c & t & E & W)]; rewrite E.
  - reflexivity.
  - destruct (trimEnd_head c t W) as (u & U). rewrite U. cbn [JS.trimStart]. rewrite W.
    rewrite <- U. apply trimEnd_idempotent.
Qed.

(** ** The text-generation client *)

Lemma chatRequests_app a b :
  LlmClient.chatRequests (a ++ b)%list = (LlmClient.chatRequests a ++ LlmClient.chatRequests b)%list.
Proof. apply flat_map_app. Qed.

Lemma pauses_app a b :
  LlmClient.pauses (a ++ b)%list = (LlmClient.pauses a ++ LlmClient.pauses b)%list.
Proof. apply flat_map_app. Qed.

Lemma chatRequests_log lvl msg detail tr :
  LlmClient.chatRequests (Sys.Logged lvl msg detail :: tr) = LlmClient.chatRequests tr.
Proof. reflexivity. Qed.

Lemma pauses_log lvl msg detail tr :
  LlmClient.pauses (Sys.Logged lvl msg detail :: tr) = LlmClient.pauses tr.
Proof. reflexivity. Qed.

(** What one pass through the loop, and the passes after it, leave behind. *)
Lemma attempts_spec (cfg : LlmClient.Settings) (params : Sys.ChatParams) (w : Sys.World)
    (st : LlmClient.Module) :
  forall (remaining : nat) (retries : Z) (tr : Sys.trace),
    Z.of_nat remaining = (LlmClient.limit cfg + 1 - retries)%Z ->
    exists r ext,
      LlmClient.attempts cfg params remaining retries w st tr = (r, st, (tr ++ ext)%list)
      /\ match r with
         | Ok None => remaining = 0 /\ ext = []
         | Ok (Some text) =>
             text <> ""
             /\ exists failures completion,
                  LlmClient.chatRequests ext = (failures ++ [Ok completion])%list
                  /\ LlmClient.textResponse completion = Some text
                  /\ Forall (fun a => LlmClient.usable a = false) failures
                  /\ length failures < remaining
                  /\ LlmClient.pauses ext = LlmClient.backoff (retries + 1) (length failures)
         | Threw e =>
             exists failures last,
               LlmClient.chatRequests ext = (failures ++ [last])%list
               /\ Forall (fun a => LlmClient.usable a = false) (failures ++ [last])
               /\ S (length failures) = remaining
               /\ LlmClient.pauses ext = LlmClient.backoff (retries + 1) (length failures)
               /\ message e
                  = "Failed to generate text after " ++ Json.ofZ (LlmClient.limit cfg)
                    ++ " retries: " ++ LlmClient.failureText last
         end.
Proof.
  induction remaining as [|remaining IH]; intros retries tr Hinv.
  - exists (Ok None), []. rewrite app_nil_r. auto.
  - cbn [LlmClient.attempts]. sys_unfold.
    destruct (LlmClient.limit cfg <? retries + 1)%Z eqn:Hlim.
    + (* the last pass *)
      apply Z.ltb_lt in Hlim. assert (remaining = 0) by lia. subst remaining.
      generalize (Sys.answer w Sys.Completion tr (Sys.chat_completions_create params)).
      intros a. destruct a as [completion|e]; cbv beta iota.
      * destruct (JS.truthyOpt (LlmClient.textResponse completion)) eqn:Hu;
          cbn [negb]; cbv beta iota.
        -- destruct (LlmClient.textResponse completion) as [text|] eqn:Ht; [|discriminate].
           exists (Ok (Some text)). eexists. split.
           { rewrite <- !app_assoc. reflexivity. }
           split; [intros ->; discriminate|].
           exists [], completion. cbn. repeat split; auto.
        -- eexists _, _. split.
           { rewrite <- !app_assoc. reflexivity. }
           exists [], (Ok completion). cbn [app length LlmClient.backoff].
           split; [reflexivity|]. split; [constructor; [exact Hu|constructor]|].
           repeat split; auto.
      * eexists _, _. split.
        { rewrite <- !app_assoc. reflexivity. }
        exists [], (Threw e). cbn [app length LlmClient.backoff].
        split; [reflexivity|]. split; [constructor; [reflexivity|constructor]|].
        repeat split; auto.
    + apply Z.ltb_ge in Hlim.
      assert (Hnext : forall (a : result Sys.Completion) (mid : Sys.trace),
        LlmClient.usable a = false ->
        LlmClient.chatRequests mid = [a] -> LlmClient.pauses mid = [] ->
        exists r ext,
          LlmClient.attempts cfg params remaining (retries + 1) w st
            ((tr ++ mid) ++ [Sys.Asked (Sys.setTimeout (1000 * (retries + 1)))
                               (Sys.reply w unit (tr ++ mid)%list
                                  (Sys.setTimeout (1000 * (retries + 1))))])%list
          = (r, st, (tr ++ ext)%list)
          /\ match r with
             | Ok None => False
             | Ok (Some text) =>
                 text <> ""
                 /\ exists failures completion,
                      LlmClient.chatRequests ext = (failures ++ [Ok completion])%list
                      /\ LlmClient.textResponse completion = Some text
                      /\ Forall (fun a => LlmClient.usable a = false) failures
                      /\ length failures < S remaining
                      /\ LlmClient.pauses ext
                         = LlmClient.backoff (retries + 1) (length failures)
             | Threw e =>
                 exists failures last,
                   LlmClient.chatRequests ext = (failures ++ [last])%list
                   /\ Forall (fun a => LlmClient.usable a = false) (failures ++ [last])
                   /\ S (length failures) = S remaining
                   /\ LlmClient.pauses ext
                      = LlmClient.backoff (retries + 1) (length failures)
                   /\ message e
                      = "Failed to generate text after " ++ Json.ofZ (LlmClient.limit cfg)
                        ++ " retries: " ++ LlmClient.failureText last
             end).
      { intros a mid Ha Hreq Hpause.
        destruct (IH (retries + 1)%Z
                    ((tr ++ mid) ++ [Sys.Asked (Sys.setTimeout (1000 * (retries + 1)))
                                       (Sys.reply w unit (tr ++ mid)%list
                                          (Sys.setTimeout (1000 * (retries + 1))))])%list)
          as (r & ext & Hrun & Hr); [lia|].
        rewrite Hrun. exists r. eexists. split.
        { rewrite <- !app_assoc. reflexivity. }
        rewrite !chatRequests_app, !pauses_app, Hreq, Hpause.
        cbn [LlmClient.chatRequests LlmClient.pauses flat_map LlmClient.chatRequest
             LlmClient.pause app].
        destruct r as [[text|]|e].
        - destruct Hr as (Ht & failures & completion & H1 & H2 & H3 & H4 & H5).
          split; auto. exists (a :: failures), completion. rewrite H1, H5.
          cbn [app length LlmClient.backoff]. repeat split; auto. lia.
        - destruct Hr as [-> _]. lia.
        - destruct Hr as (failures & last & H1 & H2 & H3 & H4 & H5).
          exists (a :: failures), last. rewrite H1, H4.
          cbn [app length LlmClient.backoff]. repeat split; auto. }
      generalize (Sys.answer w Sys.Completion tr (Sys.chat_completions_create params)).
      intros a. destruct a as [completion|e]; cbv beta iota.
      * destruct (JS.truthyOpt (LlmClient.textResponse completion)) eqn:Hu;
          cbn [negb]; cbv beta iota.
        -- destruct (LlmClient.textResponse completion) as [text|] eqn:Ht; [|discriminate].
           exists (Ok (Some text)). eexists. split.
           { rewrite <- !app_assoc. reflexivity. }
           split; [intros ->; discriminate|].
           exists [], completion. cbn. repeat split; auto. lia.
        -- destruct (Hnext (Ok completion)
                      [Sys.Called (Sys.chat_completions_create params) (Ok completion);
                       Sys.Logged warn "LLM returned an empty response." None;
                       Sys.Logged err ("LLM API call failed (attempt "
                                       ++ Json.ofZ (retries + 1) ++ "/"
                                       ++ Json.ofZ (LlmClient.limit cfg + 1) ++ "):")
                         (Some "LLM returned an empty or invalid response.")])
             as (r & ext & Hrun & Hr); auto.
           cbn [message]. rewrite <- !app_assoc in *. cbn [app] in *.
           exists r, ext. split; [exact Hrun|]. destruct r as [[text|]|e]; auto.
           contradiction.
      * destruct (Hnext (Threw e)
                    [Sys.Called (Sys.chat_completions_create params) (Threw e);
                     Sys.Logged err ("LLM API call failed (attempt "
                                     ++ Json.ofZ (retries + 1) ++ "/"
                                     ++ Json.ofZ (LlmClient.limit cfg + 1) ++ "):")
                       (Some (message e))])
          as (r & ext & Hrun & Hr); auto.
        rewrite <- !app_assoc in *. cbn [app] in *.
        exists r, ext. split; [exact Hrun|]. destruct r as [[text|]|e']; auto.
        contradiction.
Qed.

Section LlmClientProperties.

Variable typeError : string -> Error.

(** The run of [generateText] in a module that holds a client. *)
Lemma generateText_run (prompt : string) (options : LlmClient.Options) (w : Sys.World)
    (client : LlmClient.Client) (cfg : LlmClient.Settings) :
  let st := LlmClient.mkModule (Some client) (Some cfg) in
  exists params,
    Sys.run (LlmClient.generateText typeError prompt options) w st
    = LlmClient.attempts cfg params (Z.to_nat (LlmClient.limit cfg + 1)) 0 w st
        [Sys.Logged debug "Sending request to LLM with params:" None].
Proof.
  eexists. unfold LlmClient.generateText, Sys.run, Sys.bind, Sys.get, Sys.log.
  cbn [LlmClient.openai LlmClient.llmConfig app]. reflexivity.
Qed.

(** X10. When [generateText] returns a text, the text is not empty, has no
    white space at either end, and is the trimmed content of the last chat
    request of the run; every request before it threw or had no content,
    there were at most [maxRetries || 3] of those, and the run paused 1000,
    2000, ... milliseconds after them, once after each. *)
Theorem generated_text_is_first_usable_answer (prompt : string)
    (options : LlmClient.Options) (w : Sys.World) (client : LlmClient.Client)
    (cfg : LlmClient.Settings) (text : string) (st' : LlmClient.Module) (tr : Sys.trace) :
  Sys.run (LlmClient.generateText typeError prompt options) w
    (LlmClient.mkModule (Some client) (Some cfg)) = (Ok (Some text), st', tr) ->
  text <> "" /\ JS.trim text = text
  /\ exists failures completion,
       LlmClient.chatRequests tr = (failures ++ [Ok completion])%list
       /\ LlmClient.textResponse completion = Some text
       /\ Forall (fun a => LlmClient.usable a = false) failures
       /\ (Z.of_nat (length failures) <= LlmClient.limit cfg)%Z
       /\ LlmClient.pauses tr = LlmClient.backoff 1 (length failures).
Proof.
  destruct (generateText_run prompt options w client cfg) as (params & ->).
  intros Hrun.
  destruct (Z.to_nat (LlmClient.limit cfg + 1)) as [|n] eqn:Hn.
  - cbn in Hrun. unfold Sys.ret in Hrun. discriminate.
  - destruct (attempts_spec cfg params w (LlmClient.mkModule (Some client) (Some cfg)) (S n) 0
                [Sys.Logged debug "Sending request to LLM with params:" None])
      as (r & ext & Hrun' & Hr); [lia|].
    rewrite Hrun' in Hrun. injection Hrun as -> _ <-.
    destruct Hr as (Ht & failures & completion & H1 & H2 & H3 & H4 & H5).
    split; auto. split.
    { unfold LlmClient.textResponse in H2.
      destruct (Sys.choices completion) as [|choice ?]; [discriminate|].
      destruct (Sys.choice_message choice) as [m|]; [|discriminate].
      destruct (Sys.content m) as [s|]; [|discriminate].
      injection H2 as <-. apply trim_idempotent. }
    exists failures, completion. cbn [app]. rewrite chatRequests_log, pauses_log.
    cbn [Z.add]. repeat split; auto. lia.
Qed.

(** X11. When [generateText] throws in a module that holds a client, it made
    [maxRetries || 3] plus one chat requests, none of them usable, paused
    1000, 2000, ... milliseconds between them and not after the last one, and
    the message of the error names the limit and the failure of the last
    request. *)
Theorem generateText_gives_up_after_limit (prompt : string) (options : LlmClient.Options)
    (w : Sys.World) (client : LlmClient.Client) (cfg : LlmClient.Settings) (e : Error)
    (st' : LlmClient.Module) (tr : Sys.trace) :
  Sys.run (LlmClient.generateText typeError prompt options) w
    (LlmClient.mkModule (Some client) (Some cfg)) = (Threw e, st', tr) ->
  exists failures last,
    LlmClient.chatRequests tr = (failures ++ [last])%list
    /\ Forall (fun a => LlmClient.usable a = false) (failures ++ [last])
    /\ Z.of_nat (length failures) = LlmClient.limit cfg
    /\ LlmClient.pauses tr = LlmClient.backoff 1 (length failures)
    /\ message e
       = "Failed to generate text after " ++ Json.ofZ (LlmClient.limit cfg)
         ++ " retries: " ++ LlmClient.failureText last.
Proof.
  destruct (generateText_run prompt options w client cfg) as (params & ->).
  intros Hrun.
  destruct (Z.to_nat (LlmClient.limit cfg + 1)) as [|n] eqn:Hn.
  - cbn in Hrun. unfold Sys.ret in Hrun. discriminate.
  - destruct (attempts_spec cfg params w (LlmClient.mkModule (Some client) (Some cfg)) (S n) 0
                [Sys.Logged debug "Sending request to LLM with params:" None])
      as (r & ext & Hrun' & Hr); [lia|].
    rewrite Hrun' in Hrun. injection Hrun as -> _ <-.
    destruct Hr as (failures & last & H1 & H2 & H3 & H4 & H5).
    exists failures, last. cbn [app]. rewrite chatRequests_log, pauses_log.
    cbn [Z.add]. repeat split; auto. lia.
Qed.

(** X12. In a module that holds a client, [generateText] returns [undefined]
    exactly when the limit [maxRetries || 3] is negative, and then it sends
    no chat request; it never changes the variables of the module. *)
Theorem generateText_undefined_only_without_attempts (prompt : string)
    (options : LlmClient.Options) (w : Sys.World) (client : LlmClient.Client)
    (cfg : LlmClient.Settings) :
  let run := Sys.run (LlmClient.generateText typeError prompt options) w
               (LlmClient.mkModule (Some client) (Some cfg)) in
  (fst (fst run) = Ok None <-> (LlmClient.limit cfg < 0)%Z)
  /\ ((LlmClient.limit cfg < 0)%Z -> LlmClient.chatRequests (snd run) = [])
  /\ snd (fst run) = LlmClient.mkModule (Some client) (Some cfg).
Proof.
  destruct (generateText_run prompt options w client cfg) as (params & E).
  cbv zeta. rewrite E.
  destruct (Z.to_nat (LlmClient.limit cfg + 1)) as [|n] eqn:Hn.
  - cbn. split; [|split; auto]. split; [intros _; lia|auto].
  - destruct (attempts_spec cfg params w (LlmClient.mkModule (Some client) (Some cfg)) (S n) 0
                [Sys.Logged debug "Sending request to LLM with params:" None])
      as (r & ext & Hrun' & Hr); [lia|].
    rewrite Hrun'. cbn [fst snd]. split; [|split; [intros; lia|auto]].
    split; [|intros; lia]. intros ->. destruct Hr as [H _]. discriminate.
Qed.

(** X13. When [initializeLLMClient] throws in a module that was never
    initialised, the module holds no client afterwards: every later call of
    [generateText] logs one error line and throws [LLM client not
    initialized.] without sending a request. *)
Theorem failed_initialisation_leaves_no_client (config : option LlmClient.ClientConfig)
    (w : Sys.World) (e : Error) (st : LlmClient.Module) (tr : Sys.trace) :
  Sys.run (LlmClient.initializeLLMClient config) w LlmClient.fresh = (Threw e, st, tr) ->
  forall (prompt : string) (options : LlmClient.Options) (w' : Sys.World),
    Sys.run (LlmClient.generateText typeError prompt options) w' st
    = (Threw (mkError "LLM client not initialized."), st,
       [Sys.Logged err "LLM client not initialized. Call initializeLLMClient first." None]).
Proof.
  intros Hrun prompt options w'.
  assert (Hst : LlmClient.openai st = None).
  { revert Hrun. unfold LlmClient.initializeLLMClient. destruct config as [c|].
    - destruct (JS.truthyOpt _ && JS.truthyOpt _ && JS.truthyOpt _).
      + sys_unfold. cbn [LlmClient.openai LlmClient.fresh LlmClient.llmConfig].
        destruct (String.eqb _ "openai").
        * sys_answer w; intros H; [discriminate H|]. injection H as _ <- _. reflexivity.
        * intros H. injection H as _ <- _. reflexivity.
      + sys_unfold. intros H. injection H as _ <- _. reflexivity.
    - sys_unfold. intros H. injection H as _ <- _. reflexivity. }
  unfold LlmClient.generateText. sys_unfold. rewrite Hst. reflexivity.
Qed.

End LlmClientProperties.

(** ** The test runner and the GitHub API client *)

Section TesterProperties.

Variable path_join : string -> string -> string.
Variable typeError : string -> Error.

Lemma no_test_script (packageJson : json) :
  negb (Json.truthy (Json.field "scripts" packageJson))
  || negb (Json.truthy (match Json.field "scripts" packageJson with
                        | Some scripts => Json.field "test" scripts
                        | None => None
                        end))
  = negb (Json.truthy (Tester.testScript packageJson)).
Proof.
  unfold Tester.testScript. destruct (Json.field "scripts" packageJson) as [scripts|]; auto.
  destruct (Json.truthy (Some scripts)); auto.
Qed.

Ltac runTests_script text Ht :=
  intros _; exists text; eexists; split; [cbn; auto|]; split; [cbn; auto 6|exact Ht].

(** X14. [runTests] runs at most one command, and only after [package.json]
    was read and parsed and has a test script.  When it returns [true], it
    ran no command or the command ended without an error; when it returns
    [false], the command ended with an error, or no command ran and reading
    or parsing [package.json] threw.  It throws only the type error for a
    [package.json] that holds [null]. *)
Theorem runTests_outcomes (repoDir : string) (w : Sys.World) :
  let packageJsonPath := path_join repoDir "package.json" in
  exists r tr,
    Sys.run (Tester.runTests path_join typeError repoDir) w tt = (r, tt, tr)
    /\ match r with
       | Ok true =>
           Tester.execResults tr = []
           \/ exists x, Tester.execResults tr = [x] /\ Sys.exec_error x = None
       | Ok false =>
           (Tester.execResults tr = []
            /\ exists e,
                 In (Sys.Called (Sys.readFileSync packageJsonPath) (Threw e)) tr
                 \/ exists text, In (Sys.Called (Sys.JSON_parse text) (Threw e)) tr)
           \/ exists x failure,
                Tester.execResults tr = [x] /\ Sys.exec_error x = Some failure
       | Threw e =>
           e = typeError "packageJson.scripts"
           /\ Tester.execResults tr = []
           /\ exists text, In (Sys.Called (Sys.JSON_parse text) (Ok JNull)) tr
       end
    /\ (Tester.execResults tr <> [] ->
        exists text packageJson,
          In (Sys.Called (Sys.readFileSync packageJsonPath) (Ok text)) tr
          /\ In (Sys.Called (Sys.JSON_parse text) (Ok packageJson)) tr
          /\ Json.truthy (Tester.testScript packageJson) = true).
Proof.
  cbv zeta. unfold Tester.runTests. sys_unfold. cbn [app]. sys_reply_as w present.
  destruct present; cbn [negb]; cbv beta iota.
  2:{ eexists _, _. split; [reflexivity|]. split; [left; reflexivity|].
      intros H. exfalso. apply H. reflexivity. }
  sys_answer_as w text e; cbn [app]; cbv beta iota.
  2:{ eexists _, _. split; [reflexivity|]. split.
      - left. split; [reflexivity|]. exists e. left. cbn. auto.
      - intros H. exfalso. apply H. reflexivity. }
  sys_answer_as w packageJson e; cbn [app]; cbv beta iota.
  2:{ eexists _, _. split; [reflexivity|]. split.
      - left. split; [reflexivity|]. exists e. right. exists text. cbn. auto.
      - intros H. exfalso. apply H. reflexivity. }
  assert (Hnull : packageJson = JNull \/ packageJson <> JNull)
    by (destruct packageJson; auto; right; discriminate).
  destruct Hnull as [->|Hnn].
  { eexists _, _. split; [reflexivity|]. split.
    - split; auto. split; [reflexivity|]. exists text. cbn. auto.
    - intros H. exfalso. apply H. reflexivity. }
  pose proof (no_test_script packageJson) as Hscript.
  destruct (Json.truthy (Tester.testScript packageJson)) eqn:Ht; cbn [negb] in Hscript.
  - destruct packageJson; [congruence|..]; rewrite Hscript; cbv beta iota; cbn [app];
      sys_reply_as w x; destruct (Sys.exec_error x) as [failure|] eqn:Hx; cbn [app];
      eexists _, _; (split; [reflexivity|]); (split; [|runTests_script text Ht]);
      solve [ right; exists x, failure; split; [reflexivity|assumption]
            | right; exists x; split; [reflexivity|assumption] ].
  - destruct packageJson; [congruence|..]; rewrite Hscript; cbv beta iota; cbn [app];
      eexists _, _; (split; [reflexivity|]);
      (split; [left; reflexivity|intros H; exfalso; apply H; reflexivity]).
Qed.

End TesterProperties.

Section GitHubApiProperties.

(** X15. [getRepoDetails] never throws and leaves the client of the module
    as it is.  Without a client it returns [null] without a request; the data
    it returns otherwise is the answer to its one request. *)
Theorem getRepoDetails_never_throws (owner repo : string) (w : Sys.World)
    (st : GitHubApi.Module) :
  exists details tr,
    Sys.run (GitHubApi.getRepoDetails owner repo) w st = (Ok details, st, tr)
    /\ (st = None -> details = None /\ filter Sys.isCalled tr = [])
    /\ (forall data, details = Some data ->
        filter Sys.isCalled tr
        = [Sys.Called (Sys.octokit_request "GET /repos/{owner}/{repo}" owner repo)
             (Ok (Some data))]).
Proof.
  unfold GitHubApi.getRepoDetails. sys_unfold. destruct st as [octokit|].
  - cbn [app]. sys_answer w; cbn [app].
    + eexists _, _. split; [reflexivity|]. split; [discriminate|].
      intros data ->. reflexivity.
    + eexists _, _. split; [reflexivity|]. split; discriminate.
  - eexists _, _. split; [reflexivity|]. split; [auto|discriminate].
Qed.

Lemma empty_token_discards_client (authToken : option string) (w : Sys.World)
    (st : GitHubApi.Module) :
  JS.truthyOpt authToken = false ->
  exists tr,
    Sys.run (Sys.bind (GitHubApi.initializeGitHubClient authToken)
               (fun _ => GitHubApi.getOctokit)) w st
    = (Threw (mkError "Octokit client has not been initialized. Call initializeGitHubClient(token) first."),
       None, tr)
    /\ filter Sys.isCalled tr = [].
Proof.
  intros H. unfold GitHubApi.initializeGitHubClient, GitHubApi.getOctokit. rewrite H.
  sys_unfold. cbn [negb app]. eexists. split; reflexivity.
Qed.

Lemma token_gives_client (authToken : option string) (w : Sys.World)
    (st : GitHubApi.Module) :
  JS.truthyOpt authToken = true ->
  exists r st' tr,
    Sys.run (Sys.bind (GitHubApi.initializeGitHubClient authToken)
               (fun _ => GitHubApi.getOctokit)) w st = (r, st', tr)
    /\ match Sys.answer w unit [] (Sys.Octokit_new (JS.show authToken)) with
       | Ok _ =>
           r = Ok (GitHubApi.mkOctokit (JS.show authToken))
           /\ st' = Some (GitHubApi.mkOctokit (JS.show authToken))
       | Threw e => r = Threw e /\ st' = st
       end.
Proof.
  intros H. unfold GitHubApi.initializeGitHubClient, GitHubApi.getOctokit. rewrite H.
  sys_unfold. cbn [negb app]. sys_answer w.
  - eexists _, _, _. split; [reflexivity|]. auto.
  - eexists _, _, _. split; [reflexivity|]. auto.
Qed.

(** X16. [getOctokit] after [initializeGitHubClient]: with a token the result
    is the client created with that token, or the error of the constructor,
    which leaves the earlier client in place; without a token the earlier
    client is dropped, no request is made and [getOctokit] throws. *)
Theorem getOctokit_after_initialisation (authToken : option string) (w : Sys.World)
    (st : GitHubApi.Module) :
  exists r st' tr,
    Sys.run (Sys.bind (GitHubApi.initializeGitHubClient authToken)
               (fun _ => GitHubApi.getOctokit)) w st = (r, st', tr)
    /\ if JS.truthyOpt authToken then
         match Sys.answer w unit [] (Sys.Octokit_new (JS.show authToken)) with
         | Ok _ =>
             r = Ok (GitHubApi.mkOctokit (JS.show authToken))
             /\ st' = Some (GitHubApi.mkOctokit (JS.show authToken))
         | Threw e => r = Threw e /\ st' = st
         end
       else
         r = Threw (mkError "Octokit client has not been initialized. Call initializeGitHubClient(token) first.")
         /\ st' = None /\ filter Sys.isCalled tr = [].
Proof.
  destruct (JS.truthyOpt authToken) eqn:H.
  - apply token_gives_client; exact H.
  - destruct (empty_token_discards_client authToken w st H) as (tr & E & Hc).
    eexists _, _, tr. split; [exact E|]. auto.
Qed.

End GitHubApiProperties.

(** ** The Git client *)

Section GitClientProperties.

Variable path_dirname : string -> string.
Variable repoDir : string.

(** X17. Each of the thirteen methods of the Git client that wrap one command
    of [simple-git] runs exactly that command, once.  When the command
    throws, the method logs one error line, with the message of the error,
    and throws the same error.  When the command returns, the method logs no
    error; [getRemotes], [status], [revList], [revParse], [diff] and
    [getFileContent] return the value of the command, and [addRemote],
    [fetch], [merge], [add], [commit], [push] and [reset] return
    [undefined] whatever the command returned. *)
Theorem wrapper_runs_one_command (T U : Type) (method : Sys.Prog unit U)
    (command : Sys.request T) (result : T -> U) (w : Sys.World) :
  GitClient.Wraps T U method command result ->
  exists tr,
    GitClient.commands tr = [Sys.Called command (Sys.answer w T [] command)]
    /\ match Sys.answer w T [] command with
       | Ok value =>
           Sys.run method w tt = (Ok (result value), tt, tr)
           /\ GitClient.failures tr = []
       | Threw e =>
           Sys.run method w tt = (Threw e, tt, tr)
           /\ GitClient.failures tr = [Some (message e)]
       end.
Proof.
  intros H. destruct H; unfold GitClient.getRemotes, GitClient.addRemote, GitClient.fetch,
    GitClient.merge, GitClient.status, GitClient.add, GitClient.commit, GitClient.push,
    GitClient.revList, GitClient.revParse, GitClient.reset, GitClient.diff,
    GitClient.getFileContent; sys_unfold; sys_answer w; cbn [app];
    eexists;
    match goal with
    | |- _ /\ ?B => assert (HB : B) by (split; reflexivity); split; [reflexivity | exact HB]
    end.
Qed.

(** X18. [checkIsRepo] never throws.  It returns [true] only when [simple-git]
    answered [true], and where the directory does not exist it returns
    [false] without a command. *)
Theorem checkIsRepo_never_throws (w : Sys.World) :
  exists b tr,
    Sys.run (GitClient.checkIsRepo repoDir) w tt = (Ok b, tt, tr)
    /\ (b = true ->
        GitClient.commands tr = [Sys.Called Sys.sg_checkIsRepo (Ok true)])
    /\ (Sys.reply w bool [] (Sys.existsSync repoDir) = false ->
        b = false /\ GitClient.commands tr = []).
Proof.
  unfold GitClient.checkIsRepo. sys_unfold. sys_reply w. destruct a; cbn [negb app].
  - sys_answer w.
    + eexists _, _. split; [reflexivity|]. split; [intros ->; reflexivity|discriminate].
    + eexists _, _. split; [reflexivity|]. split; discriminate.
  - eexists _, _. split; [reflexivity|]. split; [discriminate|]. auto.
Qed.


End GitClientProperties.

(** ** The mailer *)

Lemma mails_app a b : Mailer.mails (a ++ b)%list = (Mailer.mails a ++ Mailer.mails b)%list.
Proof. apply flat_map_app. Qed.

Lemma incomplete_test config :
  negb (Json.truthy config) || negb (Json.truthy (Json.prop "smtpHost" config))
  || negb (Json.truthy (Json.prop "smtpPort" config))
  || negb (Json.truthy (Json.prop "from" config))
  || negb (Json.truthy (Json.prop "to" config)) = negb (Mailer.complete config).
Proof.
  unfold Mailer.complete.
  destruct (Json.truthy config), (Json.truthy (Json.prop "smtpHost" config)),
    (Json.truthy (Json.prop "smtpPort" config)), (Json.truthy (Json.prop "from" config)),
    (Json.truthy (Json.prop "to" config)); reflexivity.
Qed.

Lemma initializeMailer_spec (config : option json) (w : Sys.World) (st : Mailer.Module)
    (tr : Sys.trace) :
  exists st' ext,
    Mailer.initializeMailer config w st tr = (Ok tt, st', (tr ++ ext)%list)
    /\ Mailer.mails ext = []
    /\ if Mailer.complete config then
         Mailer.mailConfig st' = config
         /\ let options :=
              Sys.mkTransport (Json.prop "smtpHost" config) (Json.prop "smtpPort" config)
                (Mailer.is465 (Json.prop "smtpPort" config)) (Json.prop "user" config)
                (Json.prop "pass" config) in
            match Sys.answer w unit tr (Sys.createTransport options) with
            | Ok _ => Mailer.transporter st' = Some options
            | Threw _ => Mailer.transporter st' = None
            end
            /\ filter Sys.isCalled ext
               = [Sys.Called (Sys.createTransport options)
                    (Sys.answer w unit tr (Sys.createTransport options))]
       else st' = Mailer.mkModule None None /\ filter Sys.isCalled ext = [].
Proof.
  unfold Mailer.initializeMailer. rewrite incomplete_test.
  destruct (Mailer.complete config) eqn:Hc; cbn [negb]; sys_unfold.
  - cbn [Mailer.mailConfig Mailer.transporter].
    generalize (Sys.answer w unit tr
      (Sys.createTransport
         (Sys.mkTransport (Json.prop "smtpHost" config) (Json.prop "smtpPort" config)
            (Mailer.is465 (Json.prop "smtpPort" config)) (Json.prop "user" config)
            (Json.prop "pass" config)))).
    intros r. destruct r as [[]|e].
    + eexists _, _. split; [rewrite <- !app_assoc; reflexivity|]. cbn. auto.
    + eexists _, _. split; [rewrite <- !app_assoc; reflexivity|]. cbn. auto.
  - eexists _, _. split; [reflexivity|]. cbn. auto.
Qed.

Lemma includes_prefix (a b n : string) :
  JS.includes a n = true -> JS.includes (a ++ b) n = true.
Proof.
  assert (S : forall a, JS.startsWith a n = true -> JS.startsWith (a ++ b) n = true).
  { induction n as [|c n IH]; intros a0 H; [destruct (a0 ++ b); reflexivity|].
    destruct a0 as [|d a0]; [discriminate H|]. cbn [JS.startsWith append] in *.
    apply andb_true_iff in H as [-> H]. cbn [andb]. apply IH; auto. }
  induction a as [|c a IH]; intros H.
  - cbn in H. rewrite orb_false_r in H. destruct n; [|discriminate H].
    destruct ("" ++ b); reflexivity.
  - change (String c a ++ b) with (String c (a ++ b)).
    cbn [JS.includes] in *. apply orb_true_iff in H as [H|H].
    + change (String c (a ++ b)) with (String c a ++ b). rewrite S; auto.
    + rewrite IH; auto. apply orb_true_r.
Qed.

Lemma includes_suffix (a b n : string) :
  JS.includes b n = true -> JS.includes (a ++ b) n = true.
Proof.
  intros H. induction a as [|c a IH]; auto.
  change (String c a ++ b) with (String c (a ++ b)). cbn [JS.includes].
  rewrite IH. apply orb_true_r.
Qed.

Lemma includes_refl (s : string) : JS.includes s s = true.
Proof. destruct s; cbn [JS.includes]; rewrite startsWith_refl; reflexivity. Qed.

Lemma includes_inside (a t b n : string) :
  JS.includes t n = true -> JS.includes (a ++ t ++ b) n = true.
Proof. intros H. apply includes_suffix, includes_prefix, H. Qed.

Lemma concat_split (f : Outcome -> string) (l : list Outcome) (d : Outcome) :
  In d l -> exists a b, String.concat "" (map f l) = a ++ f d ++ b.
Proof.
  induction l as [|x l IH]; [contradiction|]. intros [->|H].
  - exists "". destruct l as [|y l]; cbn [map String.concat append].
    + exists "". symmetry. apply append_nil_r.
    + eexists. reflexivity.
  - destruct (IH H) as (a & b & E). destruct l as [|y l]; [contradiction|].
    cbn [map String.concat] in *. rewrite E. exists (f x ++ a), b.
    cbn [append]. symmetry. apply append_assoc.
Qed.

Lemma startsWith_app (p s n : string) :
  JS.startsWith s n = true -> JS.startsWith (p ++ s) (p ++ n) = true.
Proof.
  intros H. induction p as [|c p IH]; [exact H|].
  cbn [append JS.startsWith]. rewrite Ascii.eqb_refl. exact IH.
Qed.

Lemma startsWith_prefix (n rest : string) : JS.startsWith (n ++ rest) n = true.
Proof.
  induction n as [|c n IH]; [destruct rest; reflexivity|].
  cbn [append JS.startsWith]. rewrite Ascii.eqb_refl. exact IH.
Qed.

Lemma includes_startsWith (s n : string) :
  JS.startsWith s n = true -> JS.includes s n = true.
Proof. intros H. destruct s; cbn [JS.includes]; rewrite H; reflexivity. Qed.

Lemma inside_prepend (h x t : string) :
  (exists a b, x = a ++ t ++ b) -> exists a b, h ++ x = a ++ t ++ b.
Proof. intros (a & b & ->). exists (h ++ a), b. symmetry. apply append_assoc. Qed.

Lemma reportText_detail (syncResults : Results) (detail : Outcome) :
  In detail (details syncResults) ->
  exists a b, Mailer.reportText syncResults = a ++ Mailer.detailText detail ++ b.
Proof.
  intros H. unfold Mailer.reportText. repeat apply inside_prepend.
  apply concat_split, H.
Qed.

(** X19. For every detail of the results, the text of the sync report has
    the lines with its account, its repository and its status, one after the
    other below a rule, and a line with its message, with its error, with the
    mark of a conflict, with the mark of the resolver and with the verdict of
    the tests, each where the detail has one. *)
Theorem report_lists_every_outcome (syncResults : Results) (detail : Outcome) :
  In detail (details syncResults) ->
  let report := Mailer.reportText syncResults in
  JS.includes report
    ("------------------------------------" ++ nl
     ++ "Account: " ++ account detail ++ nl
     ++ "Repository: " ++ repository detail ++ nl
     ++ "Status: " ++ match status detail with
                      | synced => "synced"
                      | skipped => "skipped"
                      | error => "error"
                      end ++ nl) = true
  /\ (forall text, outcome_message detail = Some text -> text <> "" ->
      JS.includes report ("Message: " ++ text ++ nl) = true)
  /\ (forall text, outcome_error detail = Some text -> text <> "" ->
      JS.includes report ("Error: " ++ text ++ nl) = true)
  /\ (hadConflicts detail = Some true ->
      JS.includes report ("Conflicts Encountered: Yes" ++ nl) = true)
  /\ (usedLLM detail = Some true ->
      JS.includes report ("LLM Used for Resolution: Yes" ++ nl) = true)
  /\ (forall verdict, testsStatus detail = Some verdict ->
      JS.includes report
        ("Tests Status: " ++ match verdict with
                             | passed => "passed"
                             | failed => "failed"
                             | tests_error => "error"
                             end ++ nl) = true).
Proof.
  intros H report. destruct (reportText_detail _ _ H) as (a & b & E).
  change (report = a ++ Mailer.detailText detail ++ b) in E.
  clearbody report. subst report. clear H.
  assert (T : forall text, text <> "" -> JS.truthyOpt (Some text) = true).
  { intros text Ht. unfold JS.truthyOpt, JS.truthy.
    apply String.eqb_neq in Ht. rewrite Ht. reflexivity. }
  repeat split.
  - apply includes_inside, includes_startsWith.
    unfold Mailer.detailText, Mailer.statusText.
    do 10 apply startsWith_app. apply startsWith_prefix.
  - intros text Hm Ht. apply includes_inside. unfold Mailer.detailText.
    rewrite Hm, (T text Ht). do 11 apply includes_suffix.
    apply includes_prefix, includes_refl.
  - intros text He Ht. apply includes_inside. unfold Mailer.detailText.
    rewrite He, (T text Ht). do 12 apply includes_suffix.
    apply includes_prefix, includes_refl.
  - intros Hc. apply includes_inside. unfold Mailer.detailText.
    rewrite Hc. do 13 apply includes_suffix.
    apply includes_prefix, includes_refl.
  - intros Hu. apply includes_inside. unfold Mailer.detailText.
    rewrite Hu. do 14 apply includes_suffix.
    apply includes_prefix, includes_refl.
  - intros verdict Hv. apply includes_inside. unfold Mailer.detailText.
    rewrite Hv. do 15 apply includes_suffix.
    destruct verdict; apply includes_refl.
Qed.

(** X20. [initializeMailer] never throws.  With a configuration that has
    [smtpHost], [smtpPort], [from] and [to] it keeps the configuration and
    creates one transporter, secure exactly for port 465; the module holds
    the transporter when the creation returned and none when it threw.  With
    any other configuration it clears both variables and creates nothing. *)
Theorem initializeMailer_never_throws (config : option json) (w : Sys.World)
    (st : Mailer.Module) :
  exists st' tr,
    Sys.run (Mailer.initializeMailer config) w st = (Ok tt, st', tr)
    /\ if Mailer.complete config then
         Mailer.mailConfig st' = config
         /\ let options :=
              Sys.mkTransport (Json.prop "smtpHost" config) (Json.prop "smtpPort" config)
                (Mailer.is465 (Json.prop "smtpPort" config)) (Json.prop "user" config)
                (Json.prop "pass" config) in
            match Sys.answer w unit [] (Sys.createTransport options) with
            | Ok _ => Mailer.transporter st' = Some options
            | Threw _ => Mailer.transporter st' = None
            end
            /\ filter Sys.isCalled tr
               = [Sys.Called (Sys.createTransport options)
                    (Sys.answer w unit [] (Sys.createTransport options))]
       else st' = Mailer.mkModule None None /\ filter Sys.isCalled tr = [].
Proof.
  destruct (initializeMailer_spec config w st []) as (st' & ext & E & _ & H).
  exists st', ext. split; [exact E|exact H].
Qed.

Section MailerProperties.

Variable cwd : string.
Variable path_resolve : string -> string -> string.
Variable path_basename : string -> string.
Variable typeError : string -> Error.

(** What [sendEmail] leaves behind: the module as it was, and at most one
    mail. *)
Lemma sendEmail_spec (subject textBody : string) (htmlBody : option string)
    (attachments : list Sys.Attachment) (w : Sys.World) (st : Mailer.Module)
    (tr : Sys.trace) :
  exists r ext,
    Mailer.sendEmail typeError subject textBody htmlBody attachments w st tr
    = (r, st, (tr ++ ext)%list)
    /\ match r with
       | Ok sent =>
           (sent = false /\ Mailer.mails ext = [])
           \/ exists recipients,
                Mailer.transporter st <> None
                /\ Json.prop "to" (Mailer.mailConfig st) = Some (JArr recipients)
                /\ recipients <> []
                /\ Mailer.mails ext
                   = [(Sys.mkMail (Json.prop "from" (Mailer.mailConfig st))
                         (Json.join ", " recipients) subject textBody
                         (if JS.truthyOpt htmlBody then JS.show htmlBody else textBody)
                         attachments, sent)]
       | Threw e =>
           e = typeError "mailConfig.to.join"
           /\ Mailer.mails ext = []
           /\ Json.truthy (Json.prop "to" (Mailer.mailConfig st)) = true
           /\ Json.isArray (Json.prop "to" (Mailer.mailConfig st)) = false
       end
    /\ (Mailer.transporter st = None -> r = Ok false /\ filter Sys.isCalled ext = []).
Proof.
  unfold Mailer.sendEmail. sys_unfold. destruct (Mailer.transporter st) as [t|] eqn:Ht.
  2:{ eexists _, _. split; [reflexivity|]. cbn. auto. }
  destruct (Json.truthy (Mailer.mailConfig st)) eqn:Hm; cbn [negb orb].
  2:{ eexists _, _. split; [reflexivity|]. cbn. split; [auto|discriminate]. }
  destruct (Json.truthy (Json.prop "to" (Mailer.mailConfig st))) eqn:Hto; cbn [negb orb].
  2:{ eexists _, _. split; [reflexivity|]. cbn. split; [auto|discriminate]. }
  destruct (Json.prop "to" (Mailer.mailConfig st)) as [to|] eqn:Hp; [|discriminate].
  assert (Harr : (exists recipients, to = JArr recipients) \/ Json.isArray (Some to) = false)
    by (destruct to; cbn; eauto).
  destruct Harr as [[recipients ->]|Harr].
  - destruct recipients as [|first others]; cbn [Mailer.noRecipients length Nat.eqb].
    + eexists _, _. split; [reflexivity|]. cbn. split; [auto|discriminate].
    + sys_answer w; cbn [app].
      * eexists _, _. split; [rewrite <- !app_assoc; reflexivity|]. split; [|discriminate].
        right. exists (first :: others). repeat split; discriminate.
      * eexists _, _. split; [rewrite <- !app_assoc; reflexivity|]. split; [|discriminate].
        right. exists (first :: others). repeat split; discriminate.
  - destruct (Mailer.noRecipients (Some to)) eqn:Hn; cbn [orb]; cbv beta iota.
    + eexists _, _. split; [reflexivity|]. cbn. split; [auto|discriminate].
    + destruct to; try discriminate Harr;
        (eexists _, _; split; [rewrite app_nil_r; reflexivity|]; split; [|discriminate];
         repeat split; auto).
Qed.

(** X21. [sendEmail] leaves the variables of the module as they are and hands
    at most one mail to the transporter.  The value it returns tells whether
    that mail was accepted; the mail goes to the recipients of the
    configuration joined by a comma, and its HTML body is the text body when
    none is given.  Without a transporter it returns [false] without a call.
    It throws only where the recipients are not a list. *)
Theorem sendEmail_sends_one_mail_at_most (subject textBody : string)
    (htmlBody : option string) (attachments : list Sys.Attachment) (w : Sys.World)
    (st : Mailer.Module) :
  exists r tr,
    Sys.run (Mailer.sendEmail typeError subject textBody htmlBody attachments) w st
    = (r, st, tr)
    /\ match r with
       | Ok sent =>
           (sent = false /\ Mailer.mails tr = [])
           \/ exists recipients,
                Json.prop "to" (Mailer.mailConfig st) = Some (JArr recipients)
                /\ Mailer.mails tr
                   = [(Sys.mkMail (Json.prop "from" (Mailer.mailConfig st))
                         (Json.join ", " recipients) subject textBody
                         (if JS.truthyOpt htmlBody then JS.show htmlBody else textBody)
                         attachments, sent)]
       | Threw e =>
           e = typeError "mailConfig.to.join"
           /\ Mailer.mails tr = []
           /\ Json.isArray (Json.prop "to" (Mailer.mailConfig st)) = false
       end
    /\ (Mailer.transporter st = None -> r = Ok false /\ filter Sys.isCalled tr = []).
Proof.
  destruct (sendEmail_spec subject textBody htmlBody attachments w st [])
    as (r & ext & E & Hr & Hnone).
  exists r, ext. split; [exact E|]. split; [|exact Hnone].
  destruct r as [sent|e].
  - destruct Hr as [Hr|(recipients & _ & H1 & _ & H2)]; eauto.
  - destruct Hr as (H1 & H2 & _ & H3). auto.
Qed.

(** X22. [sendSyncReport] sends at most one mail, and none unless a repository
    was synced or failed; the mail carries the subject and the text of the
    report, and whether it was accepted or not the function returns.  With no
    synced and no failed repository it returns without throwing. *)
Theorem sync_report_needs_activity (appConfig : Mailer.AppConfig) (syncResults : Results)
    (w : Sys.World) (st : Mailer.Module) :
  exists r st' tr,
    Sys.run (Mailer.sendSyncReport cwd path_resolve path_basename typeError appConfig
               syncResults) w st = (r, st', tr)
    /\ match Mailer.mails tr with
       | [] => True
       | [(m, sent)] =>
           (0 < syncedRepos syncResults \/ 0 < failedRepos syncResults)
           /\ Sys.mail_subject m = Mailer.reportSubject syncResults
           /\ Sys.mail_text m = Mailer.reportText syncResults
           /\ Sys.mail_html m = Mailer.reportText syncResults
           /\ r = Ok tt
       | _ => False
       end
    /\ (syncedRepos syncResults = 0 -> failedRepos syncResults = 0 -> r = Ok tt).
Proof.
  unfold Mailer.sendSyncReport, Sys.run.
  destruct (Json.truthy (Mailer.app_email appConfig)) eqn:He; cbn [negb].
  2:{ sys_unfold. eexists _, _, _. split; [reflexivity|]. cbn. auto. }
  unfold Sys.bind at 1.
  destruct (initializeMailer_spec (Mailer.app_email appConfig) w st [])
    as (st1 & ext1 & E1 & Hm1 & _).
  rewrite E1. cbn [app]. unfold Sys.bind at 1. unfold Sys.get at 1.
  assert (Hsend : forall attachments (mid : Sys.trace),
    Mailer.mails mid = [] ->
    exists r st' tr,
      (if Nat.ltb 0 (failedRepos syncResults) && Mailer.app_sendMailOnFailure appConfig
          || (Nat.ltb 0 (syncedRepos syncResults) || Nat.ltb 0 (failedRepos syncResults))
       then Sys.bind (Mailer.sendEmail typeError (Mailer.reportSubject syncResults)
                        (Mailer.reportText syncResults) None attachments)
              (fun _ => Sys.ret tt)
       else Sys.log info "No conditions met to send sync report email (e.g., no failures, no activity, or mailer not configured)." None)
        w st1 (ext1 ++ mid)%list = (r, st', tr)
      /\ match Mailer.mails tr with
         | [] => True
         | [(m, sent)] =>
             (0 < syncedRepos syncResults \/ 0 < failedRepos syncResults)
             /\ Sys.mail_subject m = Mailer.reportSubject syncResults
             /\ Sys.mail_text m = Mailer.reportText syncResults
             /\ Sys.mail_html m = Mailer.reportText syncResults
             /\ r = Ok tt
         | _ => False
         end
      /\ (syncedRepos syncResults = 0 -> failedRepos syncResults = 0 -> r = Ok tt)).
  { intros attachments mid Hmid.
    destruct (Nat.ltb 0 (failedRepos syncResults) && Mailer.app_sendMailOnFailure appConfig
              || (Nat.ltb 0 (syncedRepos syncResults) || Nat.ltb 0 (failedRepos syncResults)))
      eqn:Hs.
    - assert (Hact : 0 < syncedRepos syncResults \/ 0 < failedRepos syncResults).
      { destruct (Nat.ltb 0 (failedRepos syncResults)) eqn:Hf;
          [apply Nat.ltb_lt in Hf; auto|].
        destruct (Nat.ltb 0 (syncedRepos syncResults)) eqn:Hy;
          [apply Nat.ltb_lt in Hy; auto|discriminate Hs]. }
      unfold Sys.bind.
      destruct (sendEmail_spec (Mailer.reportSubject syncResults)
                  (Mailer.reportText syncResults) None attachments w st1 (ext1 ++ mid)%list)
        as (r & ext & E & Hr & _).
      rewrite E. destruct r as [b|e].
      + unfold Sys.ret. eexists _, _, _. split; [reflexivity|].
        rewrite !mails_app, Hm1, Hmid. cbn [app]. split; [|auto].
        destruct Hr as [[_ ->]|(recipients & _ & _ & _ & ->)]; cbn; auto 6.
      + eexists _, _, _. split; [reflexivity|].
        rewrite !mails_app, Hm1, Hmid. cbn [app].
        destruct Hr as (_ & -> & _). split; [exact I|]. intros. lia.
    - sys_unfold. eexists _, _, _. split; [reflexivity|].
      rewrite !mails_app, Hm1, Hmid. cbn. auto. }
  assert (Hattach : forall (k : list Sys.Attachment -> Sys.Prog Mailer.Module unit),
    (forall attachments (mid : Sys.trace), Mailer.mails mid = [] ->
       exists r st' tr, k attachments w st1 (ext1 ++ mid)%list = (r, st', tr)
         /\ match Mailer.mails tr with
            | [] => True
            | [(m, sent)] =>
                (0 < syncedRepos syncResults \/ 0 < failedRepos syncResults)
                /\ Sys.mail_subject m = Mailer.reportSubject syncResults
                /\ Sys.mail_text m = Mailer.reportText syncResults
                /\ Sys.mail_html m = Mailer.reportText syncResults
                /\ r = Ok tt
            | _ => False
            end
         /\ (syncedRepos syncResults = 0 -> failedRepos syncResults = 0 -> r = Ok tt)) ->
    exists r st' tr,
      Sys.bind
        (if JS.truthyOpt (Mailer.app_outputFile appConfig) then
           Sys.try_catch
             (let logFile := path_resolve cwd (JS.show (Mailer.app_outputFile appConfig)) in
              Sys.bind (Sys.ask (Sys.existsSync logFile))
                (fun present =>
                   if present then
                     Sys.bind (Sys.log info ("Attaching log file: " ++ logFile
                                             ++ " to the report.") None)
                       (fun _ => Sys.ret [Sys.mkAttachment (path_basename logFile) logFile])
                   else
                     Sys.bind (Sys.log warn ("Log file " ++ logFile
                                             ++ " not found for attachment.") None)
                       (fun _ => Sys.ret [])))
             (fun e =>
                Sys.bind (Sys.log err ("Error accessing log file for attachment: "
                                       ++ JS.show (Mailer.app_outputFile appConfig))
                            (Some (message e)))
                  (fun _ => Sys.ret []))
         else Sys.ret []) k w st1 ext1 = (r, st', tr)
      /\ match Mailer.mails tr with
         | [] => True
         | [(m, sent)] =>
             (0 < syncedRepos syncResults \/ 0 < failedRepos syncResults)
             /\ Sys.mail_subject m = Mailer.reportSubject syncResults
             /\ Sys.mail_text m = Mailer.reportText syncResults
             /\ Sys.mail_html m = Mailer.reportText syncResults
             /\ r = Ok tt
         | _ => False
         end
      /\ (syncedRepos syncResults = 0 -> failedRepos syncResults = 0 -> r = Ok tt)).
  { intros k Hk. destruct (JS.truthyOpt (Mailer.app_outputFile appConfig)).
    - cbv zeta. sys_unfold. sys_reply_as w present. destruct present.
      + rewrite <- !app_assoc. apply Hk. reflexivity.
      + rewrite <- !app_assoc. apply Hk. reflexivity.
    - sys_unfold. rewrite <- (app_nil_r ext1). apply Hk. reflexivity. }
  destruct (Mailer.transporter st1) as [t|] eqn:Ht.
  - destruct (Mailer.app_sendMailOnFailure appConfig), (failedRepos syncResults);
      cbv zeta; apply Hattach; intros; apply Hsend; assumption.
  - destruct (Mailer.app_sendMailOnFailure appConfig) eqn:Hf.
    + destruct (failedRepos syncResults) eqn:Hn.
      * sys_unfold. eexists _, _, _. split; [reflexivity|].
        rewrite mails_app, Hm1. cbn. auto.
      * cbv zeta. apply Hattach. intros. apply Hsend. assumption.
    + sys_unfold. eexists _, _, _. split; [reflexivity|].
      rewrite mails_app, Hm1. cbn. auto.
Qed.

End MailerProperties.

(** ** Reading and writing the fields of an object *)

Lemma assoc_assign_same key v fields :
  Json.assoc key (Json.assign key v fields) = Some v.
Proof.
  induction fields as [|[k old] rest IH]; cbn.
  - rewrite String.eqb_refl. reflexivity.
  - destruct (String.eqb k key) eqn:E; cbn; rewrite E; auto.
Qed.

Lemma assoc_assign_other key key' v fields :
  String.eqb key key' = false ->
  Json.assoc key' (Json.assign key v fields) = Json.assoc key' fields.
Proof.
  intros H. induction fields as [|[k old] rest IH]; cbn.
  - rewrite H. reflexivity.
  - destruct (String.eqb k key) eqn:E; cbn.
    + apply String.eqb_eq in E. subst k. rewrite H. reflexivity.
    + destruct (String.eqb k key'); auto.
Qed.

Lemma assign_same key v fields :
  Json.assoc key fields = Some v -> Json.assign key v fields = fields.
Proof.
  induction fields as [|[k old] rest IH]; cbn; [discriminate|].
  destruct (String.eqb k key) eqn:E.
  - intros H. injection H as ->. reflexivity.
  - intros H. rewrite IH; auto.
Qed.

Lemma field_set_same key v fields :
  Json.field key (Json.set key v (JObj fields)) = Some v.
Proof. apply assoc_assign_same. Qed.

Lemma field_set_other key key' v value :
  String.eqb key key' = false ->
  Json.field key' (Json.set key v value) = Json.field key' value.
Proof. intros H. destruct value; auto. cbn. apply assoc_assign_other; auto. Qed.

Lemma set_same key v value :
  Json.field key value = Some v -> Json.set key v value = value.
Proof. destruct value; cbn; try discriminate. intros H. rewrite assign_same; auto. Qed.

Lemma field_assign_same key v fields :
  Json.field key (JObj (Json.assign key v fields)) = Some v.
Proof. apply assoc_assign_same. Qed.

Lemma field_assign_other key key' v fields :
  String.eqb key key' = false ->
  Json.field key' (JObj (Json.assign key v fields)) = Json.field key' (JObj fields).
Proof. apply assoc_assign_other. Qed.

Lemma truthy_object (key : string) (value : json) :
  Json.truthy (Json.field key value) = true -> exists fields, value = JObj fields.
Proof. destruct value; cbn; try discriminate. eauto. Qed.

Lemma set_object key v value :
  (exists fields, value = JObj fields) -> exists fields, Json.set key v value = JObj fields.
Proof. intros [fields ->]. cbn. eauto. Qed.

(** ** Validation of the configuration *)

Section ConfigProperties.

Variable typeError : string -> Error.

Lemma find_none_forallb {A} (p : A -> bool) (l : list A) :
  find (fun a => negb (p a)) l = None <-> forallb p l = true.
Proof.
  induction l as [|a l IH]; cbn; [tauto|].
  destruct (p a); cbn; [exact IH|]. split; discriminate.
Qed.

Lemma validateAccount_spec (index : nat) (account : json) (w : Sys.World) (st : unit)
    (tr : Sys.trace) :
  exists r ext,
    ConfigFile.validateAccount typeError index account w st tr = (r, st, (tr ++ ext)%list)
    /\ (forall account', r = Ok account' -> ConfigFile.validAccount account' = true)
    /\ (ConfigFile.validAccount account = true -> r = Ok account /\ ext = []).
Proof.
  destruct account as [| | | | |fields];
    try (cbn; sys_unfold; eexists _, _; split; [rewrite app_nil_r; reflexivity|];
         split; discriminate).
  unfold ConfigFile.validateAccount, ConfigFile.validAccount.
  destruct (Json.truthy (Json.field "token" (JObj fields))) eqn:Ht; cbn [negb andb].
  2:{ sys_unfold. eexists _, _. split; [rewrite app_nil_r; reflexivity|].
      split; discriminate. }
  destruct (Json.field "repos" (JObj fields)) as [repos|] eqn:Hr.
  2:{ sys_unfold. eexists _, _. split; [rewrite app_nil_r; reflexivity|].
      split; discriminate. }
  assert (Harr : (exists first others, repos = JArr (first :: others))
                 \/ match repos with JArr (_ :: _) => False | _ => True end).
  { destruct repos as [| | | |[|first others]|]; eauto. }
  destruct Harr as [(first & others & ->)|Hn].
  2:{ destruct repos as [| | | |[|first others]|]; try contradiction; sys_unfold;
        (eexists _, _; split; [rewrite app_nil_r; reflexivity|]; split; discriminate). }
  destruct (find (fun repo => negb (regexTest repoRegex (Json.toString repo))) (first :: others))
    as [bad|] eqn:Hfind.
  { sys_unfold. eexists _, _. split; [rewrite app_nil_r; reflexivity|].
    split; [discriminate|]. intros H. apply andb_true_iff in H as [H _].
    apply andb_true_iff in H as [H _].
    apply find_none_forallb in H. congruence. }
  pose proof (proj1 (find_none_forallb _ _) Hfind) as Hall. rewrite Hall. cbn [andb].
  sys_unfold. cbn [Json.set].
  destruct (Json.truthy (Json.field "devBranch" (JObj fields))) eqn:Hd; cbn [negb].
  - destruct (Json.truthy (Json.field "upstreamBranch" (JObj fields))) eqn:Hu; cbn [negb].
    + eexists _, _. split; [rewrite app_nil_r; reflexivity|]. split.
      * intros ? H. injection H as <-. rewrite Ht, Hr, Hall, Hd, Hu. reflexivity.
      * auto.
    + eexists _, _. split; [reflexivity|]. split; [|discriminate].
      intros ? H. injection H as <-.
      rewrite !field_assign_other by reflexivity. rewrite field_assign_same, Ht, Hr, Hall, Hd.
      reflexivity.
  - destruct (Json.truthy (Json.field "upstreamBranch"
                (JObj (Json.assign "devBranch" (JStr "dev") fields)))) eqn:Hu; cbn [negb].
    + eexists _, _. split; [reflexivity|]. split; [|discriminate].
      intros ? H. injection H as <-. rewrite Hu.
      rewrite !field_assign_other by reflexivity. rewrite field_assign_same, Ht, Hr, Hall.
      reflexivity.
    + eexists _, _. split; [rewrite <- app_assoc; reflexivity|]. split; [|discriminate].
      intros ? H. injection H as <-.
      rewrite field_assign_same.
      rewrite (field_assign_other "upstreamBranch" "devBranch") by reflexivity.
      rewrite field_assign_same.
      rewrite !field_assign_other by reflexivity. rewrite Ht, Hr, Hall. reflexivity.
Qed.

Lemma validateAccounts_spec (accounts : list json) (w : Sys.World) (st : unit) :
  forall (index : nat) (tr : Sys.trace),
  exists r ext,
    ConfigFile.validateAccounts typeError index accounts w st tr = (r, st, (tr ++ ext)%list)
    /\ (forall accounts', r = Ok accounts' ->
        forallb ConfigFile.validAccount accounts' = true
        /\ length accounts' = length accounts)
    /\ (forallb ConfigFile.validAccount accounts = true -> r = Ok accounts /\ ext = []).
Proof.
  induction accounts as [|account rest IH]; intros index tr.
  - cbn. sys_unfold. exists (Ok []), []. rewrite app_nil_r. split; auto. split; auto.
    intros ? H. injection H as <-. auto.
  - cbn [ConfigFile.validateAccounts]. unfold Sys.bind at 1.
    destruct (validateAccount_spec index account w st tr) as (r & ext & E & Hok & Hval).
    rewrite E. destruct r as [account'|e].
    + unfold Sys.bind at 1.
      destruct (IH (S index) (tr ++ ext)%list) as (r' & ext' & E' & Hok' & Hval').
      rewrite E'. destruct r' as [rest'|e].
      * unfold Sys.ret. eexists _, _. split; [rewrite <- app_assoc; reflexivity|]. split.
        -- intros ? H. injection H as <-. cbn. rewrite (Hok _ eq_refl).
           destruct (Hok' _ eq_refl) as [-> ->]. auto.
        -- cbn. intros H. apply andb_true_iff in H as [H1 H2].
           destruct (Hval H1) as [Ha ->]. destruct (Hval' H2) as [Hr ->].
           injection Ha as ->. injection Hr as ->. auto.
      * eexists _, _. split; [rewrite <- app_assoc; reflexivity|]. split; [discriminate|].
        cbn. intros H. apply andb_true_iff in H as [H1 H2].
        destruct (Hval' H2) as [Hr _]. discriminate.
    + eexists _, _. split; [reflexivity|]. split; [discriminate|].
      cbn. intros H. apply andb_true_iff in H as [H1 H2].
      destruct (Hval H1) as [Ha _]. discriminate.
Qed.

Lemma validateEmail_step :
  ConfigFile.StepSpec ConfigFile.validateEmail "email" ConfigFile.validEmail.
Proof.
  intros fields w st tr. unfold ConfigFile.validateEmail, ConfigFile.validEmail.
  cbv zeta. destruct (Json.truthy (Json.field "email" (JObj fields))) eqn:He.
  2:{ sys_unfold. eexists _, _. split; [reflexivity|]. split.
      - intros ? H. injection H as <-. rewrite He. eauto.
      - auto. }
  destruct (find (fun field => negb (Json.truthy (Json.prop field (Json.field "email" (JObj fields)))))
              ConfigFile.requiredEmailFields) as [missing|] eqn:Hfind.
  { sys_unfold. eexists _, _. split; [rewrite app_nil_r; reflexivity|].
    split; [discriminate|]. intros H. apply andb_true_iff in H as [H _].
    apply find_none_forallb in H. congruence. }
  pose proof (proj1 (find_none_forallb _ _) Hfind) as Hall. rewrite Hall. cbn [andb].
  destruct (Json.field "email" (JObj fields)) as [emailObject|] eqn:Hemail; [|discriminate].
  cbn [Json.prop] in *.
  assert (Hfour : Json.truthy (Json.field "smtpHost" emailObject) = true
                  /\ Json.truthy (Json.field "smtpPort" emailObject) = true
                  /\ Json.truthy (Json.field "from" emailObject) = true
                  /\ Json.truthy (Json.field "to" emailObject) = true).
  { cbn in Hall. rewrite !andb_true_iff in Hall. tauto. }
  destruct Hfour as (H1 & H2 & H3 & H4).
  destruct (truthy_object _ _ H1) as [efields ->].
  destruct (Json.field "to" (JObj efields)) as [to|] eqn:Hto; [|discriminate].
  destruct (Json.isArray (Some to)) eqn:Harr; cbn [negb]; sys_unfold.
  - eexists _, _. split; [rewrite app_nil_r; reflexivity|]. split; auto.
    intros ? H. injection H as <-. rewrite Hemail, He. cbn [Json.prop].
    rewrite Hall, Hto, Harr. eauto.
  - eexists _, _. split; [rewrite app_nil_r; reflexivity|]. split; [|discriminate].
    intros ? H. injection H as <-. cbn [Json.set]. split; [eauto|]. split.
    + rewrite field_assign_same. cbn [Json.truthy Json.prop ConfigFile.requiredEmailFields forallb].
      rewrite !(field_assign_other "to") by reflexivity.
      rewrite field_assign_same, H1, H2, H3. reflexivity.
    + intros key Hk. apply field_assign_other; auto.
Qed.

Lemma defaultSchedule_step :
  ConfigFile.StepSpec ConfigFile.defaultSchedule "schedule"
    (fun config => Json.truthy (Json.field "schedule" config)).
Proof.
  intros fields w st tr. unfold ConfigFile.defaultSchedule.
  destruct (Json.truthy (Json.field "schedule" (JObj fields))) eqn:H; cbn [negb]; sys_unfold.
  - eexists _, _. split; [rewrite app_nil_r; reflexivity|]. split; auto.
    intros ? E. injection E as <-. eauto.
  - eexists _, _. split; [reflexivity|]. split; [|discriminate].
    intros ? E. injection E as <-. cbn [Json.set]. split; [eauto|]. split.
    + rewrite field_assign_same. reflexivity.
    + intros key Hk. apply field_assign_other; auto.
Qed.

Lemma defaultReposBaseDir_step :
  ConfigFile.StepSpec ConfigFile.defaultReposBaseDir "reposBaseDir"
    (fun config => Json.truthy (Json.field "reposBaseDir" config)).
Proof.
  intros fields w st tr. unfold ConfigFile.defaultReposBaseDir.
  destruct (Json.truthy (Json.field "reposBaseDir" (JObj fields))) eqn:H; cbn [negb];
    sys_unfold.
  - eexists _, _. split; [rewrite app_nil_r; reflexivity|]. split; auto.
    intros ? E. injection E as <-. eauto.
  - eexists _, _. split; [reflexivity|]. split; [|discriminate].
    intros ? E. injection E as <-. cbn [Json.set]. split; [eauto|]. split.
    + rewrite field_assign_same. reflexivity.
    + intros key Hk. apply field_assign_other; auto.
Qed.

Lemma validateLlm_step :
  ConfigFile.StepSpec (ConfigFile.validateLlm typeError) "llm" ConfigFile.validLlm.
Proof.
  intros fields w st tr. unfold ConfigFile.validateLlm, ConfigFile.validLlm. cbv zeta.
  destruct (Json.truthy (Json.field "llm" (JObj fields))) eqn:Hl.
  2:{ sys_unfold. eexists _, _. split; [rewrite app_nil_r; reflexivity|].
      split; [discriminate|].
      destruct (Json.field "llm" (JObj fields)) as [llm|]; [|discriminate].
      cbn [Json.prop]. intros H. apply andb_true_iff in H as [H _].
      apply andb_true_iff in H as [H _]. apply truthy_object in H as [f ->]. discriminate. }
  destruct (Json.field "llm" (JObj fields)) as [llm|] eqn:Hllm; [|discriminate].
  cbn [Json.prop].
  destruct llm as [| | | | |lfields];
    try (sys_unfold; eexists _, _;
         split; [first [rewrite app_nil_r; reflexivity | rewrite <- app_assoc; reflexivity]|];
         split; discriminate).
  sys_unfold. cbn [Json.set].
  destruct (Json.truthy (Json.field "provider" (JObj lfields))) eqn:Hp; cbn [negb]; cbv beta iota; cbn [Json.set].
  - destruct (Json.truthy (Json.field "model" (JObj lfields))) eqn:Hm; cbn [negb]; cbv beta iota; cbn [Json.set].
    + destruct (Json.truthy (Json.field "apiKey" (JObj lfields))) eqn:Hk; cbn [negb]; cbv beta iota; cbn [Json.set].
      * eexists _, _. split; [rewrite app_nil_r; reflexivity|]. split.
        -- intros ? E. injection E as <-. split; [eauto|]. split.
           ++ rewrite field_assign_same. cbn [Json.prop]. rewrite Hp, Hm, Hk. reflexivity.
           ++ intros key Hkey. apply field_assign_other; auto.
        -- intros _. f_equal. f_equal. apply assign_same. exact Hllm.
      * eexists _, _. split; [rewrite app_nil_r; reflexivity|]. split; discriminate.
    + destruct (Json.truthy (Json.field "apiKey"
                  (JObj (Json.assign "model" (JStr "gpt-4") lfields)))) eqn:Hk; cbn [negb]; cbv beta iota; cbn [Json.set].
      * eexists _, _. split; [reflexivity|]. split; [|discriminate].
        intros ? E. injection E as <-. split; [eauto|]. split.
        -- rewrite field_assign_same. cbn [Json.prop]. rewrite Hk.
           rewrite field_assign_same, field_assign_other, Hp by reflexivity. reflexivity.
        -- intros key Hkey. apply field_assign_other; auto.
      * eexists _, _. split; [reflexivity|]. split; discriminate.
  - destruct (Json.truthy (Json.field "model"
                (JObj (Json.assign "provider" (JStr "openai") lfields)))) eqn:Hm; cbn [negb]; cbv beta iota; cbn [Json.set].
    + destruct (Json.truthy (Json.field "apiKey"
                  (JObj (Json.assign "provider" (JStr "openai") lfields)))) eqn:Hk;
        cbn [negb]; cbv beta iota; cbn [Json.set].
      * eexists _, _. split; [reflexivity|]. split; [|discriminate].
        intros ? E. injection E as <-. split; [eauto|]. split.
        -- rewrite field_assign_same. cbn [Json.prop]. rewrite Hk, Hm.
           rewrite field_assign_same. reflexivity.
        -- intros key Hkey. apply field_assign_other; auto.
      * eexists _, _. split; [reflexivity|]. split; discriminate.
    + destruct (Json.truthy (Json.field "apiKey"
                  (JObj (Json.assign "model" (JStr "gpt-4")
                           (Json.assign "provider" (JStr "openai") lfields))))) eqn:Hk;
        cbn [negb]; cbv beta iota; cbn [Json.set].
      * eexists _, _. split; [rewrite <- app_assoc; reflexivity|]. split; [|discriminate].
        intros ? E. injection E as <-. split; [eauto|]. split.
        -- rewrite field_assign_same. cbn [Json.prop]. rewrite Hk.
           rewrite field_assign_same, field_assign_other, field_assign_same by reflexivity.
           reflexivity.
        -- intros key Hkey. apply field_assign_other; auto.
      * eexists _, _. split; [rewrite <- app_assoc; reflexivity|]. split; discriminate.
Qed.

Lemma validEmail_same config config' :
  Json.field "email" config' = Json.field "email" config ->
  ConfigFile.validEmail config' = ConfigFile.validEmail config.
Proof. unfold ConfigFile.validEmail. intros ->. reflexivity. Qed.

Lemma validLlm_same config config' :
  Json.field "llm" config' = Json.field "llm" config ->
  ConfigFile.validLlm config' = ConfigFile.validLlm config.
Proof. unfold ConfigFile.validLlm. intros ->. reflexivity. Qed.

Lemma validateSettings_spec (fields : list (string * json)) (w : Sys.World) (st : unit)
    (tr : Sys.trace) :
  exists r ext,
    ConfigFile.validateSettings typeError (JObj fields) w st tr = (r, st, (tr ++ ext)%list)
    /\ (forall config', r = Ok config' ->
        ConfigFile.validSettings config' = true
        /\ forall key,
             existsb (String.eqb key) ["email"; "schedule"; "reposBaseDir"; "llm"] = false ->
             Json.field key config' = Json.field key (JObj fields))
    /\ (ConfigFile.validSettings (JObj fields) = true -> r = Ok (JObj fields)).
Proof.
  unfold ConfigFile.validateSettings.
  destruct (validateEmail_step fields w st tr) as (r1 & ext1 & E1 & Hok1 & Hval1).
  unfold Sys.bind at 1. rewrite E1. destruct r1 as [c1|e].
  2:{ eexists _, _. split; [reflexivity|]. split; [discriminate|].
      unfold ConfigFile.validSettings. intros H. rewrite !andb_true_iff in H.
      destruct H as [[[H _] _] _]. apply Hval1 in H. discriminate. }
  destruct (Hok1 _ eq_refl) as ([f1 ->] & Hg1 & Hs1).
  destruct (defaultSchedule_step f1 w st (tr ++ ext1)%list) as (r2 & ext2 & E2 & Hok2 & Hval2).
  unfold Sys.bind at 1. rewrite E2. destruct r2 as [c2|e].
  2:{ revert E2. unfold ConfigFile.defaultSchedule. sys_unfold.
      destruct (negb _); discriminate. }
  destruct (Hok2 _ eq_refl) as ([f2 ->] & Hg2 & Hs2).
  destruct (defaultReposBaseDir_step f2 w st ((tr ++ ext1) ++ ext2)%list)
    as (r3 & ext3 & E3 & Hok3 & Hval3).
  unfold Sys.bind at 1. rewrite E3. destruct r3 as [c3|e].
  2:{ revert E3. unfold ConfigFile.defaultReposBaseDir. sys_unfold.
      destruct (negb _); discriminate. }
  destruct (Hok3 _ eq_refl) as ([f3 ->] & Hg3 & Hs3).
  destruct (validateLlm_step f3 w st (((tr ++ ext1) ++ ext2) ++ ext3)%list)
    as (r4 & ext4 & E4 & Hok4 & Hval4).
  rewrite E4. exists r4. eexists. split; [rewrite <- !app_assoc; reflexivity|]. split.
  - intros c4 ->. destruct (Hok4 _ eq_refl) as ([f4 ->] & Hg4 & Hs4).
    split.
    + unfold ConfigFile.validSettings. rewrite Hg4.
      rewrite (validEmail_same (JObj f1) (JObj f4)), Hg1.
      2:{ rewrite Hs4, Hs3, Hs2 by reflexivity. reflexivity. }
      rewrite (Hs4 "schedule"), (Hs3 "schedule"), Hg2 by reflexivity.
      rewrite (Hs4 "reposBaseDir"), Hg3 by reflexivity. reflexivity.
    + intros key Hkey. cbn [existsb] in Hkey. rewrite !orb_false_iff in Hkey.
      destruct Hkey as (K1 & K2 & K3 & K4 & _).
      rewrite Hs4, Hs3, Hs2, Hs1; auto; rewrite String.eqb_sym; assumption.
  - unfold ConfigFile.validSettings. intros H. rewrite !andb_true_iff in H.
    destruct H as [[[V1 V2] V3] V4].
    pose proof (Hval1 V1) as R1. injection R1 as <-.
    pose proof (Hval2 V2) as R2. injection R2 as <-.
    pose proof (Hval3 V3) as R3. injection R3 as <-.
    exact (Hval4 V4).
Qed.

(** The run of [validateConfig] on a configuration with a non-empty
    [accounts] array. *)
Lemma validateConfig_spec (fields : list (string * json)) (first : json)
    (others : list json) (w : Sys.World) (st : unit) (tr : Sys.trace) :
  Json.field "accounts" (JObj fields) = Some (JArr (first :: others)) ->
  exists r ext,
    ConfigFile.validateConfig typeError (JObj fields) w st tr = (r, st, (tr ++ ext)%list)
    /\ (forall config', r = Ok config' -> ConfigFile.validated config' = true)
    /\ (ConfigFile.validated (JObj fields) = true -> r = Ok (JObj fields)).
Proof.
  intros Hacc. unfold ConfigFile.validateConfig. rewrite Hacc. unfold Sys.bind at 1.
  destruct (validateAccounts_spec (first :: others) w st 0 tr)
    as (r1 & ext1 & E1 & Hok1 & Hval1).
  rewrite E1. destruct r1 as [accounts|e].
  2:{ eexists _, _. split; [reflexivity|]. split; [discriminate|].
      unfold ConfigFile.validated. rewrite Hacc. intros H.
      apply andb_true_iff in H as [H _]. apply Hval1 in H as [H _]. discriminate. }
  destruct (Hok1 _ eq_refl) as [Hall Hlen]. cbn [Json.set].
  destruct (validateSettings_spec (Json.assign "accounts" (JArr accounts) fields) w st
              (tr ++ ext1)%list) as (r2 & ext2 & E2 & Hok2 & Hval2).
  rewrite E2. exists r2. eexists. split; [rewrite <- app_assoc; reflexivity|]. split.
  - intros config' ->. destruct (Hok2 _ eq_refl) as [Hs Hsame].
    unfold ConfigFile.validated. rewrite Hs, Hsame by reflexivity.
    rewrite field_assign_same. destruct accounts as [|a l]; [discriminate Hlen|].
    rewrite Hall. reflexivity.
  - unfold ConfigFile.validated. rewrite Hacc. intros H.
    apply andb_true_iff in H as [H1 H2]. destruct (Hval1 H1) as [Ha _].
    injection Ha as ->. rewrite assign_same in * by exact Hacc. apply Hval2. exact H2.
Qed.

Lemma validateConfig_rejects (config : json) (w : Sys.World) (st : unit) (tr : Sys.trace) :
  match Json.field "accounts" config with
  | Some (JArr (_ :: _)) => False
  | _ => True
  end ->
  exists e, ConfigFile.validateConfig typeError config w st tr = (Threw e, st, tr).
Proof.
  destruct config as [| | | | |fields]; cbn; sys_unfold; eauto.
  destruct (Json.assoc "accounts" fields) as [[| | | |[|first others]|]|]; eauto.
  contradiction.
Qed.

Lemma validateConfig_ok (config config' : json) (w : Sys.World) (st st' : unit)
    (tr tr' : Sys.trace) :
  ConfigFile.validateConfig typeError config w st tr = (Ok config', st', tr') ->
  ConfigFile.validated config' = true.
Proof.
  intros Hrun.
  assert (Hacc : (exists first others,
                    Json.field "accounts" config = Some (JArr (first :: others)))
                 \/ match Json.field "accounts" config with
                    | Some (JArr (_ :: _)) => False
                    | _ => True
                    end).
  { destruct (Json.field "accounts" config) as [[| | | |[|first others]|]|]; eauto. }
  destruct Hacc as [(first & others & Hacc)|Hno].
  - destruct (truthy_object "accounts" config) as [fields ->]; [rewrite Hacc; reflexivity|].
    destruct (validateConfig_spec fields first others w st tr Hacc) as (r & ext & E & Hok & _).
    rewrite E in Hrun. injection Hrun as -> _. apply Hok. reflexivity.
  - destruct (validateConfig_rejects config w st tr Hno) as [e E]. rewrite E in Hrun.
    discriminate.
Qed.

(** X23. A configuration that [validateConfig] ([src/src/config.js]) returns
    is valid: every account has a token, a non-empty list of repositories
    that match the pattern and both branches; the email settings, where
    present, have the four required fields with a list of recipients; the
    schedule and the base directory are set; and the settings of the text
    generation name a provider, a model and a key. *)
Theorem validateConfig_returns_valid_configuration (config config' : json) (w : Sys.World)
    (tr : Sys.trace) :
  Sys.run (ConfigFile.validateConfig typeError config) w tt = (Ok config', tt, tr) ->
  ConfigFile.validated config' = true.
Proof. apply validateConfig_ok. Qed.

(** X24. [validateConfig] ([src/src/config.js]) returns a valid configuration
    as it is. *)
Theorem valid_configuration_passes_unchanged (config : json) (w : Sys.World) :
  ConfigFile.validated config = true ->
  exists tr, Sys.run (ConfigFile.validateConfig typeError config) w tt = (Ok config, tt, tr).
Proof.
  intros Hv. unfold Sys.run.
  assert (Hacc : exists first others,
                   Json.field "accounts" config = Some (JArr (first :: others))).
  { unfold ConfigFile.validated in Hv.
    destruct (Json.field "accounts" config) as [[| | | |[|first others]|]|];
      try discriminate. eauto. }
  destruct Hacc as (first & others & Hacc).
  destruct (truthy_object "accounts" config) as [fields ->]; [rewrite Hacc; reflexivity|].
  destruct (validateConfig_spec fields first others w tt [] Hacc) as (r & ext & E & _ & Hval).
  rewrite E, (Hval Hv). eauto.
Qed.

Lemma validateConfig_run (config : json) (w : Sys.World) (st : unit) (tr : Sys.trace) :
  exists r ext,
    ConfigFile.validateConfig typeError config w st tr = (r, st, (tr ++ ext)%list)
    /\ forall config', r = Ok config' -> ConfigFile.validated config' = true.
Proof.
  assert (Hacc : (exists first others,
                    Json.field "accounts" config = Some (JArr (first :: others)))
                 \/ match Json.field "accounts" config with
                    | Some (JArr (_ :: _)) => False
                    | _ => True
                    end).
  { destruct (Json.field "accounts" config) as [[| | | |[|first others]|]|]; eauto. }
  destruct Hacc as [(first & others & Hacc)|Hno].
  - destruct (truthy_object "accounts" config) as [fields ->]; [rewrite Hacc; reflexivity|].
    destruct (validateConfig_spec fields first others w st tr Hacc) as (r & ext & E & Hok & _).
    eauto.
  - destruct (validateConfig_rejects config w st tr Hno) as [e E].
    exists (Threw e), []. rewrite app_nil_r. split; [exact E|discriminate].
Qed.

Variable env : string -> option string.
Variable path_extname : string -> string.

Ltac use_validateConfig w :=
  match goal with
  | |- context [ConfigFile.validateConfig ?t ?c w ?s ?tr] =>
      let r := fresh "r" in
      let ext := fresh "ext" in
      let E := fresh "E" in
      let Hok := fresh "Hok" in
      destruct (validateConfig_run c w s tr) as (r & ext & E & Hok);
      rewrite E; cbn [app]; destruct r;
      [ eexists _, _, _; split; [reflexivity|]; split;
        [ apply Hok; reflexivity
        | eexists (_ :: ext); reflexivity ]
      | eexists _, _, _; split; [reflexivity|];
        eexists (_ :: ext); reflexivity ]
  end.

(** X25. [initializeConfig] logs the path and reads the file first.  What it
    returns is a valid configuration, and the last log line is then the
    success line; what it throws was logged as an error in the last line of
    the run. *)
Theorem initializeConfig_returns_valid_configuration (configPath : string) (w : Sys.World) :
  exists r first rest,
    Sys.run (ConfigFile.initializeConfig env path_extname typeError configPath) w tt
    = (r, tt,
       Sys.Logged info ("Loading configuration from " ++ configPath) None
       :: Sys.Called (Sys.readFileSync configPath) first :: rest)
    /\ match r with
       | Ok config =>
           ConfigFile.validated config = true
           /\ exists before,
                rest = (before ++ [Sys.Logged info "Configuration loaded successfully" None])%list
       | Threw e =>
           exists before,
             rest = (before ++ [Sys.Logged err "Failed to initialize configuration:"
                                  (Some (message e))])%list
       end.
Proof.
  unfold ConfigFile.initializeConfig, ConfigFile.loadConfigFile. cbv zeta.
  sys_unfold. cbn [app]. sys_answer_as w content e.
  2:{ eexists _, _, _. split; [reflexivity|]. exists []. reflexivity. }
  cbn [app].
  destruct (String.eqb (JS.toLowerCase (path_extname configPath)) ".json").
  - sys_answer_as w parsed e; cbn [app].
    + use_validateConfig w.
    + eexists _, _, _. split; [reflexivity|]. eexists [_]. reflexivity.
  - destruct (String.eqb (JS.toLowerCase (path_extname configPath)) ".yaml"
              || String.eqb (JS.toLowerCase (path_extname configPath)) ".yml").
    + sys_answer_as w parsed e; cbn [app].
      * use_validateConfig w.
      * eexists _, _, _. split; [reflexivity|]. eexists [_]. reflexivity.
    + eexists _, _, _. split; [reflexivity|]. exists []. reflexivity.
Qed.

Variable JSON_stringify : json -> string.

Lemma validateRepoEntry_ok (stringify : RepoEntry -> string) (repoEntry : RepoEntry) (x : unit) :
  validateRepoEntry stringify repoEntry = Ok x ->
  JS.truthyOpt (upstream repoEntry) = true /\ JS.truthyOpt (fork repoEntry) = true
  /\ regexTest repoBranchRegex (JS.show (upstream repoEntry)) = true
  /\ regexTest repoBranchRegex (JS.show (fork repoEntry)) = true.
Proof.
  unfold validateRepoEntry.
  destruct (JS.truthyOpt (upstream repoEntry)); cbn [negb]; [|discriminate].
  destruct (JS.truthyOpt (fork repoEntry)); cbn [negb]; [|discriminate].
  destruct (regexTest repoBranchRegex (JS.show (upstream repoEntry))); cbn [negb];
    [|discriminate].
  destruct (regexTest repoBranchRegex (JS.show (fork repoEntry))); cbn [negb];
    [|discriminate].
  auto.
Qed.

Lemma validateEntries_spec (repos : list json) (w : Sys.World) (st : unit) :
  forall tr : Sys.trace,
  exists r,
    ConfigFile.validateEntries JSON_stringify typeError repos w st tr = (r, st, tr)
    /\ (r = Ok tt -> forallb ConfigFile.validEntry repos = true).
Proof.
  induction repos as [|repoEntry rest IH]; intros tr.
  - exists (Ok tt). split; reflexivity.
  - cbn [ConfigFile.validateEntries].
    assert (Hbody : exists r,
      Sys.bind
        (Sys.lift (validateRepoEntry (fun _ => JSON_stringify repoEntry)
                     (mkEntry (ConfigFile.stringField "upstream" repoEntry)
                        (ConfigFile.stringField "fork" repoEntry))))
        (fun _ => ConfigFile.validateEntries JSON_stringify typeError rest) w st tr
      = (r, st, tr)
      /\ (r = Ok tt -> forallb ConfigFile.validEntry (repoEntry :: rest) = true)).
    { unfold Sys.bind, Sys.lift.
      destruct (validateRepoEntry _ _) as [[]|e] eqn:Hentry.
      - unfold Sys.ret. destruct (IH tr) as (r & E & Hr). rewrite E. exists r.
        split; auto. intros ->. cbn [forallb]. rewrite Hr by reflexivity.
        apply validateRepoEntry_ok in Hentry as (H1 & H2 & H3 & H4).
        cbn [upstream fork] in *. unfold ConfigFile.validEntry.
        destruct (ConfigFile.stringField "upstream" repoEntry) as [u|]; [|discriminate].
        destruct (ConfigFile.stringField "fork" repoEntry) as [f|]; [|discriminate].
        cbn in H1, H2, H3, H4. rewrite H1, H2, H3, H4. reflexivity.
      - unfold Sys.throw. eexists. split; [reflexivity|discriminate]. }
    destruct repoEntry; try exact Hbody.
    unfold Sys.throw. eexists. split; [reflexivity|discriminate].
Qed.

(** X26. A configuration that [validateConfig] of [src/unnamed/part_003]
    returns is valid: the account is an object with a token and a non-empty
    list of entries whose [upstream] and [fork] are strings that match the
    pattern, and the settings are as for the other copy. *)
Theorem single_account_configuration_is_valid (config config' : json) (w : Sys.World)
    (tr : Sys.trace) :
  Sys.run (ConfigFile.validateConfig_single JSON_stringify typeError config) w tt
  = (Ok config', tt, tr) ->
  ConfigFile.validated_single config' = true.
Proof.
  unfold Sys.run, ConfigFile.validateConfig_single.
  destruct config as [| | | | |fields]; try (cbn; sys_unfold; discriminate).
  destruct (Json.field "account" (JObj fields)) as [[| | | | |afields]|] eqn:Hacc;
    try (sys_unfold; discriminate).
  destruct (Json.truthy (Json.field "token" (JObj afields))) eqn:Ht; cbn [negb];
    [|sys_unfold; discriminate].
  destruct (Json.field "repos" (JObj afields)) as [[| | | |[|first others]|]|] eqn:Hr;
    try (sys_unfold; discriminate).
  unfold Sys.bind at 1.
  destruct (validateEntries_spec (first :: others) w tt []) as (r & E & Hall).
  rewrite E. destruct r as [[]|e]; [|discriminate].
  destruct (validateSettings_spec fields w tt []) as (r2 & ext & E2 & Hok & _).
  rewrite E2. intros H. injection H as -> _.
  destruct (Hok _ eq_refl) as [Hs Hsame].
  unfold ConfigFile.validated_single. rewrite Hs, Hsame, Hacc, Ht, Hr by reflexivity.
  rewrite Hall by reflexivity. reflexivity.
Qed.

End ConfigProperties.

(** ** Comments in a JSON configuration file *)

Lemma includes_cons c s n :
  JS.includes (String c s) n = JS.startsWith (String c s) n || JS.includes s n.
Proof. reflexivity. Qed.

Lemma terminator_not_slash c : ConfigFile.isLineTerminator c = true -> Ascii.eqb "/" c = false.
Proof.
  intros H. destruct (Ascii.eqb "/" c) eqn:F; auto.
  apply Ascii.eqb_eq in F. subst. discriminate.
Qed.

Lemma strip_comment_head s : JS.startsWith (ConfigFile.stripComments_from true s) "/" = false.
Proof.
  induction s as [|c s IH]; auto. cbn [ConfigFile.stripComments_from].
  destruct (ConfigFile.isLineTerminator c) eqn:E; auto.
  cbn [JS.startsWith]. rewrite terminator_not_slash; auto.
Qed.

Lemma startsWith_one c s : JS.startsWith (String c s) "/" = Ascii.eqb "/" c.
Proof. cbn [JS.startsWith]. destruct s; apply andb_true_r. Qed.

Lemma startsWith_two c s :
  JS.startsWith (String c s) "//" = Ascii.eqb "/" c && JS.startsWith s "/".
Proof. reflexivity. Qed.

Lemma strip_head s :
  JS.startsWith s "/" = false -> JS.startsWith (ConfigFile.stripComments_from false s) "/" = false.
Proof.
  destruct s as [|c s]; auto. rewrite startsWith_one. intros H.
  cbn [ConfigFile.stripComments_from]. rewrite startsWith_two, H. cbn [andb].
  rewrite startsWith_one. auto.
Qed.

Lemma strip_no_slashes b s : JS.includes (ConfigFile.stripComments_from b s) "//" = false.
Proof.
  revert b. induction s as [|c s IH]; intros b; [destruct b; reflexivity|].
  cbn [ConfigFile.stripComments_from]. destruct b.
  - destruct (ConfigFile.isLineTerminator c) eqn:E; auto.
    rewrite includes_cons, IH, orb_false_r, startsWith_two, terminator_not_slash; auto.
  - destruct (JS.startsWith (String c s) "//") eqn:S; auto.
    rewrite includes_cons, IH, orb_false_r, startsWith_two.
    rewrite startsWith_two in S. destruct (Ascii.eqb "/" c); auto.
    cbn [andb] in *. apply strip_head; auto.
Qed.

Lemma strip_unchanged s : JS.includes s "//" = false -> ConfigFile.stripComments_from false s = s.
Proof.
  induction s as [|c s IH]; auto. rewrite includes_cons. intros H.
  apply orb_false_iff in H as [S I]. cbn [ConfigFile.stripComments_from]. rewrite S, IH; auto.
Qed.

(** X27. What [loadConfigFile] hands to [JSON.parse] has no two slashes in a
    row; the content is unchanged exactly when it had none, and stripping
    twice is stripping once. *)
Theorem stripped_content_has_no_comment (content : string) :
  JS.includes (ConfigFile.stripComments content) "//" = false
  /\ (ConfigFile.stripComments content = content <-> JS.includes content "//" = false)
  /\ ConfigFile.stripComments (ConfigFile.stripComments content) = ConfigFile.stripComments content.
Proof.
  split; [apply strip_no_slashes|]. split.
  - split; [intros <-; apply strip_no_slashes|apply strip_unchanged].
  - apply strip_unchanged, strip_no_slashes.
Qed.

(** The text before a comment, the comment and what follows the line. *)
Lemma strip_before a t :
  JS.includes (a ++ "/") "//" = false ->
  ConfigFile.stripComments_from false (a ++ "//" ++ t) = a ++ ConfigFile.stripComments_from true t.
Proof.
  induction a as [|c a IH]; intros H.
  - change ("" ++ "//" ++ t) with (String "/" (String "/" t)).
    cbn [ConfigFile.stripComments_from]. rewrite startsWith_two, startsWith_one. reflexivity.
  - change ((String c a) ++ "/") with (String c (a ++ "/")) in H.
    rewrite includes_cons in H. apply orb_false_iff in H as [S I].
    change (String c a ++ "//" ++ t) with (String c (a ++ "//" ++ t)).
    cbn [ConfigFile.stripComments_from].
    assert (S' : JS.startsWith (String c (a ++ "//" ++ t)) "//" = false).
    { rewrite startsWith_two in *. destruct (Ascii.eqb "/" c); auto. cbn [andb] in *.
      destruct a as [|d a]; [discriminate S|].
      change (String d a ++ "/") with (String d (a ++ "/")) in S.
      change (String d a ++ "//" ++ t) with (String d (a ++ "//" ++ t)).
      rewrite startsWith_one in *. auto. }
    rewrite S', IH; auto.
Qed.

Lemma strip_inside b rest :
  forallb (fun c => negb (ConfigFile.isLineTerminator c)) (Json.chars b) = true ->
  ConfigFile.stripComments_from true (b ++ rest) = ConfigFile.stripComments_from true rest.
Proof.
  induction b as [|c b IH]; auto. simpl. intros H.
  apply andb_true_iff in H as [Hc Hb]. destruct (ConfigFile.isLineTerminator c); [discriminate|]. auto.
Qed.

Lemma strip_line_end rest :
  match rest with
  | EmptyString => True
  | String c _ => ConfigFile.isLineTerminator c = true
  end ->
  ConfigFile.stripComments_from true rest = ConfigFile.stripComments_from false rest.
Proof.
  destruct rest as [|c r]; auto. intros H. cbn [ConfigFile.stripComments_from]. rewrite H.
  assert (S : JS.startsWith (String c r) "//" = false).
  { rewrite startsWith_two, terminator_not_slash; auto. }
  rewrite S. auto.
Qed.

(** X28. The first two slashes of the content open a comment, which runs up
    to the end of the line: the text before it and the line terminator are
    kept, and stripping goes on after the line. *)
Theorem comment_runs_to_end_of_line (before comment rest : string) :
  JS.includes (before ++ "/") "//" = false ->
  forallb (fun c => negb (ConfigFile.isLineTerminator c)) (Json.chars comment) = true ->
  match rest with
  | EmptyString => True
  | String c _ => ConfigFile.isLineTerminator c = true
  end ->
  ConfigFile.stripComments (before ++ "//" ++ comment ++ rest) = before ++ ConfigFile.stripComments rest.
Proof.
  intros Ha Hb Hr. unfold ConfigFile.stripComments.
  rewrite strip_before, strip_inside, strip_line_end; auto.
Qed.


(** ** Environment variables in configuration values *)

Section EnvironmentProperties.

Variable env : string -> option string.

Lemma replaceVars_before (before rest : string) :
  JS.includes before "${" = false ->
  ConfigFile.replaceVars env None (before ++ "${" ++ rest)
  = before ++ ConfigFile.replaceVars env None ("${" ++ rest).
Proof.
  induction before as [|c before IH]; [reflexivity|]. intros H.
  cbn [JS.includes] in H. apply orb_false_iff in H as [S I].
  change (String c before ++ "${" ++ rest) with (String c (before ++ "${" ++ rest)).
  change (String c before ++ ConfigFile.replaceVars env None ("${" ++ rest))
    with (String c (before ++ ConfigFile.replaceVars env None ("${" ++ rest))).
  rewrite <- (IH I).
  destruct before as [|d before'].
  - cbn [append ConfigFile.replaceVars Ascii.eqb Bool.eqb andb].
    rewrite andb_false_r. reflexivity.
  - change (String d before' ++ "${" ++ rest) with (String d (before' ++ "${" ++ rest)).
    assert (C : Ascii.eqb c "$" && Ascii.eqb d "{" = false).
    { cbn [JS.startsWith] in S. rewrite (Ascii.eqb_sym c), (Ascii.eqb_sym d).
      destruct (Ascii.eqb "$" c); auto. destruct (Ascii.eqb "{" d); auto.
      destruct before'; discriminate S. }
    cbn [ConfigFile.replaceVars]. rewrite C. reflexivity.
Qed.

Lemma envValue_eq (name : string) :
  ConfigFile.envValue env name = match env name with Some v => v | None => "" end.
Proof.
  unfold ConfigFile.envValue. destruct (env name) as [v|]; [|reflexivity].
  destruct v; reflexivity.
Qed.

Lemma append_assoc' (a b c : string) : (a ++ b) ++ c = a ++ b ++ c.
Proof. induction a; cbn; congruence. Qed.

Lemma replaceVars_name (name rest : string) :
  JS.count "}" name = 0 ->
  forall read,
    ConfigFile.replaceVars env (Some read) (name ++ "}" ++ rest)
    = if String.eqb (read ++ name) "" then "${}" ++ ConfigFile.replaceVars env None rest
      else ConfigFile.envValue env (read ++ name) ++ ConfigFile.replaceVars env None rest.
Proof.
  induction name as [|c name IH]; intros H read.
  - cbn [append ConfigFile.replaceVars]. rewrite Ascii.eqb_refl.
    replace (read ++ "") with read by (clear; induction read; cbn; congruence).
    reflexivity.
  - cbn [JS.count] in H. destruct (Ascii.eqb "}" c) eqn:E; [discriminate H|].
    change (String c name ++ "}" ++ rest) with (String c (name ++ "}" ++ rest)).
    cbn [ConfigFile.replaceVars]. rewrite (Ascii.eqb_sym c "}"), E.
    rewrite IH by exact H. rewrite append_assoc'. reflexivity.
Qed.

Lemma replaceVars_unchanged (value : string) :
  JS.includes value "${" = false -> ConfigFile.replaceVars env None value = value.
Proof.
  induction value as [|c rest IH]; auto. cbn [JS.includes]. intros H.
  apply orb_false_iff in H as [S I].
  cbn [ConfigFile.replaceVars]. destruct rest as [|d rest'].
  - reflexivity.
  - assert (C : Ascii.eqb c "$" && Ascii.eqb d "{" = false).
    { cbn [JS.startsWith] in S. rewrite (Ascii.eqb_sym c), (Ascii.eqb_sym d).
      destruct (Ascii.eqb "$" c); auto. destruct (Ascii.eqb "{" d); auto.
      destruct rest'; discriminate S. }
    rewrite C. rewrite IH by exact I. reflexivity.
Qed.

(** X29. [resolveEnvVars] leaves a string without [${] as it is.  In any
    other string it replaces the first placeholder [${name}] -- the text
    before it has no [${], though it may have dollar signs, and the name is
    not empty and has no closing brace -- by the value of the environment
    variable [name], or by nothing where the variable is not set; it keeps
    the text before the placeholder and resolves the rest of the string in
    the same way. *)
Theorem placeholders_take_environment_values (value : string) :
  (JS.includes value "${" = false ->
   ConfigFile.resolveEnvVars env (JStr value) = JStr value)
  /\ (forall before name rest,
        value = before ++ "${" ++ name ++ "}" ++ rest ->
        JS.includes before "${" = false -> name <> "" -> JS.count "}" name = 0 ->
        exists resolved,
          ConfigFile.resolveEnvVars env (JStr rest) = JStr resolved
          /\ ConfigFile.resolveEnvVars env (JStr value)
             = JStr (before ++ match env name with Some v => v | None => "" end
                     ++ resolved)).
Proof.
  cbn [ConfigFile.resolveEnvVars].
  split; [intros H; f_equal; apply replaceVars_unchanged, H|].
  intros before name rest -> Hb Hn Hc. eexists. split; [reflexivity|]. f_equal.
  rewrite replaceVars_before by exact Hb.
  change ("${" ++ name ++ "}" ++ rest) with (String "$" (String "{" (name ++ "}" ++ rest))).
  cbn [ConfigFile.replaceVars Ascii.eqb Bool.eqb andb].
  rewrite replaceVars_name by exact Hc. cbn [append]. rewrite <- envValue_eq.
  destruct name; [congruence|reflexivity].
Qed.

End EnvironmentProperties.

(** ** The scheduler *)

Lemma stopScheduler_spec (w : Sys.World) (tasks : Scheduler.ActiveTasks) (tr : Sys.trace) :
  exists ext,
    Scheduler.stopScheduler w tasks tr = (Ok tt, Scheduler.mkTasks None None, (tr ++ ext)%list)
    /\ Scheduler.stoppedTasks ext = Scheduler.active tasks
    /\ Scheduler.scheduledTasks ext = []
    /\ filter Sys.isCalled ext = [].
Proof.
  unfold Scheduler.stopScheduler. sys_unfold. destruct tasks as [[s|] [r|]];
    cbn [Scheduler.sync Scheduler.report];
    (eexists; split;
     [first [rewrite app_nil_r; reflexivity | rewrite <- !app_assoc; reflexivity]|];
     repeat split; reflexivity).
Qed.

Lemma stoppedTasks_app a b :
  Scheduler.stoppedTasks (a ++ b)%list
  = (Scheduler.stoppedTasks a ++ Scheduler.stoppedTasks b)%list.
Proof. apply flat_map_app. Qed.

Lemma scheduledTasks_app a b :
  Scheduler.scheduledTasks (a ++ b)%list
  = (Scheduler.scheduledTasks a ++ Scheduler.scheduledTasks b)%list.
Proof. apply flat_map_app. Qed.


(** X30. [setupScheduler] stops every task that was active, and the tasks
    that are active afterwards are the ones that this run scheduled: none,
    the sync job, or the sync job and the report job, the latter only with
    [sendDailyReport] and [email] set.  When it returns, the sync task is
    active, and the report task is active exactly with [sendDailyReport] and
    [email] set. *)
Theorem setupScheduler_replaces_tasks (config : Scheduler.SchedulerConfig) (w : Sys.World)
    (tasks : Scheduler.ActiveTasks) :
  exists r tasks' tr,
    Sys.run (Scheduler.setupScheduler config) w tasks = (r, tasks', tr)
    /\ Scheduler.stoppedTasks tr = Scheduler.active tasks
    /\ Scheduler.active tasks' = map snd (Scheduler.scheduledTasks tr)
    /\ (map fst (Scheduler.scheduledTasks tr) = []
        \/ map fst (Scheduler.scheduledTasks tr) = [Sys.syncJob]
        \/ (map fst (Scheduler.scheduledTasks tr) = [Sys.syncJob; Sys.reportJob]
            /\ Scheduler.sendDailyReport config && Scheduler.email config = true))
    /\ (r = Ok tt ->
        Scheduler.sync tasks' <> None
        /\ (Scheduler.report tasks' <> None
            <-> Scheduler.sendDailyReport config && Scheduler.email config = true)).
Proof.
  unfold Scheduler.setupScheduler, Sys.run. unfold Sys.bind at 1.
  destruct (stopScheduler_spec w tasks []) as (ext & E & Hstop & Hsched & _).
  rewrite E. cbn [app]. clear E.
  destruct (JS.truthyOpt (Scheduler.schedule config)) eqn:Hs; cbn [negb].
  - sys_unfold. sys_reply_as w valid. destruct valid; cbn [negb]; cbv beta iota.
    + sys_answer_as w task e; cbn [Scheduler.report].
      * destruct (Scheduler.sendDailyReport config && Scheduler.email config) eqn:Hd.
        -- sys_answer_as w task2 e; cbn [Scheduler.sync].
           ++ eexists _, _, _. split; [reflexivity|].
              rewrite !stoppedTasks_app, !scheduledTasks_app, Hstop, Hsched.
              cbn. rewrite !app_nil_r. repeat split; auto; try discriminate.
           ++ eexists _, _, _. split; [reflexivity|].
              rewrite !stoppedTasks_app, !scheduledTasks_app, Hstop, Hsched.
              cbn. rewrite !app_nil_r. repeat split; auto; try discriminate.
        -- eexists _, _, _. split; [reflexivity|].
           rewrite !stoppedTasks_app, !scheduledTasks_app, Hstop, Hsched.
           cbn. rewrite !app_nil_r. repeat split; auto; try discriminate.
      * eexists _, _, _. split; [reflexivity|].
        rewrite !stoppedTasks_app, !scheduledTasks_app, Hstop, Hsched.
        cbn. rewrite !app_nil_r. repeat split; auto; try discriminate.
    + eexists _, _, _. split; [reflexivity|].
      rewrite !stoppedTasks_app, !scheduledTasks_app, Hstop, Hsched.
      cbn. rewrite !app_nil_r. repeat split; auto; try discriminate.
  - sys_unfold. eexists _, _, _. split; [reflexivity|].
    rewrite Hstop, Hsched. cbn. repeat split; auto; try discriminate.
Qed.

(** ** Worked examples of the modules *)

Lemma generated_text_is_first_usable_answer_witness :
  sampleGeneration 1
  = (Ok (Some "let limit = 20;"), snd (fst (sampleGeneration 1)), snd (sampleGeneration 1))
  /\ "let limit = 20;" <> "" /\ JS.trim "let limit = 20;" = "let limit = 20;"
  /\ exists failures completion,
       LlmClient.chatRequests (snd (sampleGeneration 1)) = (failures ++ [Ok completion])%list
       /\ LlmClient.textResponse completion = Some "let limit = 20;"
       /\ Forall (fun a => LlmClient.usable a = false) failures
       /\ (Z.of_nat (length failures) <= LlmClient.limit sampleSettings)%Z
       /\ LlmClient.pauses (snd (sampleGeneration 1)) = LlmClient.backoff 1 (length failures).
Proof.
  split; [vm_compute; reflexivity|].
  apply (generated_text_is_first_usable_answer sampleTypeError
           "Resolve the conflict in src/app.js" (LlmClient.mkOptions None None)
           (flakyService 1) sampleClient sampleSettings "let limit = 20;"
           (snd (fst (sampleGeneration 1))) (snd (sampleGeneration 1))).
  vm_compute; reflexivity.
Defined.

Lemma generateText_gives_up_after_limit_witness :
  sampleGeneration 4
  = (Threw (mkError "Failed to generate text after 3 retries: rate limited"),
     snd (fst (sampleGeneration 4)), snd (sampleGeneration 4))
  /\ exists failures last,
       LlmClient.chatRequests (snd (sampleGeneration 4)) = (failures ++ [last])%list
       /\ Forall (fun a => LlmClient.usable a = false) (failures ++ [last])
       /\ Z.of_nat (length failures) = LlmClient.limit sampleSettings
       /\ LlmClient.pauses (snd (sampleGeneration 4)) = LlmClient.backoff 1 (length failures)
       /\ "Failed to generate text after 3 retries: rate limited"
          = "Failed to generate text after " ++ Json.ofZ (LlmClient.limit sampleSettings)
            ++ " retries: " ++ LlmClient.failureText last.
Proof.
  split; [vm_compute; reflexivity|].
  apply (generateText_gives_up_after_limit sampleTypeError
           "Resolve the conflict in src/app.js" (LlmClient.mkOptions None None)
           (flakyService 4) sampleClient sampleSettings
           (mkError "Failed to generate text after 3 retries: rate limited")
           (snd (fst (sampleGeneration 4))) (snd (sampleGeneration 4))).
  vm_compute; reflexivity.
Defined.

Lemma failed_initialisation_leaves_no_client_witness :
  Sys.run (LlmClient.initializeLLMClient None) (flakyService 0) LlmClient.fresh
  = (Threw LlmClient.missing, LlmClient.fresh,
     [Sys.Logged err "LLM client configuration is missing or incomplete." None])
  /\ Sys.run (LlmClient.generateText sampleTypeError "Resolve the conflict in src/app.js"
                (LlmClient.mkOptions None None)) (flakyService 0) LlmClient.fresh
     = (Threw (mkError "LLM client not initialized."), LlmClient.fresh,
        [Sys.Logged err "LLM client not initialized. Call initializeLLMClient first." None]).
Proof.
  split; [reflexivity|].
  apply (failed_initialisation_leaves_no_client sampleTypeError None (flakyService 0)
           LlmClient.missing LlmClient.fresh
           [Sys.Logged err "LLM client configuration is missing or incomplete." None]).
  reflexivity.
Defined.

Lemma wrapper_runs_one_command_witness :
  GitClient.Wraps json unit (GitClient.merge ["upstream/main"])
    (Sys.sg_merge ["upstream/main"]) (fun _ => tt)
  /\ exists tr,
       GitClient.commands tr
       = [Sys.Called (Sys.sg_merge ["upstream/main"])
            (Sys.answer (flakyService 0) json [] (Sys.sg_merge ["upstream/main"]))]
       /\ match Sys.answer (flakyService 0) json [] (Sys.sg_merge ["upstream/main"]) with
          | Ok value =>
              Sys.run (GitClient.merge ["upstream/main"]) (flakyService 0) tt = (Ok tt, tt, tr)
              /\ GitClient.failures tr = []
          | Threw e =>
              Sys.run (GitClient.merge ["upstream/main"]) (flakyService 0) tt = (Threw e, tt, tr)
              /\ GitClient.failures tr = [Some (message e)]
          end.
Proof.
  split; [constructor|].
  apply (wrapper_runs_one_command json unit (GitClient.merge ["upstream/main"])
           (Sys.sg_merge ["upstream/main"]) (fun _ => tt) (flakyService 0)).
  constructor.
Defined.

Lemma report_lists_every_outcome_witness :
  In sampleFailure (details sampleResults)
  /\ JS.includes (Mailer.reportText sampleResults)
       ("------------------------------------" ++ nl
        ++ "Account: " ++ account sampleFailure ++ nl
        ++ "Repository: " ++ repository sampleFailure ++ nl
        ++ "Status: " ++ match status sampleFailure with
                         | synced => "synced"
                         | skipped => "skipped"
                         | error => "error"
                         end ++ nl) = true
  /\ (forall text, outcome_message sampleFailure = Some text -> text <> "" ->
      JS.includes (Mailer.reportText sampleResults) ("Message: " ++ text ++ nl) = true)
  /\ (forall text, outcome_error sampleFailure = Some text -> text <> "" ->
      JS.includes (Mailer.reportText sampleResults) ("Error: " ++ text ++ nl) = true)
  /\ (hadConflicts sampleFailure = Some true ->
      JS.includes (Mailer.reportText sampleResults) ("Conflicts Encountered: Yes" ++ nl) = true)
  /\ (usedLLM sampleFailure = Some true ->
      JS.includes (Mailer.reportText sampleResults) ("LLM Used for Resolution: Yes" ++ nl)
      = true)
  /\ (forall verdict, testsStatus sampleFailure = Some verdict ->
      JS.includes (Mailer.reportText sampleResults)
        ("Tests Status: " ++ match verdict with
                             | passed => "passed"
                             | failed => "failed"
                             | tests_error => "error"
                             end ++ nl) = true).
Proof.
  split; [simpl; auto|].
  apply (report_lists_every_outcome sampleResults sampleFailure). simpl; auto.
Defined.

Lemma validateConfig_returns_valid_configuration_witness :
  fst (fst (Sys.run (ConfigFile.validateConfig sampleTypeError sampleConfigFile)
              (flakyService 0) tt)) = Ok completeConfigFile
  /\ ConfigFile.validated completeConfigFile = true.
Proof.
  split; [vm_compute; reflexivity|].
  apply (validateConfig_returns_valid_configuration sampleTypeError sampleConfigFile
           completeConfigFile (flakyService 0)
           (snd (Sys.run (ConfigFile.validateConfig sampleTypeError sampleConfigFile)
                   (flakyService 0) tt))).
  vm_compute; reflexivity.
Defined.

Lemma valid_configuration_passes_unchanged_witness :
  ConfigFile.validated completeConfigFile = true
  /\ exists tr,
       Sys.run (ConfigFile.validateConfig sampleTypeError completeConfigFile) (flakyService 0) tt
       = (Ok completeConfigFile, tt, tr).
Proof.
  split; [vm_compute; reflexivity|].
  apply (valid_configuration_passes_unchanged sampleTypeError completeConfigFile (flakyService 0)).
  vm_compute; reflexivity.
Defined.

Lemma single_account_configuration_is_valid_witness :
  fst (fst (Sys.run (ConfigFile.validateConfig_single sampleStringify sampleTypeError
                       sampleSingleConfigFile) (flakyService 0) tt))
  = Ok completeSingleConfigFile
  /\ ConfigFile.validated_single completeSingleConfigFile = true.
Proof.
  split; [vm_compute; reflexivity|].
  apply (single_account_configuration_is_valid sampleTypeError sampleStringify
           sampleSingleConfigFile completeSingleConfigFile (flakyService 0)
           (snd (Sys.run (ConfigFile.validateConfig_single sampleStringify sampleTypeError
                            sampleSingleConfigFile) (flakyService 0) tt))).
  vm_compute; reflexivity.
Defined.

Lemma comment_runs_to_end_of_line_witness :
  (JS.includes ("{ " ++ dq ++ "schedule" ++ dq ++ ": 4, " ++ "/") "//" = false
   /\ forallb (fun c => negb (ConfigFile.isLineTerminator c)) (Json.chars " every night") = true)
  /\ ConfigFile.stripComments
       (("{ " ++ dq ++ "schedule" ++ dq ++ ": 4, ") ++ "//" ++ " every night" ++ (nl ++ "}"))
     = ("{ " ++ dq ++ "schedule" ++ dq ++ ": 4, ") ++ ConfigFile.stripComments (nl ++ "}").
Proof.
  split; [split; reflexivity|].
  apply (comment_runs_to_end_of_line ("{ " ++ dq ++ "schedule" ++ dq ++ ": 4, ")
           " every night" (nl ++ "}")); reflexivity.
Defined.
